(** * plugdata: the suggestion popup and the plugin-mode view

    A shallow embedding of [Source/SuggestionComponent.h] and
    [Source/PluginMode.h].  Component state is kept in records, the
    components that are shared through pointers ([TextEditor], [Object],
    [Canvas]) live in small heaps indexed by address, and a method that can
    dereference a null pointer or divide by zero returns an [Outcome].

    Painting, scroll positions, tooltips, colours and keyboard focus are not
    part of the state: no modelled field depends on them. *)

From Stdlib Require Import ZArith String Ascii List Bool Lia.
From Stdlib Require Import Floats.SpecFloat.
From stdpp Require Import base option list strings gmap.

Open Scope Z_scope.

(** ** C++ [int] *)

Module CInt.

Definition INT_MIN : Z := - 2 ^ 31.
Definition INT_MAX : Z := 2 ^ 31 - 1.

(** Reduction of a mathematical integer to the 32-bit two's complement
    range, as conversions to [int] and [int] arithmetic do on the targets
    plugdata is built for. *)
Definition wrap (z : Z) : Z := (z + 2 ^ 31) mod 2 ^ 32 - 2 ^ 31.

Definition in_range (z : Z) : Prop := INT_MIN <= z <= INT_MAX.

Definition add (a b : Z) : Z := wrap (a + b).
Definition sub (a b : Z) : Z := wrap (a - b).
Definition mul (a b : Z) : Z := wrap (a * b).
Definition neg (a : Z) : Z := wrap (- a).

(** [a / b] and [a % b] truncate towards zero; a zero divisor has no
    result. *)
Definition div (a b : Z) : option Z :=
  if b =? 0 then None else Some (wrap (Z.quot a b)).

Definition rem (a b : Z) : option Z :=
  if b =? 0 then None else Some (wrap (Z.rem a b)).

(** [static_cast<int>(v.size())] *)
Definition of_size (n : nat) : Z := wrap (Z.of_nat n).

End CInt.

(** ** [juce::String]

    Strings are sequences of ASCII characters; letter case is compared the
    way [CharacterFunctions::compareIgnoreCase] does on that range. *)

Module JString.

Definition toLowerCase (c : ascii) : ascii :=
  let n := nat_of_ascii c in
  if ((65 <=? n) && (n <=? 90))%nat then ascii_of_nat (n + 32) else c.

Definition equalsChar (ignoreCase : bool) (a b : ascii) : bool :=
  if ignoreCase then Ascii.eqb (toLowerCase a) (toLowerCase b)
  else Ascii.eqb a b.

Fixpoint startsWith (ignoreCase : bool) (sub s : string) : bool :=
  match sub, s with
  | EmptyString, _ => true
  | String a sub', String b s' =>
      equalsChar ignoreCase a b && startsWith ignoreCase sub' s'
  | String _ _, EmptyString => false
  end.

(** [indexOf] / [indexOfIgnoreCase]: position of the first occurrence of
    [sub], [None] for the library's [-1].  The empty string occurs at 0. *)
Fixpoint indexOf (ignoreCase : bool) (sub s : string) : option nat :=
  if startsWith ignoreCase sub s then Some 0%nat
  else match s with
       | EmptyString => None
       | String _ s' => S <$> indexOf ignoreCase sub s'
       end.

Fixpoint dropChars (n : nat) (s : string) : string :=
  match n, s with
  | O, _ => s
  | S n', String _ s' => dropChars n' s'
  | S _, EmptyString => EmptyString
  end.

Fixpoint takeChars (n : nat) (s : string) : string :=
  match n, s with
  | O, _ => EmptyString
  | S n', String c s' => String c (takeChars n' s')
  | S _, EmptyString => EmptyString
  end.

Definition contains (s sub : string) : bool :=
  bool_decide (is_Some (indexOf false sub s)).

Definition isNotEmpty (s : string) : bool :=
  match s with EmptyString => false | String _ _ => true end.

Definition isEmpty (s : string) : bool := negb (isNotEmpty s).

(** [s.upToFirstOccurrenceOf (sub, includeSubString, ignoreCase)]: the
    whole string when [sub] does not occur. *)
Definition upToFirstOccurrenceOf
    (s sub : string) (includeSubString ignoreCase : bool) : string :=
  match indexOf ignoreCase sub s with
  | None => s
  | Some i =>
      takeChars (if includeSubString then i + String.length sub else i)%nat s
  end.

(** [s.fromFirstOccurrenceOf (sub, includeSubString, ignoreCase)]: the
    empty string when [sub] does not occur. *)
Definition fromFirstOccurrenceOf
    (s sub : string) (includeSubString ignoreCase : bool) : string :=
  match indexOf ignoreCase sub s with
  | None => EmptyString
  | Some i =>
      dropChars (if includeSubString then i else i + String.length sub)%nat s
  end.

(** [s.length()] as an [int]. *)
Definition length (s : string) : Z := Z.of_nat (String.length s).

End JString.

(** ** Outcomes of methods that may fault *)

(** The pointers these components dereference. *)
Inductive Pointer : Type :=
| ptr_autoCompleteComponent
| ptr_currentBox
| ptr_openedEditor
| ptr_editor
| ptr_object
| ptr_button
| ptr_canvas.

Inductive Fault : Type :=
| NullDereference (p : Pointer)
| DivisionByZero
| OutOfBounds.

Inductive Outcome (A : Type) : Type :=
| Ok (a : A)
| Crash (f : Fault).

Arguments Ok {A} a.
Arguments Crash {A} f.


#[global] Instance Outcome_bind : MBind Outcome := fun A B k m =>
  match m with
  | Ok a => k a
  | Crash f => Crash f
  end.

(** Dereference of the pointer named [p], which may be null or stale. *)
Definition deref {A : Type} (p : Pointer) (target : option A) : Outcome A :=
  match target with
  | Some a => Ok a
  | None => Crash (NullDereference p)
  end.

Definition succeeds {A : Type} (m : Outcome A) : Prop :=
  match m with Ok _ => True | Crash _ => False end.

(** ** Heap of live components *)

Definition addr : Type := positive.

Record TextEditor : Type := mkTextEditor {
  getText : string
}.

Definition setText (t : string) (e : TextEditor) : TextEditor :=
  {| getText := t |}.

(** ** [AutoCompleteComponent] *)

Module AutoComplete.

(** [editor] is a [SafePointer]: it reads as null once the editor at that
    address has been deleted, which is [editors !! editor = None]. *)
Record t : Type := mk {
  suggestion : string;
  editor : addr;
  isVisible : bool
}.

(** The constructor adds the overlay to the canvas with
    [addAndMakeVisible]. *)
Definition create (e : addr) : t :=
  {| suggestion := EmptyString; editor := e; isVisible := true |}.

Definition getSuggestion (editors : gmap addr TextEditor) (ac : t) : string :=
  match editors !! editor ac with
  | None => EmptyString
  | Some ed => (getText ed ++ suggestion ac)%string
  end.

Definition autocomplete (editors : gmap addr TextEditor) (ac : t)
  : gmap addr TextEditor :=
  match editors !! editor ac with
  | None => editors
  | Some ed =>
      <[editor ac := setText (getText ed ++ suggestion ac)%string ed]> editors
  end.

Definition setSuggestion (editors : gmap addr TextEditor)
    (suggestionText : string) (ac : t) : t :=
  match editors !! editor ac with
  | None => ac
  | Some ed =>
      let textUpToSpace :=
        JString.upToFirstOccurrenceOf (getText ed) " " false false in
      {| suggestion :=
           JString.fromFirstOccurrenceOf suggestionText textUpToSpace false true;
         editor := editor ac;
         isVisible :=
           JString.isNotEmpty suggestionText
           && negb (String.eqb textUpToSpace suggestionText) |}
  end.

(** The remainder in the words of the description: what follows the first
    place where the typed prefix itself occurs in the suggestion. *)
Definition remainder_after_typed_prefix (suggestionText typed : string) : string :=
  JString.fromFirstOccurrenceOf suggestionText typed false false.

End AutoComplete.

(** ** [juce::var], the content of a [Value] *)

Module JVar.

Inductive var : Type :=
| var_void
| var_int (z : Z)
| var_bool (b : bool)
| var_double (d : spec_float).

(** [static_cast<bool>(v)]: numbers are true when non-zero. *)
Definition to_bool (v : var) : bool :=
  match v with
  | var_void => false
  | var_int z => negb (z =? 0)
  | var_bool b => b
  | var_double d => negb (SFeqb d (S754_zero false))
  end.

End JVar.

(** ** The object library and the object being edited *)

Module Library.

(** One entry of an argument list: type, description, initial value. *)
Abbreviation Argument := (string * string * string)%type.

(** The library is declared outside these two files; the popup only reads
    it, so its three queries are the fields. *)
Record t : Type := mk {
  autocomplete : string -> list (string * bool);
  getArguments : gmap string (list Argument);
  getObjectDescriptions : gmap string string
}.

End Library.

(** What the popup reaches through [currentBox]: the library of
    [cnv->pd], the hvcc flag of [cnv->editor], and the number of
    [updateBounds()] calls the object has received. *)
Record Object : Type := mkObject {
  objectLibrary : Library.t;
  hvccMode : JVar.var;
  boundsUpdates : nat
}.

Definition updateBounds (o : Object) : Object :=
  {| objectLibrary := objectLibrary o;
     hvccMode := hvccMode o;
     boundsUpdates := S (boundsUpdates o) |}.

(** ** One row of the popup: [SuggestionComponent::Suggestion] *)

Module Suggestion.

Record t : Type := mk {
  idx : Z;
  type : Z;
  objectDescription : string;
  buttonText : string;
  drawIcon : bool;
  toggleState : bool;
  interceptsMouseClicks : bool * bool
}.

Definition setText (name description : string) (icon : bool) (b : t) : t :=
  {| idx := idx b;
     type := if JString.contains name "~" then 1 else 0;
     objectDescription := description;
     buttonText := name;
     drawIcon := icon;
     toggleState := toggleState b;
     interceptsMouseClicks := interceptsMouseClicks b |}.

(** Sets this button only; the radio group's effect on its siblings is the
    framework's and is not tracked. *)
Definition setToggleState (on : bool) (b : t) : t :=
  {| idx := idx b;
     type := type b;
     objectDescription := objectDescription b;
     buttonText := buttonText b;
     drawIcon := drawIcon b;
     toggleState := on;
     interceptsMouseClicks := interceptsMouseClicks b |}.

Definition setInterceptsMouseClicks (self children : bool) (b : t) : t :=
  {| idx := idx b;
     type := type b;
     objectDescription := objectDescription b;
     buttonText := buttonText b;
     drawIcon := drawIcon b;
     toggleState := toggleState b;
     interceptsMouseClicks := (self, children) |}.

Definition create (i : Z) : t :=
  setText "" "" false
    {| idx := i;
       type := -1;
       objectDescription := EmptyString;
       buttonText := EmptyString;
       drawIcon := true;
       toggleState := false;
       interceptsMouseClicks := (true, true) |}.

End Suggestion.

(** ** Counted loops and indexed access to the button array *)

Fixpoint for_loop {St : Type} (n : nat) (i : Z)
    (body : Z -> St -> Outcome St) (s : St) : Outcome St :=
  match n with
  | O => Ok s
  | S n' => s' ← body i s; for_loop n' (i + 1) body s'
  end.

(** [for (int i = lo; i < hi; i++) body] *)
Definition for_range {St : Type} (lo hi : Z)
    (body : Z -> St -> Outcome St) (s : St) : Outcome St :=
  for_loop (Z.to_nat (hi - lo)) lo body s.

(** [OwnedArray::operator[]]: null outside the array. *)
Definition at_index {A : Type} (l : list A) (i : Z) : option A :=
  if 0 <=? i then l !! Z.to_nat i else None.

(** [std::vector::operator[]] *)
Definition at_vector {A : Type} (v : list A) (i : Z) : Outcome A :=
  match at_index v i with
  | Some a => Ok a
  | None => Crash OutOfBounds
  end.

(** [buttons[i]->f (...)] *)
Definition update_button (i : Z) (f : Suggestion.t -> Suggestion.t)
    (bs : list Suggestion.t) : Outcome (list Suggestion.t) :=
  b ← deref ptr_button (at_index bs i); Ok (<[Z.to_nat i := f b]> bs).

(** ** [SuggestionComponent] *)

Module Popup.

Inductive SugesstionState : Type :=
| Hidden
| ShowingObjects
| ShowingArguments.

(** [openedEditor] is a raw pointer and [currentBox] a [SafePointer]; both
    hold an address or null.  [buttonholderHeight] is the height given to
    the button holder by [resized]. *)
Record t : Type := mk {
  numOptions : Z;
  currentidx : Z;
  autoCompleteComponent : option AutoComplete.t;
  buttons : list Suggestion.t;
  state : SugesstionState;
  openedEditor : option addr;
  currentBox : option addr;
  isVisible : bool;
  isOnDesktop : bool;
  buttonholderHeight : Z
}.

Definition set_numOptions (n : Z) (p : t) : t :=
  mk n (currentidx p) (autoCompleteComponent p) (buttons p) (state p)
     (openedEditor p) (currentBox p) (isVisible p) (isOnDesktop p)
     (buttonholderHeight p).

Definition set_currentidx (i : Z) (p : t) : t :=
  mk (numOptions p) i (autoCompleteComponent p) (buttons p) (state p)
     (openedEditor p) (currentBox p) (isVisible p) (isOnDesktop p)
     (buttonholderHeight p).

Definition set_autoCompleteComponent (a : option AutoComplete.t) (p : t) : t :=
  mk (numOptions p) (currentidx p) a (buttons p) (state p)
     (openedEditor p) (currentBox p) (isVisible p) (isOnDesktop p)
     (buttonholderHeight p).

Definition set_buttons (bs : list Suggestion.t) (p : t) : t :=
  mk (numOptions p) (currentidx p) (autoCompleteComponent p) bs (state p)
     (openedEditor p) (currentBox p) (isVisible p) (isOnDesktop p)
     (buttonholderHeight p).

Definition set_state (st : SugesstionState) (p : t) : t :=
  mk (numOptions p) (currentidx p) (autoCompleteComponent p) (buttons p) st
     (openedEditor p) (currentBox p) (isVisible p) (isOnDesktop p)
     (buttonholderHeight p).

Definition set_openedEditor (e : option addr) (p : t) : t :=
  mk (numOptions p) (currentidx p) (autoCompleteComponent p) (buttons p)
     (state p) e (currentBox p) (isVisible p) (isOnDesktop p)
     (buttonholderHeight p).

Definition set_currentBox (b : option addr) (p : t) : t :=
  mk (numOptions p) (currentidx p) (autoCompleteComponent p) (buttons p)
     (state p) (openedEditor p) b (isVisible p) (isOnDesktop p)
     (buttonholderHeight p).

Definition setVisible (v : bool) (p : t) : t :=
  mk (numOptions p) (currentidx p) (autoCompleteComponent p) (buttons p)
     (state p) (openedEditor p) (currentBox p) v (isOnDesktop p)
     (buttonholderHeight p).

Definition set_isOnDesktop (d : bool) (p : t) : t :=
  mk (numOptions p) (currentidx p) (autoCompleteComponent p) (buttons p)
     (state p) (openedEditor p) (currentBox p) (isVisible p) d
     (buttonholderHeight p).

Definition set_buttonholderHeight (h : Z) (p : t) : t :=
  mk (numOptions p) (currentidx p) (autoCompleteComponent p) (buttons p)
     (state p) (openedEditor p) (currentBox p) (isVisible p) (isOnDesktop p)
     h.

(** The live editors and objects, and the popup that points into them. *)
Record World : Type := mkWorld {
  editors : gmap addr TextEditor;
  objects : gmap addr Object;
  popup : t
}.

Definition set_popup (p : t) (w : World) : World :=
  mkWorld (editors w) (objects w) p.

Definition set_objects (o : gmap addr Object) (w : World) : World :=
  mkWorld (editors w) o (popup w).

Definition set_editors (e : gmap addr TextEditor) (w : World) : World :=
  mkWorld e (objects w) (popup w).

(** The constructor: twenty buttons, nothing opened.  Its
    [setSize (300, 140)] runs [resized ()] with no options, which gives the
    button holder the height [0 * 25 + 8]. *)
Definition create : t :=
  {| numOptions := 0;
     currentidx := 0;
     autoCompleteComponent := None;
     buttons := map (fun i => Suggestion.create (Z.of_nat i)) (seq 0 20);
     state := Hidden;
     openedEditor := None;
     currentBox := None;
     isVisible := false;
     isOnDesktop := false;
     buttonholderHeight := 8 |}.

(** [buttons.size()] *)
Definition buttons_size (p : t) : Z := Z.of_nat (List.length (buttons p)).

(** The object [currentBox] points to, if the pointer is set and the
    object is still alive. *)
Definition currentBox_target (w : World) : option (addr * Object) :=
  a ← currentBox (popup w); o ← objects w !! a; Some (a, o).

(** [currentBox->updateBounds()] *)
Definition currentBox_updateBounds (w : World) : Outcome World :=
  '(a, o) ← deref ptr_currentBox (currentBox_target w);
  Ok (set_objects (<[a := updateBounds o]> (objects w)) w).

(** [~AutoCompleteComponent] removes itself from its editor's listeners
    without testing the pointer. *)
Definition destroy_autoCompleteComponent (w : World) : Outcome World :=
  match autoCompleteComponent (popup w) with
  | None => Ok w
  | Some ac =>
      _ ← deref ptr_editor (editors w !! AutoComplete.editor ac);
      Ok (set_popup (set_autoCompleteComponent None (popup w)) w)
  end.

Definition resized (p : t) : t :=
  set_buttonholderHeight
    (CInt.add (CInt.mul (Z.min (numOptions p) 20) 25) 8) p.

Definition createCalloutBox (object editor : addr) (w : World) : Outcome World :=
  let p := set_openedEditor (Some editor) (set_currentBox (Some object) (popup w)) in
  _ ← deref ptr_object (objects w !! object);
  _ ← deref ptr_editor (editors w !! editor);
  let p := set_isOnDesktop true p in
  w ← destroy_autoCompleteComponent (set_popup p w);
  let p := set_autoCompleteComponent (Some (AutoComplete.create editor)) (popup w) in
  Ok (set_popup (setVisible false p) w).

Definition removeCalloutBox (w : World) : Outcome World :=
  let p := set_isOnDesktop false (setVisible false (popup w)) in
  w ← destroy_autoCompleteComponent (set_popup p w);
  e ← deref ptr_openedEditor (openedEditor (popup w));
  _ ← deref ptr_openedEditor (editors w !! e);
  Ok (set_popup (set_currentBox None (set_openedEditor None (popup w))) w).

Definition move (offset setto : Z) (w : World) : Outcome World :=
  let p := popup w in
  match openedEditor p with
  | None => Ok w
  | Some _ =>
      let p :=
        if setto =? -1 then set_currentidx (CInt.add (currentidx p) offset) p
        else set_currentidx setto p in
      if numOptions p =? 0 then Ok (set_popup p w)
      else
        let numButtons := Z.min 20 (numOptions p) in
        i ← match CInt.rem (CInt.add (currentidx p) numButtons) numButtons with
            | Some r => Ok r
            | None => Crash DivisionByZero
            end;
        let p := set_currentidx i p in
        bs ← update_button (currentidx p) (Suggestion.setToggleState true) (buttons p);
        let p := set_buttons bs p in
        match autoCompleteComponent p with
        | Some ac =>
            but ← deref ptr_button (at_index (buttons p) (currentidx p));
            let newText := Suggestion.buttonText but in
            let ac := AutoComplete.setSuggestion (editors w) newText ac in
            currentBox_updateBounds
              (set_popup (set_autoCompleteComponent (Some ac) p) w)
        | None => Ok (set_popup p w)
        end
  end.

(** The [onClick] of button [i], as installed by [createCalloutBox]. *)
Definition buttonClicked (i : Z) (w : World) : Outcome World :=
  move 0 i w.

Section TextChanged.

(** [Object::hvccObjects], the names the hvcc compiler accepts; the table is
    declared with [Object], outside these files. *)
Variable hvccObjects : list string.

(** The loop that collects the hvcc compatible entries with [push_back]. *)
Definition hvccObjectsFound (found : list (string * bool)) : list (string * bool) :=
  foldl
    (fun hvccObjectsFound object =>
       if bool_decide (object.1 ∈ hvccObjects)
       then hvccObjectsFound ++ [object]
       else hvccObjectsFound)
    [] found.

Definition textEditorTextChanged (e : addr) (w : World) : Outcome World :=
  match currentBox_target w with
  | None => Ok w
  | Some (_, box) =>
      ed ← deref ptr_editor (editors w !! e);
      let currentText := getText ed in
      let p := resized (popup w) in
      let library := objectLibrary box in
      if JString.contains currentText " " then
        (* If there's a space, open arguments panel *)
        let p := set_state ShowingArguments p in
        let found :=
          default [] (Library.getArguments library
                        !! JString.upToFirstOccurrenceOf currentText " " false false) in
        bs ← for_range 0 (Z.min (buttons_size p) (CInt.of_size (List.length found)))
               (fun i bs =>
                  '(type, description, init) ← at_vector found i;
                  update_button i
                    (fun b =>
                       Suggestion.setToggleState false
                         (Suggestion.setInterceptsMouseClicks false false
                            (Suggestion.setText type description false b)))
                    bs)
               (buttons p);
        let p := set_numOptions (CInt.of_size (List.length found)) (set_buttons bs p) in
        bs ← for_range (numOptions p) (buttons_size p)
               (fun i bs =>
                  update_button i
                    (fun b =>
                       Suggestion.setToggleState false
                         (Suggestion.setText "" "" false b))
                    bs)
               (buttons p);
        let p := set_buttons bs p in
        let p := setVisible (negb (numOptions p =? 0)) p in
        let p := set_currentidx 0 p in
        w ← match autoCompleteComponent p with
            | Some ac =>
                let ac := AutoComplete.setSuggestion (editors w) "" ac in
                currentBox_updateBounds
                  (set_popup (set_autoCompleteComponent (Some ac) p) w)
            | None => Ok (set_popup p w)
            end;
        Ok (set_popup (resized (popup w)) w)
      else
        bs ← update_button (currentidx p) (Suggestion.setToggleState true) (buttons p);
        let p := set_buttons bs p in
        (* Update suggestions *)
        let found := Library.autocomplete library currentText in
        (* When hvcc mode is enabled, show only hvcc compatible objects *)
        let found :=
          if JVar.to_bool (hvccMode box) then hvccObjectsFound found else found in
        let p := set_numOptions (CInt.of_size (List.length found)) p in
        (* Apply object name and descriptions to buttons *)
        bs ← for_range 0 (Z.min (buttons_size p) (numOptions p))
               (fun i bs =>
                  '(name, autocomplete) ← at_vector found i;
                  let descriptions := Library.getObjectDescriptions library in
                  update_button i
                    (fun b =>
                       Suggestion.setInterceptsMouseClicks true false
                         match descriptions !! name with
                         | Some description => Suggestion.setText name description true b
                         | None => Suggestion.setText name "" true b
                         end)
                    bs)
               (buttons p);
        let p := set_buttons bs p in
        bs ← for_range (numOptions p) (buttons_size p)
               (fun i bs => update_button i (Suggestion.setText "" "" false) bs)
               (buttons p);
        let p := resized (set_buttons bs p) in
        (* Get length of user-typed text *)
        let textlen := JString.length (getText ed) in
        if bool_decide (found = []) || (textlen =? 0) then
          let p := set_state Hidden p in
          let p :=
            match autoCompleteComponent p with
            | Some ac =>
                set_autoCompleteComponent
                  (Some (AutoComplete.setSuggestion (editors w) "" ac)) p
            | None => p
            end in
          w ← currentBox_updateBounds (set_popup p w);
          Ok (set_popup (setVisible false (popup w)) w)
        else
          (* Limit it to minimum of the number of buttons and the number of
             suggestions *)
          let numButtons := Z.min 20 (numOptions p) in
          i ← match CInt.rem (CInt.add (currentidx p) numButtons) numButtons with
              | Some r => Ok r
              | None => Crash DivisionByZero
              end;
          let p := set_currentidx i p in
          (* Retrieve best suggestion *)
          '(fullName, _) ← at_vector found (currentidx p);
          let p := set_state ShowingObjects p in
          ac ← (if (textlen <? JString.length fullName)
                   && bool_decide (is_Some (autoCompleteComponent p))
                then
                  ac ← deref ptr_autoCompleteComponent (autoCompleteComponent p);
                  Ok (AutoComplete.setSuggestion (editors w) fullName ac)
                else
                  ac ← deref ptr_autoCompleteComponent (autoCompleteComponent p);
                  Ok (AutoComplete.setSuggestion (editors w) "" ac));
          w ← currentBox_updateBounds
                (set_popup (set_autoCompleteComponent (Some ac) p) w);
          Ok (set_popup (setVisible true (popup w)) w)
  end.

(** What can happen to the popup: its own entry points, and, from outside,
    the user editing the text and the deletion of an editor or an object. *)
Inductive Event : Type :=
| EvCreateCalloutBox (object editor : addr)
| EvRemoveCalloutBox
| EvMove (offset setto : Z)
| EvButtonClicked (i : Z)
| EvTextChanged (e : addr)
| EvUserTyped (e : addr) (text : string)
| EvEditorDeleted (e : addr)
| EvObjectDeleted (a : addr).

Definition step (ev : Event) (w : World) : Outcome World :=
  match ev with
  | EvCreateCalloutBox object editor => createCalloutBox object editor w
  | EvRemoveCalloutBox => removeCalloutBox w
  | EvMove offset setto => move offset setto w
  | EvButtonClicked i => buttonClicked i w
  | EvTextChanged e => textEditorTextChanged e w
  | EvUserTyped e text =>
      Ok (set_editors (alter (setText text) e (editors w)) w)
  | EvEditorDeleted e => Ok (set_editors (delete e (editors w)) w)
  | EvObjectDeleted a => Ok (set_objects (delete a (objects w)) w)
  end.

Fixpoint run (evs : list Event) (w : World) : Outcome World :=
  match evs with
  | [] => Ok w
  | ev :: evs => w' ← step ev w; run evs w'
  end.

End TextChanged.

End Popup.

(** ** C++ [float] (IEEE 754 binary32) *)

Module Float32.

Definition prec : Z := 24.
Definition emax : Z := 128.

Definition t : Type := spec_float.

(** [static_cast<float>(z)] for an [int] [z]. *)
Definition of_int (z : Z) : t := binary_normalize prec emax z 0 false.

Definition add : t -> t -> t := SFadd prec emax.
Definition mul : t -> t -> t := SFmul prec emax.
Definition div : t -> t -> t := SFdiv prec emax.
Definition ltb : t -> t -> bool := SFltb.

Definition one : t := of_int 1.

(** [jmin (a, b)] is [b < a ? b : a]. *)
Definition jmin (a b : t) : t := if ltb b a then b else a.

(** The integer part of a finite value, towards zero. *)
Definition truncate (f : t) : option Z :=
  match f with
  | S754_zero _ => Some 0
  | S754_finite s m e => Some (cond_Zopp s (Z.shiftl (Z.pos m) e))
  | S754_infinity _ | S754_nan => None
  end.

Section Conversion.

(** Conversion of a [float] whose integer part does not fit an [int] (or
    that has none) has no result fixed by the language; what the target
    delivers in that case is left open here. *)
Variable unrepresentable : t -> Z.

(** [static_cast<int>(f)], also the implicit conversion of a [float]
    argument to an [int] parameter. *)
Definition to_int (f : t) : Z :=
  match truncate f with
  | Some z =>
      if (CInt.INT_MIN <=? z) && (z <=? CInt.INT_MAX) then z
      else unrepresentable f
  | None => unrepresentable f
  end.

End Conversion.

(** Widening to [double] is exact; narrowing rounds to nearest even. *)
Definition to_double (f : t) : spec_float :=
  match f with
  | S754_finite s m e => binary_round 53 1024 s m e
  | _ => f
  end.

Definition of_double (d : spec_float) : t :=
  match d with
  | S754_finite s m e => binary_round prec emax s m e
  | _ => d
  end.

End Float32.

Module JVarFloat.

(** [var (f)] for a [float] [f] selects the [double] constructor. *)
Definition of_float (f : Float32.t) : JVar.var :=
  JVar.var_double (Float32.to_double f).

(** [static_cast<float>(v)] *)
Definition to_float (v : JVar.var) : Float32.t :=
  match v with
  | JVar.var_void => S754_zero false
  | JVar.var_int z => Float32.of_int z
  | JVar.var_bool b => if b then Float32.one else S754_zero false
  | JVar.var_double d => Float32.of_double d
  end.

End JVarFloat.

(** ** Geometry *)

Record Point : Type := mkPoint { getX : Z; getY : Z }.

Record Rectangle : Type := mkRectangle {
  rectX : Z; rectY : Z; rectWidth : Z; rectHeight : Z
}.

(** [-p] on [Point<int>] *)
Definition Point_neg (p : Point) : Point :=
  mkPoint (CInt.neg (getX p)) (CInt.neg (getY p)).

Definition getPosition (r : Rectangle) : Point := mkPoint (rectX r) (rectY r).

Definition withPosition (p : Point) (r : Rectangle) : Rectangle :=
  mkRectangle (getX p) (getY p) (rectWidth r) (rectHeight r).

(** [getLocalBounds ()] *)
Definition getLocalBounds (r : Rectangle) : Rectangle :=
  mkRectangle 0 0 (rectWidth r) (rectHeight r).

(** ** [PluginMode] *)

Module PluginMode.

(** Which component currently has the canvas as a child. *)
Inductive CanvasParent : Type :=
| NoParent
| ViewportHolder
| PluginModeContent.

(** The canvas with its own viewport.  [viewedComponent] tells whether the
    viewport's viewed component is this canvas (otherwise it is null). *)
Record Canvas : Type := mkCanvas {
  zoomScale : JVar.var;
  locked : JVar.var;
  presentationMode : JVar.var;
  patchWidth : JVar.var;
  patchHeight : JVar.var;
  position : Point;
  canvasOrigin : Point;
  parent : CanvasParent;
  viewedComponent : bool;
  viewportSize : Z * Z;
  scrollBarThickness : Z;
  openInPluginMode : bool
}.

Inductive ConstrainerPtr : Type :=
| nullConstrainer
| editorOwnConstrainer (a : addr)
| pluginModeConstrainer.

Record Peer : Type := mkPeer {
  isFullScreen : bool;
  isMaximised : bool;
  frameTop : Z
}.

(** [postedRestore] is the callback handed to [MessageManager::callAsync],
    by the values it captured. *)
Record Editor : Type := mkEditor {
  constrainer : ConstrainerPtr;
  editorBounds : Rectangle;
  topLevelPosition : Point;
  postedRestore : option (ConstrainerPtr * Rectangle)
}.

Record World : Type := mkWorld {
  canvases : gmap addr Canvas;
  editor : Editor;
  desktopWindow : Peer
}.

Definition titlebarHeight : Z := 40.

(** The view.  [content] holds the bounds of the content component and
    [contentTransform] the factor of the uniform scale set on it;
    [resizer] is the border resizer in the standalone build and the corner
    resizer in the plugin build; [sizeLimits] and [fixedAspectRatio] are
    the arguments last given to [pluginModeConstrainer]. *)
Record t : Type := mk {
  cnv : addr;
  windowBounds : Rectangle;
  originalCanvasScale : Float32.t;
  originalCanvasPos : Point;
  originalLockedMode : bool;
  originalPresentationMode : bool;
  nativeTitleBarHeight : Z;
  titleBar : Rectangle;
  editorButton : Rectangle;
  fullscreenButton : option Rectangle;
  content : Rectangle;
  contentTransform : Float32.t;
  resizer : Rectangle;
  sizeLimits : Z * Z * Z * Z;
  fixedAspectRatio : Float32.t;
  oldEditorConstrainer : ConstrainerPtr;
  isFullscreenKioskMode : bool;
  bounds : Rectangle;
  width : Float32.t;
  height : Float32.t
}.

Definition set_fixedAspectRatio (r : Float32.t) (v : t) : t :=
  mk (cnv v) (windowBounds v) (originalCanvasScale v) (originalCanvasPos v)
     (originalLockedMode v) (originalPresentationMode v)
     (nativeTitleBarHeight v) (titleBar v) (editorButton v)
     (fullscreenButton v) (content v) (contentTransform v) (resizer v)
     (sizeLimits v) r (oldEditorConstrainer v) (isFullscreenKioskMode v)
     (bounds v) (width v) (height v).

Definition set_titleBar (r : Rectangle) (v : t) : t :=
  mk (cnv v) (windowBounds v) (originalCanvasScale v) (originalCanvasPos v)
     (originalLockedMode v) (originalPresentationMode v)
     (nativeTitleBarHeight v) r (editorButton v)
     (fullscreenButton v) (content v) (contentTransform v) (resizer v)
     (sizeLimits v) (fixedAspectRatio v) (oldEditorConstrainer v)
     (isFullscreenKioskMode v) (bounds v) (width v) (height v).

Definition set_editorButton (r : Rectangle) (v : t) : t :=
  mk (cnv v) (windowBounds v) (originalCanvasScale v) (originalCanvasPos v)
     (originalLockedMode v) (originalPresentationMode v)
     (nativeTitleBarHeight v) (titleBar v) r
     (fullscreenButton v) (content v) (contentTransform v) (resizer v)
     (sizeLimits v) (fixedAspectRatio v) (oldEditorConstrainer v)
     (isFullscreenKioskMode v) (bounds v) (width v) (height v).

Definition set_content (r : Rectangle) (v : t) : t :=
  mk (cnv v) (windowBounds v) (originalCanvasScale v) (originalCanvasPos v)
     (originalLockedMode v) (originalPresentationMode v)
     (nativeTitleBarHeight v) (titleBar v) (editorButton v)
     (fullscreenButton v) r (contentTransform v) (resizer v)
     (sizeLimits v) (fixedAspectRatio v) (oldEditorConstrainer v)
     (isFullscreenKioskMode v) (bounds v) (width v) (height v).

Definition set_contentTransform (s : Float32.t) (v : t) : t :=
  mk (cnv v) (windowBounds v) (originalCanvasScale v) (originalCanvasPos v)
     (originalLockedMode v) (originalPresentationMode v)
     (nativeTitleBarHeight v) (titleBar v) (editorButton v)
     (fullscreenButton v) (content v) s (resizer v)
     (sizeLimits v) (fixedAspectRatio v) (oldEditorConstrainer v)
     (isFullscreenKioskMode v) (bounds v) (width v) (height v).

Definition set_resizer (r : Rectangle) (v : t) : t :=
  mk (cnv v) (windowBounds v) (originalCanvasScale v) (originalCanvasPos v)
     (originalLockedMode v) (originalPresentationMode v)
     (nativeTitleBarHeight v) (titleBar v) (editorButton v)
     (fullscreenButton v) (content v) (contentTransform v) r
     (sizeLimits v) (fixedAspectRatio v) (oldEditorConstrainer v)
     (isFullscreenKioskMode v) (bounds v) (width v) (height v).

(** [content.setTopLeftPosition (x, y)] *)
Definition content_setTopLeftPosition (x y : Z) (v : t) : t :=
  set_content (withPosition (mkPoint x y) (content v)) v.

Definition getWidth (v : t) : Z := rectWidth (bounds v).
Definition getHeight (v : t) : Z := rectHeight (bounds v).

Section Model.

(** Build constants: [ProjectInfo::isStandalone] and [JUCE_LINUX]. *)
Variable isStandalone : bool.
Variable JUCE_LINUX : bool.

(** See [Float32.to_int]. *)
Variable unrepresentable : Float32.t -> Z.

(** [getValue<float>] and [getValue<bool>] read a [Value]; they are declared
    outside these files. *)
Variable getValue_float : JVar.var -> Float32.t.
Variable getValue_bool : JVar.var -> bool.

Definition to_int : Float32.t -> Z := Float32.to_int unrepresentable.

(** [viewport->setViewedComponent (nullptr)]: the viewport forgets the
    canvas and removes it from its holder if it is still there. *)
Definition setViewedComponent_null (c : Canvas) : Canvas :=
  mkCanvas (zoomScale c) (locked c) (presentationMode c) (patchWidth c)
    (patchHeight c) (position c) (canvasOrigin c)
    (match parent c with ViewportHolder => NoParent | q => q end)
    false (viewportSize c) (scrollBarThickness c) (openInPluginMode c).

(** [viewport->setViewedComponent (cnv, false)]: the canvas becomes a child
    of the viewport's holder.  The viewport also moves it to its view
    origin; [closePluginMode] assigns the position again afterwards. *)
Definition setViewedComponent_cnv (c : Canvas) : Canvas :=
  if viewedComponent c then c
  else
    mkCanvas (zoomScale c) (locked c) (presentationMode c) (patchWidth c)
      (patchHeight c) (position c) (canvasOrigin c) ViewportHolder
      true (viewportSize c) (scrollBarThickness c) (openInPluginMode c).

(** [PluginMode (Canvas* cnv)].  The member initialisers run first (they
    include [width] and [height]), then the body.  This is the view as the
    constructor's own statements leave it: the [resized ()] and
    [parentSizeChanged ()] calls that the framework makes when
    [editor->setSize] and [setBounds] change a size are not part of it
    ([resized] below is applied separately), and sizes are taken as given,
    without the framework's clamping of negative ones.  Listeners of
    [zoomScale] are outside these files. *)
Definition create (a : addr) (w : World) : Outcome (t * World) :=
  c ← deref ptr_canvas (canvases w !! a);
  let ed := editor w in
  let windowBounds := withPosition (topLevelPosition ed) (editorBounds ed) in
  let width := Float32.add (JVarFloat.to_float (patchWidth c)) Float32.one in
  let height := Float32.add (JVarFloat.to_float (patchHeight c)) Float32.one in
  (* Save original canvas properties *)
  let originalCanvasScale := getValue_float (zoomScale c) in
  let originalCanvasPos := position c in
  let originalLockedMode := getValue_bool (locked c) in
  let originalPresentationMode := getValue_bool (presentationMode c) in
  (* Set zoom value and update synchronously *)
  let zoomScale' := JVarFloat.of_float Float32.one in
  let nativeTitleBarHeight :=
    if isStandalone then frameTop (desktopWindow w) else 0 in
  (* Titlebar *)
  let titleBar := mkRectangle 0 0 (to_int width) titlebarHeight in
  let editorButton :=
    mkRectangle (CInt.sub 0 titlebarHeight) 0 titlebarHeight titlebarHeight in
  let fullscreenButton :=
    if isStandalone then Some (mkRectangle 0 0 titlebarHeight titlebarHeight)
    else None in
  (* Viewed Content (canvas) *)
  let content := mkRectangle 0 titlebarHeight (to_int width) (to_int height) in
  let parent' := PluginModeContent in
  let viewportSize' :=
    (to_int (Float32.add width (Float32.of_int (scrollBarThickness c))),
     to_int (Float32.add height (Float32.of_int (scrollBarThickness c)))) in
  let c' :=
    setViewedComponent_null
      (mkCanvas zoomScale' (JVar.var_bool true) (JVar.var_bool true)
         (patchWidth c) (patchHeight c) (position c) (canvasOrigin c)
         parent' (viewedComponent c) viewportSize' (scrollBarThickness c)
         (openInPluginMode c)) in
  let c' :=
    mkCanvas (zoomScale c') (locked c') (presentationMode c') (patchWidth c')
      (patchHeight c') (Point_neg (canvasOrigin c')) (canvasOrigin c')
      (parent c') (viewedComponent c') (viewportSize c')
      (scrollBarThickness c') (openInPluginMode c') in
  (* Store old constrainers so we can restore them later *)
  let oldEditorConstrainer := constrainer ed in
  let sizeLimits :=
    (to_int (Float32.div width (Float32.of_int 2)),
     to_int (Float32.add (Float32.div height (Float32.of_int 2))
               (Float32.of_int titlebarHeight)),
     to_int (Float32.mul width (Float32.of_int 10)),
     to_int (Float32.add (Float32.mul height (Float32.of_int 10))
               (Float32.of_int titlebarHeight))) in
  (* Set editor bounds, set local bounds *)
  let heightWithTitlebar :=
    to_int (Float32.add height (Float32.of_int titlebarHeight)) in
  let ed' :=
    mkEditor pluginModeConstrainer
      (mkRectangle (rectX (editorBounds ed)) (rectY (editorBounds ed))
         (to_int width) heightWithTitlebar)
      (topLevelPosition ed) (postedRestore ed) in
  let view :=
    {| cnv := a;
       windowBounds := windowBounds;
       originalCanvasScale := originalCanvasScale;
       originalCanvasPos := originalCanvasPos;
       originalLockedMode := originalLockedMode;
       originalPresentationMode := originalPresentationMode;
       nativeTitleBarHeight := nativeTitleBarHeight;
       titleBar := titleBar;
       editorButton := editorButton;
       fullscreenButton := fullscreenButton;
       content := content;
       contentTransform := Float32.one;
       resizer := mkRectangle 0 0 0 0;
       sizeLimits := sizeLimits;
       fixedAspectRatio := S754_zero false;
       oldEditorConstrainer := oldEditorConstrainer;
       isFullscreenKioskMode := false;
       bounds := mkRectangle 0 0 (to_int width) heightWithTitlebar;
       width := width;
       height := height |} in
  Ok (view, mkWorld (<[a := c']> (canvases w)) ed' (desktopWindow w)).

(** [closePluginMode ()]; the view is destroyed at its end, so only the
    world is returned. *)
Definition closePluginMode (v : t) (w : World) : World :=
  let canvases' :=
    match canvases w !! cnv v with
    | Some c =>
        (* content.removeChildComponent (cnv) *)
        let c :=
          mkCanvas (zoomScale c) (locked c) (presentationMode c)
            (patchWidth c) (patchHeight c) (position c) (canvasOrigin c)
            (match parent c with PluginModeContent => NoParent | q => q end)
            (viewedComponent c) (viewportSize c) (scrollBarThickness c)
            (openInPluginMode c) in
        (* Reset the canvas properties to before plugin mode was entered *)
        let c := setViewedComponent_cnv c in
        let c :=
          mkCanvas (JVarFloat.of_float (originalCanvasScale v))
            (JVar.var_bool (originalLockedMode v))
            (JVar.var_bool (originalPresentationMode v))
            (patchWidth c) (patchHeight c) (originalCanvasPos v)
            (canvasOrigin c) (parent c) (viewedComponent c) (viewportSize c)
            (scrollBarThickness c) false in
        <[cnv v := c]> (canvases w)
    | None => canvases w
    end in
  let ed := editor w in
  let ed' :=
    mkEditor (constrainer ed) (editorBounds ed) (topLevelPosition ed)
      (Some (oldEditorConstrainer v, windowBounds v)) in
  mkWorld canvases' ed' (desktopWindow w).

Definition isWindowFullscreen (v : t) (w : World) : bool :=
  if JUCE_LINUX then
    if isFullscreenKioskMode v then true else isMaximised (desktopWindow w)
  else isFullScreen (desktopWindow w).

Definition resized (w : World) (v : t) : t :=
  let controlsHeight :=
    Float32.of_int
      (if isWindowFullscreen v w then 0
       else CInt.add titlebarHeight (nativeTitleBarHeight v)) in
  let scale := Float32.div (Float32.of_int (getWidth v)) (width v) in
  let resizeRatio :=
    Float32.div (width v)
      (Float32.add (height v) (Float32.div controlsHeight scale)) in
  let v := set_fixedAspectRatio resizeRatio v in
  if isStandalone && isWindowFullscreen v w then
    (* Calculate the scale factor required to fit the editor in the screen *)
    let scaleX := Float32.div (Float32.of_int (getWidth v)) (width v) in
    let scaleY := Float32.div (Float32.of_int (getHeight v)) (height v) in
    let scale := Float32.jmin scaleX scaleY in
    (* Calculate the position of the editor after scaling *)
    let scaledWidth := to_int (Float32.mul (width v) scale) in
    let scaledHeight := to_int (Float32.mul (height v) scale) in
    let x := Z.quot (CInt.sub (getWidth v) scaledWidth) 2 in
    let y := Z.quot (CInt.sub (getHeight v) scaledHeight) 2 in
    (* Apply the scale and position to the editor *)
    let v := set_contentTransform scale v in
    let v :=
      content_setTopLeftPosition
        (to_int (Float32.div (Float32.of_int x) scale))
        (to_int (Float32.div (Float32.of_int y) scale)) v in
    (* Hide titlebar *)
    set_titleBar (mkRectangle 0 0 0 0) v
  else
    let v :=
      if isStandalone then set_resizer (getLocalBounds (bounds v)) v
      else
        let resizerSize := 18 in
        set_resizer
          (mkRectangle (CInt.sub (getWidth v) resizerSize)
             (CInt.sub (getHeight v) resizerSize) resizerSize resizerSize) v in
    let v := set_contentTransform scale v in
    let v :=
      content_setTopLeftPosition 0
        (to_int (Float32.div (Float32.of_int titlebarHeight) scale)) v in
    let v := set_titleBar (mkRectangle 0 0 (getWidth v) titlebarHeight) v in
    set_editorButton
      (mkRectangle (CInt.sub (rectWidth (titleBar v)) titlebarHeight) 0
         titlebarHeight titlebarHeight) v.

End Model.

End PluginMode.

(** ** The rest of [SuggestionComponent]: text, keys and row layout *)

Module PopupUi.

(** [getText ()]: what the editor would hold if the completion were
    accepted. *)
Definition getText (w : Popup.World) : string :=
  match Popup.autoCompleteComponent (Popup.popup w) with
  | Some ac => AutoComplete.getSuggestion (Popup.editors w) ac
  | None => EmptyString
  end.

(** The keys [keyPressed] tells apart. *)
Inductive KeyPress : Type :=
| rightKey
| leftKey
| tabKey
| upKey
| downKey
| otherKey.

Definition KeyPress_eqb (a b : KeyPress) : bool :=
  match a, b with
  | rightKey, rightKey | leftKey, leftKey | tabKey, tabKey
  | upKey, upKey | downKey, downKey | otherKey, otherKey => true
  | _, _ => false
  end.

(** [Range<int>]: the editor's highlighted region. *)
Record Range : Type := mkRange { getStart : Z; getEnd : Z }.

Definition Range_isEmpty (r : Range) : bool := getStart r =? getEnd r.

(** What a key press leaves: the return value, the world, and the argument
    of [setCaretPosition] when the editor's caret was moved. *)
Record KeyResult : Type := mkKeyResult {
  consumed : bool;
  world : Popup.World;
  caretPosition : option Z
}.

(** [openedEditor->getHighlightedRegion ()]; the region itself is the
    editor's and is passed in. *)
Definition openedEditor_getHighlightedRegion (highlightedRegion : Range)
    (w : Popup.World) : Outcome Range :=
  _ ← deref ptr_openedEditor
        (e ← Popup.openedEditor (Popup.popup w); Popup.editors w !! e);
  Ok highlightedRegion.

Definition SugesstionState_eqb (a b : Popup.SugesstionState) : bool :=
  match a, b with
  | Popup.Hidden, Popup.Hidden
  | Popup.ShowingObjects, Popup.ShowingObjects
  | Popup.ShowingArguments, Popup.ShowingArguments => true
  | _, _ => false
  end.

(** [key == k && !openedEditor->getHighlightedRegion ().isEmpty ()]: the
    editor is only asked when the key is [k]. *)
Definition key_with_highlight (key k : KeyPress) (highlightedRegion : Range)
    (w : Popup.World) : Outcome bool :=
  if KeyPress_eqb key k then
    r ← openedEditor_getHighlightedRegion highlightedRegion w;
    Ok (negb (Range_isEmpty r))
  else Ok false.

Definition keyPressed (key : KeyPress) (highlightedRegion : Range)
    (w : Popup.World) : Outcome KeyResult :=
  match Popup.currentBox_target w with
  | None => Ok (mkKeyResult false w None)
  | Some _ =>
      let overlay := Popup.autoCompleteComponent (Popup.popup w) in
      let autocomplete (ac : AutoComplete.t) :=
        Popup.set_editors (AutoComplete.autocomplete (Popup.editors w) ac) w in
      key_with_highlight key rightKey highlightedRegion w ≫= fun c : bool =>
      if c then Ok (mkKeyResult true w (Some (getEnd highlightedRegion)))
      else
        match (if KeyPress_eqb key rightKey then overlay else None) with
        | Some ac => Ok (mkKeyResult true (autocomplete ac) None)
        | None =>
            key_with_highlight key leftKey highlightedRegion w
            ≫= fun c : bool =>
            if c then Ok (mkKeyResult true w (Some (getStart highlightedRegion)))
            else
              match (if KeyPress_eqb key tabKey then overlay else None) with
              | Some ac => Ok (mkKeyResult true (autocomplete ac) None)
              | None =>
                  if negb (SugesstionState_eqb (Popup.state (Popup.popup w))
                             Popup.ShowingObjects)
                  then Ok (mkKeyResult false w None)
                  else if KeyPress_eqb key upKey || KeyPress_eqb key downKey
                  then
                    w' ← Popup.move
                           (if KeyPress_eqb key downKey then 1 else -1) (-1) w;
                    Ok (mkKeyResult true w' None)
                  else Ok (mkKeyResult false w None)
              end
        end
  end.

(** [resized ()], the bounds it gives to the button holder and to row
    [i], for a popup [getWidth] wide. *)
Definition buttonholder_bounds (getWidth : Z) (p : Popup.t) : Rectangle :=
  mkRectangle 6 0 getWidth
    (CInt.add (CInt.mul (Z.min (Popup.numOptions p) 20) 25) 8).

Definition button_bounds (getWidth : Z) (i : Z) : Rectangle :=
  mkRectangle 2 (CInt.add (CInt.mul i 25) 4) (CInt.sub getWidth 4) 24.

(** [resizer.setBounds (...)] with [resizerSize = 12]. *)
Definition resizer_bounds (getWidth getHeight : Z) : Rectangle :=
  mkRectangle (CInt.sub getWidth (12 + 1)) (CInt.sub getHeight (12 + 1)) 12 12.

Section Events.

Variable hvccObjects : list string.

(** What the framework and the user can make happen: the callout box is
    created or removed, a key reaches [keyPressed], a row is clicked (its
    [onClick] calls [move (0, i)]; the focus calls that follow change no
    modelled field), a text change is delivered, and, from outside, text
    is typed and editors or objects are deleted. *)
Inductive Event : Type :=
| UiCreateCalloutBox (object editor : addr)
| UiRemoveCalloutBox
| UiKeyPressed (key : KeyPress) (highlightedRegion : Range)
| UiButtonClicked (i : Z)
| UiTextChanged (e : addr)
| UiUserTyped (e : addr) (text : string)
| UiEditorDeleted (e : addr)
| UiObjectDeleted (a : addr).

Definition step (ev : Event) (w : Popup.World) : Outcome Popup.World :=
  match ev with
  | UiCreateCalloutBox object editor => Popup.createCalloutBox object editor w
  | UiRemoveCalloutBox => Popup.removeCalloutBox w
  | UiKeyPressed key highlightedRegion =>
      r ← keyPressed key highlightedRegion w; Ok (world r)
  | UiButtonClicked i => Popup.buttonClicked i w
  | UiTextChanged e => Popup.textEditorTextChanged hvccObjects e w
  | UiUserTyped e text =>
      Ok (Popup.set_editors (alter (setText text) e (Popup.editors w)) w)
  | UiEditorDeleted e => Ok (Popup.set_editors (delete e (Popup.editors w)) w)
  | UiObjectDeleted a => Ok (Popup.set_objects (delete a (Popup.objects w)) w)
  end.

Fixpoint run (evs : list Event) (w : Popup.World) : Outcome Popup.World :=
  match evs with
  | [] => Ok w
  | ev :: evs => w' ← step ev w; run evs w'
  end.

End Events.

End PopupUi.

(** * Specification vocabulary and sample data *)

(** [first_match ic sub s i]: [i] is the first position of [s] at which
    [sub] matches, letter case ignored when [ic] is set. *)
Definition first_match (ic : bool) (sub s : string) (i : nat) : Prop :=
  JString.startsWith ic sub (JString.dropChars i s) = true /\
  forall j, (j < i)%nat ->
    JString.startsWith ic sub (JString.dropChars j s) = false.

(** What the loop [for (i = lo; i < lo + n; i++) buttons[i]->...] leaves in
    the array when iteration [k] applies [f k] to button [k]. *)
Definition apply_from (f : nat -> Suggestion.t -> Suggestion.t)
    (lo n : nat) (bs : list Suggestion.t) : list Suggestion.t :=
  imap (fun k b => if decide (lo <= k < lo + n)%nat then f k b else b) bs.

(** An editor in which the user has typed a lower-case "e". *)
Definition editors_typed_e : gmap addr TextEditor :=
  {[ 1%positive := mkTextEditor "e" ]}.

(** An editor in which the user has typed "me". *)
Definition editors_typed_me : gmap addr TextEditor :=
  {[ 1%positive := mkTextEditor "me" ]}.

(** What the argument loop writes into row [k]. *)
Definition argument_row (found : list Library.Argument) (k : nat)
    (b : Suggestion.t) : Suggestion.t :=
  match found !! k with
  | Some (type, description, _) =>
      Suggestion.setToggleState false
        (Suggestion.setInterceptsMouseClicks false false
           (Suggestion.setText type description false b))
  | None => b
  end.

Definition blank_row_untoggled (k : nat) (b : Suggestion.t) : Suggestion.t :=
  Suggestion.setToggleState false (Suggestion.setText "" "" false b).

(** What the object loop writes into row [k]. *)
Definition object_row (library : Library.t) (found : list (string * bool))
    (k : nat) (b : Suggestion.t) : Suggestion.t :=
  match found !! k with
  | Some (name, _) =>
      Suggestion.setInterceptsMouseClicks true false
        match Library.getObjectDescriptions library !! name with
        | Some description => Suggestion.setText name description true b
        | None => Suggestion.setText name "" true b
        end
  | None => b
  end.

Definition blank_row (k : nat) (b : Suggestion.t) : Suggestion.t :=
  Suggestion.setText "" "" false b.

(** The list of objects the handler works from: the library's matches,
    restricted to the hvcc table when hvcc mode is on. *)
Definition objects_found (hvccObjects : list string) (box : Object)
    (text : string) : list (string * bool) :=
  if JVar.to_bool (hvccMode box)
  then Popup.hvccObjectsFound hvccObjects
         (Library.autocomplete (objectLibrary box) text)
  else Library.autocomplete (objectLibrary box) text.

(** The arguments listed for the object named before the first space. *)
Definition arguments_found (box : Object) (text : string)
  : list Library.Argument :=
  default [] (Library.getArguments (objectLibrary box)
                !! JString.upToFirstOccurrenceOf text " " false false).

(** A row presenting an argument: its type with its description, no icon. *)
Definition shows_argument (b : Suggestion.t) (arg : Library.Argument) : Prop :=
  Suggestion.buttonText b = arg.1.1 /\
  Suggestion.objectDescription b = arg.1.2 /\
  Suggestion.drawIcon b = false.

(** A row presenting an object: its name with the library's description of
    it when there is one, and an icon. *)
Definition shows_object (library : Library.t) (b : Suggestion.t)
    (entry : string * bool) : Prop :=
  Suggestion.buttonText b = entry.1 /\
  Suggestion.objectDescription b
  = default EmptyString (Library.getObjectDescriptions library !! entry.1) /\
  Suggestion.drawIcon b = true.

Definition is_blank (b : Suggestion.t) : Prop :=
  Suggestion.buttonText b = EmptyString /\
  Suggestion.objectDescription b = EmptyString.

(** Row [i] presents entry [i] as far as there are entries, and the rows
    after the last entry are blank. *)
Definition rows_show {A : Type} (R : Suggestion.t -> A -> Prop)
    (bs : list Suggestion.t) (found : list A) : Prop :=
  forall i b, bs !! i = Some b ->
    match found !! i with
    | Some x => R b x
    | None => is_blank b
    end.

(** The names on the rows that lie inside the button holder, whose height
    [resized] sets to [min (numOptions, 20)] rows. *)
Definition displayed_names (p : Popup.t) : list string :=
  take (Z.to_nat (Z.min (Popup.numOptions p) 20))
    (Suggestion.buttonText <$> Popup.buttons p).

Definition state_after (o : Outcome Popup.World) : option Popup.SugesstionState :=
  match o with
  | Ok w => Some (Popup.state (Popup.popup w))
  | Crash _ => None
  end.

Definition popup_after (o : Outcome Popup.World) : option Popup.t :=
  match o with
  | Ok w => Some (Popup.popup w)
  | Crash _ => None
  end.

(** A small library: two objects match "me", one matches "fo". *)
Definition sample_library : Library.t :=
  Library.mk
    (fun text =>
       if String.eqb text "me" then [("metro", true); ("metro~", true)]
       else if String.eqb text "fo" then [("foo~", true)]
       else [])
    {[ "metro" := [("float", "interval in ms", "0")] ]}
    {[ "metro" := "Metronome" ]}.

(** The popup as [createCalloutBox] leaves it for object 7 and editor 1. *)
Definition opened_popup : Popup.t :=
  Popup.set_autoCompleteComponent (Some (AutoComplete.create 1%positive))
    (Popup.set_isOnDesktop true
       (Popup.set_openedEditor (Some 1%positive)
          (Popup.set_currentBox (Some 7%positive) Popup.create))).

(** An opened box whose editor holds [text]; [hvcc] is the hvcc mode. *)
Definition sample_world (library : Library.t) (hvcc : bool) (text : string)
  : Popup.World :=
  Popup.mkWorld {[ 1%positive := mkTextEditor text ]}
    {[ 7%positive := mkObject library (JVar.var_bool hvcc) 0 ]}
    opened_popup.

(** The same, with the overlay pointer null. *)
Definition world_without_overlay (text : string) : Popup.World :=
  Popup.set_popup (Popup.set_autoCompleteComponent None opened_popup)
    (sample_world sample_library false text).

(** Twenty-one distinct names, "x", "xx", ... *)
Definition twenty_one_objects : list (string * bool) :=
  (fun n => (string_of_list_ascii (repeat "x"%char (S n)), true)) <$> seq 0 21.

Definition crowded_library : Library.t :=
  Library.mk (fun _ => twenty_one_objects) ∅ ∅.

(** The names of [twenty_one_objects], used as the hvcc table. *)
Definition twenty_one_names : list string := fst <$> twenty_one_objects.

Definition never_divides_by_zero {A : Type} (o : Outcome A) : Prop :=
  o <> Crash DivisionByZero.

(** A run of up and down key presses: [keyPressed] calls [move (1)] for the
    down key and [move (-1)] for the up key. *)
Definition navigation (offsets : list Z) : list Popup.Event :=
  (fun offset => Popup.EvMove offset (-1)) <$> offsets.

Definition total_offset (offsets : list Z) : Z := foldr Z.add 0 offsets.

(** What [move] relies on and keeps: an editor is opened, there is at least
    one suggestion, the selected row is one of the rows in use, and the box
    is alive while the overlay exists. *)
Definition navigable (w : Popup.World) : Prop :=
  is_Some (Popup.openedEditor (Popup.popup w)) /\
  1 <= Popup.numOptions (Popup.popup w) /\
  List.length (Popup.buttons (Popup.popup w)) = 20%nat /\
  0 <= Popup.currentidx (Popup.popup w)
    < Z.min 20 (Popup.numOptions (Popup.popup w)) /\
  (is_Some (Popup.autoCompleteComponent (Popup.popup w)) ->
   is_Some (Popup.currentBox_target w)).

(** The sample box once two suggestions are on offer. *)
Definition world_with_two_suggestions : Popup.World :=
  Popup.set_popup (Popup.set_numOptions 2 opened_popup)
    (sample_world sample_library false "me").

(** Conversion of an unrepresentable [float] as x86-64 performs it. *)
Definition x86_unrepresentable : Float32.t -> Z := fun _ => CInt.INT_MIN.

(** A canvas zoomed to 1.5, unlocked, of a 399 by 299 patch, shown by its
    viewport at (-120, -80). *)
Definition sample_canvas : PluginMode.Canvas :=
  PluginMode.mkCanvas
    (JVar.var_double
       (Float32.to_double (Float32.div (Float32.of_int 3) (Float32.of_int 2))))
    (JVar.var_bool false) (JVar.var_int 0) (JVar.var_int 399)
    (JVar.var_int 299) (mkPoint (-120) (-80)) (mkPoint 5000 4000)
    PluginMode.ViewportHolder true (700, 500) 8 true.

Definition sample_plugin_world (fullScreen : bool) : PluginMode.World :=
  PluginMode.mkWorld {[ 3%positive := sample_canvas ]}
    (PluginMode.mkEditor (PluginMode.editorOwnConstrainer 9%positive)
       (mkRectangle 0 0 1000 800) (mkPoint 50 60) None)
    (PluginMode.mkPeer fullScreen false 28).

(** The view of a 400 by 300 patch stretched over a 1920 by 1080 screen. *)
Definition fullscreen_view : PluginMode.t :=
  {| PluginMode.cnv := 3%positive;
     PluginMode.windowBounds := mkRectangle 50 60 1000 800;
     PluginMode.originalCanvasScale := Float32.one;
     PluginMode.originalCanvasPos := mkPoint (-120) (-80);
     PluginMode.originalLockedMode := false;
     PluginMode.originalPresentationMode := false;
     PluginMode.nativeTitleBarHeight := 28;
     PluginMode.titleBar := mkRectangle 0 0 400 40;
     PluginMode.editorButton := mkRectangle 360 0 40 40;
     PluginMode.fullscreenButton := Some (mkRectangle 0 0 40 40);
     PluginMode.content := mkRectangle 0 40 400 300;
     PluginMode.contentTransform := Float32.one;
     PluginMode.resizer := mkRectangle 0 0 400 340;
     PluginMode.sizeLimits := (200, 190, 4000, 3040);
     PluginMode.fixedAspectRatio := S754_zero false;
     PluginMode.oldEditorConstrainer :=
       PluginMode.editorOwnConstrainer 9%positive;
     PluginMode.isFullscreenKioskMode := true;
     PluginMode.bounds := mkRectangle 0 0 1920 1080;
     PluginMode.width := Float32.of_int 400;
     PluginMode.height := Float32.of_int 300 |}.

(** The lists a library hands out are short enough for
    [static_cast<int> (found.size ())] to keep their length. *)
Definition library_fits (library : Library.t) : Prop :=
  (forall text,
     Z.of_nat (List.length (Library.autocomplete library text))
     <= CInt.INT_MAX) /\
  (forall name args,
     Library.getArguments library !! name = Some args ->
     Z.of_nat (List.length args) <= CInt.INT_MAX).

Definition libraries_fit (objects : gmap addr Object) : Prop :=
  forall a o, objects !! a = Some o -> library_fits (objectLibrary o).


(** What the popup keeps true of itself between events. *)
Definition ui_invariant (w : Popup.World) : Prop :=
  List.length (Popup.buttons (Popup.popup w)) = 20%nat /\
  0 <= Popup.currentidx (Popup.popup w) < 20 /\
  0 <= Popup.numOptions (Popup.popup w) /\
  (Popup.state (Popup.popup w) = Popup.ShowingObjects ->
   Popup.currentidx (Popup.popup w) < Popup.numOptions (Popup.popup w)) /\
  (is_Some (Popup.currentBox (Popup.popup w)) ->
   is_Some (Popup.autoCompleteComponent (Popup.popup w))) /\
  libraries_fit (Popup.objects w).





(** The overlay exists whenever a box is set: [createCalloutBox] sets both
    pointers and [removeCalloutBox] clears both. *)
Definition overlay_with_box (w : Popup.World) : Prop :=
  is_Some (Popup.currentBox (Popup.popup w)) ->
  is_Some (Popup.autoCompleteComponent (Popup.popup w)).

(** [avoids f o]: the outcome [o] is not the fault [f]. *)
Definition avoids {A : Type} (f : Fault) (o : Outcome A) : Prop :=
  o <> Crash f.

(** A library whose only match for any text is "me". *)
Definition exact_match_library : Library.t :=
  Library.mk (fun _ => [("me"%string, true)]) ∅ ∅.

(** A new popup beside one editor holding "me" and one object of that
    library. *)
Definition exact_match_world : Popup.World :=
  Popup.mkWorld {[ 1%positive := mkTextEditor "me" ]}
    {[ 7%positive := mkObject exact_match_library (JVar.var_bool false) 0 ]}
    Popup.create.

(** * Properties *)

(** ** Integers *)

Lemma wrap_in_range (z : Z) :
  CInt.INT_MIN <= z <= CInt.INT_MAX -> CInt.wrap z = z.
Proof.
  unfold CInt.INT_MIN, CInt.INT_MAX, CInt.wrap. intros H.
  rewrite Z.mod_small; lia.
Qed.

Lemma of_size_in_range (n : nat) :
  Z.of_nat n <= CInt.INT_MAX -> CInt.of_size n = Z.of_nat n.
Proof.
  intros H. apply wrap_in_range. unfold CInt.INT_MIN. lia.
Qed.

(** ** Strings *)

Lemma String_eqb_false_iff (a b : string) : String.eqb a b = false <-> a <> b.
Proof.
  destruct (String.eqb_spec a b) as [->|Hne]; split; intros; congruence.
Qed.

Lemma isNotEmpty_true_iff (s : string) :
  JString.isNotEmpty s = true <-> s <> EmptyString.
Proof. destruct s; simpl; split; intros; congruence. Qed.

(** [indexOf] returns the first position at which [sub] matches. *)
Lemma indexOf_first (ic : bool) (sub s : string) (i : nat) :
  JString.indexOf ic sub s = Some i ->
  JString.startsWith ic sub (JString.dropChars i s) = true /\
  forall j, (j < i)%nat ->
    JString.startsWith ic sub (JString.dropChars j s) = false.
Proof.
  revert i. induction s as [|c s IH]; intros i; simpl.
  - destruct (JString.startsWith ic sub "") eqn:E; [|discriminate].
    intros [= <-]. split; [exact E | intros j Hj; lia].
  - destruct (JString.startsWith ic sub (String c s)) eqn:E.
    + intros [= <-]. split; [exact E | intros j Hj; lia].
    + destruct (JString.indexOf ic sub s) as [k|] eqn:Ek; [|discriminate].
      simpl. intros [= <-]. destruct (IH k eq_refl) as [Hk Hlt].
      split; [exact Hk|]. intros [|j] Hj; simpl; [exact E|].
      apply Hlt. lia.
Qed.

(** When nothing matches, no position does. *)
Lemma indexOf_none (ic : bool) (sub s : string) :
  JString.indexOf ic sub s = None ->
  forall j, JString.startsWith ic sub (JString.dropChars j s) = false.
Proof.
  induction s as [|c s IH]; simpl.
  - destruct (JString.startsWith ic sub "") eqn:E; [discriminate|].
    intros _ [|j]; exact E.
  - destruct (JString.startsWith ic sub (String c s)) eqn:E; [discriminate|].
    destruct (JString.indexOf ic sub s) eqn:Ek; [discriminate|].
    intros _ [|j]; simpl; [exact E | apply IH; reflexivity].
Qed.

Lemma startsWith_exact_ignoreCase (p s : string) :
  JString.startsWith false p s = true -> JString.startsWith true p s = true.
Proof.
  revert s. induction p as [|a p IH]; intros [|b s]; simpl; try congruence.
  unfold JString.equalsChar. intros H. apply andb_prop in H as [Hab Hp].
  apply Ascii.eqb_eq in Hab. subst b. rewrite Ascii.eqb_refl. simpl.
  apply IH, Hp.
Qed.

Lemma startsWith_exact_app (p s : string) :
  JString.startsWith false p s = true ->
  (p ++ JString.dropChars (String.length p) s)%string = s.
Proof.
  revert s. induction p as [|a p IH]; intros [|b s]; simpl; try discriminate;
    try reflexivity.
  unfold JString.equalsChar. intros H. apply andb_prop in H as [Hab Hp].
  apply Ascii.eqb_eq in Hab. subst b.
  change (String a (p ++ JString.dropChars (String.length p) s)%string
          = String a s).
  f_equal. apply IH, Hp.
Qed.

Lemma first_match_indexOf (ic : bool) (sub s : string) (i : nat) :
  first_match ic sub s i <-> JString.indexOf ic sub s = Some i.
Proof.
  split; [|apply indexOf_first].
  intros [Hi Hlt]. destruct (JString.indexOf ic sub s) as [k|] eqn:Ek.
  - destruct (indexOf_first _ _ _ _ Ek) as [Hk Hltk]. f_equal.
    destruct (Nat.lt_trichotomy k i) as [Hlt'|[->|Hgt]]; [|reflexivity|].
    + rewrite (Hlt k Hlt') in Hk. discriminate.
    + rewrite (Hltk i Hgt) in Hi. discriminate.
  - rewrite (indexOf_none _ _ _ Ek i) in Hi. discriminate.
Qed.

(** ** The inline completion overlay *)

(** C5, as described: the stored remainder would be what follows the first
    place where the typed prefix itself occurs.  With "e" typed and "Else"
    suggested the prefix occurs at the last letter and nothing follows it,
    but the overlay stores "lse". *)
Lemma setSuggestion_remainder_ignores_case :
  AutoComplete.suggestion
    (AutoComplete.setSuggestion editors_typed_e "Else"
       (AutoComplete.create 1%positive)) = "lse" /\
  AutoComplete.remainder_after_typed_prefix "Else" "e" = "" /\
  AutoComplete.suggestion
    (AutoComplete.setSuggestion editors_typed_e "Else"
       (AutoComplete.create 1%positive))
  <> AutoComplete.remainder_after_typed_prefix "Else" "e".
Proof. repeat split; try reflexivity. vm_compute. discriminate. Qed.

(** C5 (amended): while the editor exists, [setSuggestion] makes the
    overlay visible exactly when the suggestion is non-empty and differs
    from the editor's text up to the first space; the stored remainder is
    the suggestion text after the first position at which that typed prefix
    matches with letter case ignored, and empty when it matches nowhere;
    [getSuggestion] returns the editor text followed by the remainder and
    [autocomplete] sets the editor's text to that concatenation. *)
Theorem setSuggestion_overlay_and_remainder
    (editors : gmap addr TextEditor) (ac : AutoComplete.t) (ed : TextEditor)
    (suggestionText : string) :
  editors !! AutoComplete.editor ac = Some ed ->
  let typed := JString.upToFirstOccurrenceOf (getText ed) " " false false in
  let ac' := AutoComplete.setSuggestion editors suggestionText ac in
  (AutoComplete.isVisible ac' = true <->
     suggestionText <> EmptyString /\ typed <> suggestionText) /\
  (forall i, first_match true typed suggestionText i ->
     AutoComplete.suggestion ac'
     = JString.dropChars (i + String.length typed) suggestionText) /\
  ((forall i, ~ first_match true typed suggestionText i) ->
     AutoComplete.suggestion ac' = EmptyString) /\
  AutoComplete.getSuggestion editors ac'
  = (getText ed ++ AutoComplete.suggestion ac')%string /\
  AutoComplete.autocomplete editors ac'
  = <[AutoComplete.editor ac :=
        mkTextEditor (getText ed ++ AutoComplete.suggestion ac')%string]> editors.
Proof.
  intros Hed typed ac'.
  assert (Hac' : ac' =
    AutoComplete.mk
      (JString.fromFirstOccurrenceOf suggestionText typed false true)
      (AutoComplete.editor ac)
      (JString.isNotEmpty suggestionText
       && negb (String.eqb typed suggestionText))).
  { unfold ac', AutoComplete.setSuggestion. rewrite Hed. reflexivity. }
  clearbody ac'. subst ac'. simpl.
  split; [|split; [|split; [|split]]].
  - rewrite andb_true_iff, negb_true_iff, isNotEmpty_true_iff,
      String_eqb_false_iff. reflexivity.
  - intros i Hi. apply first_match_indexOf in Hi.
    unfold JString.fromFirstOccurrenceOf. rewrite Hi. reflexivity.
  - intros Hnone. unfold JString.fromFirstOccurrenceOf.
    destruct (JString.indexOf true typed suggestionText) as [k|] eqn:Ek;
      [|reflexivity].
    exfalso. apply (Hnone k), first_match_indexOf, Ek.
  - unfold AutoComplete.getSuggestion. simpl. rewrite Hed. reflexivity.
  - unfold AutoComplete.autocomplete. simpl. rewrite Hed. reflexivity.
Qed.

Lemma setSuggestion_overlay_and_remainder_witness :
  editors_typed_me !! AutoComplete.editor (AutoComplete.create 1%positive)
  = Some (mkTextEditor "me") /\
  AutoComplete.suggestion
    (AutoComplete.setSuggestion editors_typed_me "Metro"
       (AutoComplete.create 1%positive)) = "tro".
Proof.
  split; [reflexivity|].
  pose proof (setSuggestion_overlay_and_remainder editors_typed_me
                (AutoComplete.create 1%positive) (mkTextEditor "me") "Metro"
                eq_refl) as (_ & H & _).
  apply (H 0%nat). split; [reflexivity | intros j Hj; lia].
Defined.

(** When the typed prefix is literally the start of the suggestion, the
    typed text and the remainder spell the suggestion. *)
Lemma setSuggestion_completes_prefix
    (editors : gmap addr TextEditor) (ac : AutoComplete.t) (ed : TextEditor)
    (suggestionText : string) :
  editors !! AutoComplete.editor ac = Some ed ->
  JString.contains (getText ed) " " = false ->
  JString.startsWith false (getText ed) suggestionText = true ->
  AutoComplete.getSuggestion editors
    (AutoComplete.setSuggestion editors suggestionText ac) = suggestionText.
Proof.
  intros Hed Hsp Hpre.
  unfold AutoComplete.getSuggestion, AutoComplete.setSuggestion.
  rewrite Hed. simpl. rewrite Hed.
  assert (Hup : JString.upToFirstOccurrenceOf (getText ed) " " false false
                = getText ed).
  { unfold JString.upToFirstOccurrenceOf. unfold JString.contains in Hsp.
    destruct (JString.indexOf false " " (getText ed)); [|reflexivity].
    rewrite bool_decide_eq_false in Hsp. exfalso. apply Hsp. eauto. }
  rewrite Hup. unfold JString.fromFirstOccurrenceOf.
  assert (Hidx : JString.indexOf true (getText ed) suggestionText = Some 0%nat).
  { apply startsWith_exact_ignoreCase in Hpre.
    destruct suggestionText; simpl in *; rewrite Hpre; reflexivity. }
  rewrite Hidx. simpl. apply startsWith_exact_app, Hpre.
Qed.

(** ** Outcomes *)

Lemma bind_Ok {A B : Type} (a : A) (k : A -> Outcome B) : Ok a ≫= k = k a.
Proof. reflexivity. Qed.

(** ** Loops over the button array *)

Lemma update_button_at (i : nat) (f : Suggestion.t -> Suggestion.t)
    (bs : list Suggestion.t) (b : Suggestion.t) :
  bs !! i = Some b ->
  update_button (Z.of_nat i) f bs = Ok (<[i := f b]> bs).
Proof.
  intros Hb. unfold update_button, at_index.
  replace (0 <=? Z.of_nat i) with true by (symmetry; apply Z.leb_le; lia).
  rewrite Nat2Z.id, Hb. reflexivity.
Qed.

Lemma update_button_Z (i : Z) (f : Suggestion.t -> Suggestion.t)
    (bs : list Suggestion.t) (b : Suggestion.t) :
  0 <= i -> bs !! Z.to_nat i = Some b ->
  update_button i f bs = Ok (<[Z.to_nat i := f b]> bs).
Proof.
  intros Hi Hb. rewrite <- (Z2Nat.id i) at 1 by assumption.
  apply update_button_at, Hb.
Qed.

Lemma update_button_negative (i : Z) (f : Suggestion.t -> Suggestion.t)
    (bs : list Suggestion.t) :
  i < 0 -> update_button i f bs = Crash (NullDereference ptr_button).
Proof.
  intros Hi. unfold update_button, at_index.
  replace (0 <=? i) with false by (symmetry; apply Z.leb_gt; lia).
  reflexivity.
Qed.

Lemma apply_from_lookup (f : nat -> Suggestion.t -> Suggestion.t)
    (lo n : nat) (bs : list Suggestion.t) (k : nat) :
  apply_from f lo n bs !! k
  = (fun b => if decide (lo <= k < lo + n)%nat then f k b else b) <$> bs !! k.
Proof. unfold apply_from. apply list_lookup_imap. Qed.

Lemma apply_from_length (f : nat -> Suggestion.t -> Suggestion.t)
    (lo n : nat) (bs : list Suggestion.t) :
  List.length (apply_from f lo n bs) = List.length bs.
Proof. unfold apply_from. apply length_imap. Qed.

(** A loop whose iteration [k] updates button [k] runs to its end when the
    indices are inside the array, and leaves [apply_from]. *)
Lemma for_loop_apply_from (f : nat -> Suggestion.t -> Suggestion.t)
    (body : Z -> list Suggestion.t -> Outcome (list Suggestion.t)) (n : nat) :
  forall (lo : nat) (bs : list Suggestion.t),
    (lo + n <= List.length bs)%nat ->
    (forall k bs', (lo <= k < lo + n)%nat ->
       body (Z.of_nat k) bs' = update_button (Z.of_nat k) (f k) bs') ->
    for_loop n (Z.of_nat lo) body bs = Ok (apply_from f lo n bs).
Proof.
  induction n as [|n IH]; intros lo bs Hlen Hbody; simpl.
  - f_equal. apply list_eq. intros k. rewrite apply_from_lookup.
    destruct (bs !! k); simpl; [|reflexivity].
    case_decide; first [reflexivity | lia].
  - rewrite Hbody by lia.
    destruct (lookup_lt_is_Some_2 bs lo ltac:(lia)) as [b Hb].
    rewrite (update_button_at _ _ _ _ Hb). simpl.
    replace (Z.of_nat lo + 1) with (Z.of_nat (S lo)) by lia.
    rewrite IH.
    + f_equal. apply list_eq. intros k. rewrite !apply_from_lookup.
      destruct (decide (k = lo)) as [->|Hne].
      * rewrite list_lookup_insert_eq by lia. rewrite Hb. simpl.
        repeat case_decide; first [reflexivity | lia].
      * rewrite list_lookup_insert_ne by congruence.
        destruct (bs !! k); simpl; [|reflexivity].
        repeat case_decide; first [reflexivity | lia].
    + rewrite length_insert. lia.
    + intros k bs' Hk. apply Hbody. lia.
Qed.

Lemma at_vector_at {A : Type} (v : list A) (k : nat) (a : A) :
  v !! k = Some a -> at_vector v (Z.of_nat k) = Ok a.
Proof.
  intros H. unfold at_vector, at_index.
  replace (0 <=? Z.of_nat k) with true by (symmetry; apply Z.leb_le; lia).
  rewrite Nat2Z.id, H. reflexivity.
Qed.

Lemma at_vector_Z {A : Type} (v : list A) (i : Z) (a : A) :
  0 <= i -> v !! Z.to_nat i = Some a -> at_vector v i = Ok a.
Proof.
  intros Hi H. unfold at_vector, at_index.
  replace (0 <=? i) with true by (symmetry; apply Z.leb_le; lia).
  rewrite H. reflexivity.
Qed.

Lemma for_range_apply_from (f : nat -> Suggestion.t -> Suggestion.t)
    (body : Z -> list Suggestion.t -> Outcome (list Suggestion.t))
    (lo n : nat) (bs : list Suggestion.t) :
  (lo + n <= List.length bs)%nat ->
  (forall k bs', (lo <= k < lo + n)%nat ->
     body (Z.of_nat k) bs' = update_button (Z.of_nat k) (f k) bs') ->
  for_range (Z.of_nat lo) (Z.of_nat (lo + n)) body bs
  = Ok (apply_from f lo n bs).
Proof.
  intros Hlen Hbody. unfold for_range.
  replace (Z.to_nat (Z.of_nat (lo + n) - Z.of_nat lo)) with n by lia.
  apply for_loop_apply_from; assumption.
Qed.

Lemma for_range_empty {St : Type} (lo hi : Z)
    (body : Z -> St -> Outcome St) (s : St) :
  hi <= lo -> for_range lo hi body s = Ok s.
Proof.
  intros H. unfold for_range.
  replace (Z.to_nat (hi - lo)) with 0%nat by lia. reflexivity.
Qed.

Lemma for_range_buttons (f : nat -> Suggestion.t -> Suggestion.t)
    (body : Z -> list Suggestion.t -> Outcome (list Suggestion.t))
    (lo hi : Z) (bs : list Suggestion.t) :
  0 <= lo ->
  hi <= Z.of_nat (List.length bs) ->
  (forall k bs', lo <= Z.of_nat k < hi ->
     body (Z.of_nat k) bs' = update_button (Z.of_nat k) (f k) bs') ->
  for_range lo hi body bs
  = Ok (apply_from f (Z.to_nat lo) (Z.to_nat (hi - lo)) bs).
Proof.
  intros Hlo Hhi Hbody.
  destruct (Z_le_gt_dec hi lo) as [Hle|Hgt].
  - rewrite for_range_empty by assumption. f_equal.
    replace (Z.to_nat (hi - lo)) with 0%nat by lia.
    apply list_eq. intros k. rewrite apply_from_lookup.
    destruct (bs !! k); simpl; [|reflexivity].
    case_decide; first [reflexivity | lia].
  - unfold for_range.
    pose proof (for_loop_apply_from f body (Z.to_nat (hi - lo)) (Z.to_nat lo) bs)
      as H.
    rewrite Z2Nat.id in H by assumption. apply H; [lia|].
    intros k bs' Hk. apply Hbody. lia.
Qed.

(** ** The text-change handler *)

Section TextChangedFacts.

Variable hvccObjects : list string.

Lemma currentBox_updateBounds_ok (w : Popup.World) (p : Popup.t) (a : addr)
    (box : Object) :
  Popup.currentBox_target w = Some (a, box) ->
  Popup.currentBox p = Popup.currentBox (Popup.popup w) ->
  Popup.currentBox_updateBounds (Popup.set_popup p w)
  = Ok (Popup.mkWorld (Popup.editors w)
          (<[a := updateBounds box]> (Popup.objects w)) p).
Proof.
  unfold Popup.currentBox_updateBounds, Popup.currentBox_target. simpl.
  intros Hbox ->. destruct (Popup.currentBox (Popup.popup w)) as [a'|];
    [|discriminate]. simpl in *.
  destruct (Popup.objects w !! a') as [o|]; [|discriminate].
  simpl in *. injection Hbox as -> ->. reflexivity.
Qed.

Lemma textChanged_arguments_run (e a : addr) (w : Popup.World) (box : Object)
    (ed : TextEditor) :
  Popup.currentBox_target w = Some (a, box) ->
  Popup.editors w !! e = Some ed ->
  JString.contains (getText ed) " " = true ->
  List.length (Popup.buttons (Popup.popup w)) = 20%nat ->
  let found :=
    default [] (Library.getArguments (objectLibrary box)
                  !! JString.upToFirstOccurrenceOf (getText ed) " " false false) in
  Z.of_nat (List.length found) <= CInt.INT_MAX ->
  exists w',
    Popup.textEditorTextChanged hvccObjects e w = Ok w' /\
    Popup.state (Popup.popup w') = Popup.ShowingArguments /\
    Popup.numOptions (Popup.popup w') = Z.of_nat (List.length found) /\
    Popup.currentidx (Popup.popup w') = 0 /\
    Popup.buttons (Popup.popup w')
    = apply_from blank_row_untoggled (List.length found)
        (20 - List.length found)
        (apply_from (argument_row found) 0 (Nat.min 20 (List.length found))
           (Popup.buttons (Popup.popup w))).
Proof.
  intros Hbox Hed Hsp Hlen found Hfit.
  unfold Popup.textEditorTextChanged. rewrite Hbox. simpl. rewrite Hed. simpl.
  rewrite Hsp.
  match goal with
  | |- context [CInt.of_size (List.length ?f)] => change f with found
  end.
  clearbody found.
  rewrite (of_size_in_range _ Hfit). unfold Popup.buttons_size. simpl.
  rewrite Hlen.
  erewrite (for_range_buttons (argument_row found)); [simpl| lia | lia |].
  2:{ intros k bs' Hk. unfold argument_row.
      destruct (found !! k) as [[[ty de] ini]|] eqn:Ek.
      - rewrite (at_vector_at _ _ _ Ek). reflexivity.
      - apply lookup_ge_None in Ek. lia. }
  rewrite apply_from_length, Hlen.
  erewrite (for_range_buttons blank_row_untoggled);
    [simpl| lia | rewrite apply_from_length; lia | reflexivity].
  replace (Z.to_nat (Z.of_nat 20 `min` Z.of_nat (List.length found) - 0))
    with (Nat.min 20 (List.length found)) by lia.
  replace (Z.to_nat (Z.of_nat 20 - Z.of_nat (List.length found)))
    with (20 - List.length found)%nat by lia.
  rewrite Nat2Z.id. change (Z.to_nat 0) with 0%nat.
  destruct (Popup.autoCompleteComponent (Popup.popup w)) as [ac|].
  - erewrite currentBox_updateBounds_ok; [|exact Hbox|reflexivity]. simpl.
    eexists. split; [reflexivity|]. simpl. auto.
  - simpl. eexists. split; [reflexivity|]. simpl. auto.
Qed.

Lemma rem_wrapped_index (idx n : Z) :
  0 <= idx < 20 -> 1 <= n <= 20 ->
  CInt.rem (CInt.add idx n) n = Some (idx mod n).
Proof.
  intros Hidx Hn. unfold CInt.rem, CInt.add.
  replace (n =? 0) with false by (symmetry; apply Z.eqb_neq; lia).
  rewrite (wrap_in_range (idx + n))
    by (unfold CInt.INT_MIN, CInt.INT_MAX; lia).
  rewrite Z.rem_mod_nonneg by lia.
  replace ((idx + n) mod n) with (idx mod n)
    by (rewrite <- (Z.mul_1_l n) at 2; rewrite Z.mod_add by lia; reflexivity).
  pose proof (Z.mod_pos_bound idx n ltac:(lia)).
  rewrite wrap_in_range by (unfold CInt.INT_MIN, CInt.INT_MAX; lia).
  reflexivity.
Qed.

Lemma textChanged_objects_run (e a : addr) (w : Popup.World) (box : Object)
    (ed : TextEditor) :
  Popup.currentBox_target w = Some (a, box) ->
  Popup.editors w !! e = Some ed ->
  JString.contains (getText ed) " " = false ->
  List.length (Popup.buttons (Popup.popup w)) = 20%nat ->
  0 <= Popup.currentidx (Popup.popup w) < 20 ->
  let found := objects_found hvccObjects box (getText ed) in
  Z.of_nat (List.length found) <= CInt.INT_MAX ->
  (found <> [] -> getText ed <> EmptyString ->
   is_Some (Popup.autoCompleteComponent (Popup.popup w))) ->
  exists w' b0,
    Popup.textEditorTextChanged hvccObjects e w = Ok w' /\
    Popup.buttons (Popup.popup w)
      !! Z.to_nat (Popup.currentidx (Popup.popup w)) = Some b0 /\
    Popup.numOptions (Popup.popup w') = Z.of_nat (List.length found) /\
    Popup.buttons (Popup.popup w')
    = apply_from blank_row (List.length found) (20 - List.length found)
        (apply_from (object_row (objectLibrary box) found) 0
           (Nat.min 20 (List.length found))
           (<[Z.to_nat (Popup.currentidx (Popup.popup w))
              := Suggestion.setToggleState true b0]>
              (Popup.buttons (Popup.popup w)))) /\
    (found = [] \/ getText ed = EmptyString ->
     Popup.state (Popup.popup w') = Popup.Hidden /\
     Popup.isVisible (Popup.popup w') = false) /\
    (found <> [] -> getText ed <> EmptyString ->
     Popup.state (Popup.popup w') = Popup.ShowingObjects /\
     Popup.isVisible (Popup.popup w') = true /\
     Popup.currentidx (Popup.popup w')
     = Popup.currentidx (Popup.popup w)
       mod Z.min 20 (Z.of_nat (List.length found))).
Proof.
  intros Hbox Hed Hsp Hlen Hidx found Hfit Hac.
  destruct (lookup_lt_is_Some_2 (Popup.buttons (Popup.popup w))
              (Z.to_nat (Popup.currentidx (Popup.popup w))) ltac:(lia))
    as [b0 Hb0].
  unfold Popup.textEditorTextChanged. rewrite Hbox. simpl. rewrite Hed. simpl.
  rewrite Hsp.
  rewrite (update_button_Z _ _ _ _ (proj1 Hidx) Hb0). simpl.
  match goal with
  | |- context [CInt.of_size (List.length ?f)] => change f with found
  end.
  clearbody found.
  rewrite (of_size_in_range _ Hfit). unfold Popup.buttons_size. simpl.
  rewrite length_insert, Hlen.
  erewrite (for_range_buttons (object_row (objectLibrary box) found));
    [simpl| lia | rewrite length_insert; lia |].
  2:{ intros k bs' Hk. unfold object_row.
      destruct (found !! k) as [[name ac]|] eqn:Ek.
      - rewrite (at_vector_at _ _ _ Ek). reflexivity.
      - apply lookup_ge_None in Ek. lia. }
  rewrite apply_from_length, length_insert, Hlen.
  erewrite (for_range_buttons blank_row);
    [simpl| lia | rewrite apply_from_length, length_insert; lia | reflexivity].
  replace (Z.to_nat (Z.of_nat 20 `min` Z.of_nat (List.length found) - 0))
    with (Nat.min 20 (List.length found)) by lia.
  replace (Z.to_nat (Z.of_nat 20 - Z.of_nat (List.length found)))
    with (20 - List.length found)%nat by lia.
  rewrite Nat2Z.id. change (Z.to_nat 0) with 0%nat.
  set (m := Nat.min 20 (List.length found)).
  set (r := (20 - List.length found)%nat).
  destruct (bool_decide (found = []) || (JString.length (getText ed) =? 0))
    eqn:Ehid.
  - assert (Hhid : found = [] \/ getText ed = EmptyString).
    { apply orb_prop in Ehid as [H|H].
      - left. apply bool_decide_eq_true in H. exact H.
      - right. apply Z.eqb_eq in H. unfold JString.length in H.
        destruct (getText ed); [reflexivity | simpl in H; lia]. }
    erewrite currentBox_updateBounds_ok;
      [|exact Hbox
       |destruct (Popup.autoCompleteComponent (Popup.popup w)); reflexivity].
    destruct (Popup.autoCompleteComponent (Popup.popup w)); simpl;
      eexists _, b0;
      (split; [reflexivity|split; [exact Hb0|]]);
      (split; [reflexivity|split; [reflexivity|]]);
      (split; [intros _; split; reflexivity
              |intros Hne Hte; destruct Hhid; contradiction]).
  - apply orb_false_elim in Ehid as [Hne Hte].
    apply bool_decide_eq_false in Hne.
    assert (Htext : getText ed <> EmptyString).
    { intros Heq. rewrite Heq in Hte. discriminate. }
    assert (Hpos : (0 < List.length found)%nat)
      by (destruct found; [congruence | simpl; lia]).
    rewrite rem_wrapped_index by lia. simpl.
    pose proof (Z.mod_pos_bound (Popup.currentidx (Popup.popup w))
                  (20 `min` Z.of_nat (List.length found)) ltac:(lia)) as Hmod.
    destruct (lookup_lt_is_Some_2 found
                (Z.to_nat (Popup.currentidx (Popup.popup w)
                           mod 20 `min` Z.of_nat (List.length found)))
                ltac:(lia)) as [[fullName isAuto] Hfull].
    rewrite (at_vector_Z _ _ _ (proj1 Hmod) Hfull). simpl.
    destruct (Hac Hne Htext) as [ac Hacs]. rewrite Hacs. simpl.
    match goal with
    | |- context [if ?c then _ else _] => destruct c
    end; rewrite bind_Ok;
      (erewrite currentBox_updateBounds_ok; [|exact Hbox|reflexivity]);
      rewrite bind_Ok; eexists _, b0;
      (split; [reflexivity|split; [exact Hb0|]]);
      (split; [reflexivity|split; [reflexivity|]]);
      (split; [intros [Hc|Hc]; contradiction
              |intros _ _; repeat split; reflexivity]).
Qed.

(** The two loops together: rows with an entry get [f], the others [g]. *)
Lemma two_loops_lookup (f g : nat -> Suggestion.t -> Suggestion.t) (n : nat)
    (bs : list Suggestion.t) (i : nat) (b : Suggestion.t) :
  List.length bs = 20%nat ->
  bs !! i = Some b ->
  apply_from g n (20 - n) (apply_from f 0 (Nat.min 20 n) bs) !! i
  = Some (if decide (i < n)%nat then f i b else g i b).
Proof.
  intros Hlen Hb. pose proof (lookup_lt_Some _ _ _ Hb) as Hi.
  rewrite !apply_from_lookup, Hb. cbn [fmap option_fmap option_map].
  f_equal. repeat case_decide; first [reflexivity | lia].
Qed.

Lemma hvccObjectsFound_filter (found : list (string * bool)) :
  Popup.hvccObjectsFound hvccObjects found
  = filter (fun object => object.1 ∈ hvccObjects) found.
Proof.
  unfold Popup.hvccObjectsFound.
  enough (H : forall acc,
    foldl (fun acc object =>
             if bool_decide (object.1 ∈ hvccObjects)
             then acc ++ [object] else acc) acc found
    = acc ++ filter (fun object => object.1 ∈ hvccObjects) found)
    by apply (H []).
  induction found as [|o found IH]; intros acc; simpl.
  - rewrite app_nil_r. reflexivity.
  - rewrite IH, filter_cons. case_bool_decide as Ho.
    + rewrite decide_True by exact Ho. rewrite <- app_assoc. reflexivity.
    + rewrite decide_False by exact Ho. reflexivity.
Qed.

Lemma rows_show_two_loops {A : Type} (R : Suggestion.t -> A -> Prop)
    (f g : nat -> Suggestion.t -> Suggestion.t) (found : list A)
    (bs : list Suggestion.t) :
  List.length bs = 20%nat ->
  (forall i b x, found !! i = Some x -> R (f i b) x) ->
  (forall i b, is_blank (g i b)) ->
  rows_show R
    (apply_from g (List.length found) (20 - List.length found)
       (apply_from f 0 (Nat.min 20 (List.length found)) bs))
    found.
Proof.
  intros Hlen Hf Hg i b' Hb'.
  assert (Hi : (i < 20)%nat).
  { apply lookup_lt_Some in Hb'. rewrite !apply_from_length in Hb'. lia. }
  destruct (lookup_lt_is_Some_2 bs i ltac:(lia)) as [b Hb].
  rewrite (two_loops_lookup f g _ bs i b Hlen Hb) in Hb'.
  injection Hb' as <-.
  destruct (found !! i) as [x|] eqn:Ex.
  - pose proof (lookup_lt_Some _ _ _ Ex). rewrite decide_True by lia.
    apply Hf, Ex.
  - apply lookup_ge_None in Ex. rewrite decide_False by lia. apply Hg.
Qed.

Lemma argument_row_shows (found : list Library.Argument) (i : nat)
    (b : Suggestion.t) (x : Library.Argument) :
  found !! i = Some x -> shows_argument (argument_row found i b) x.
Proof.
  intros Hx. unfold argument_row. rewrite Hx.
  destruct x as [[ty de] ini]. repeat split.
Qed.

Lemma object_row_shows (library : Library.t) (found : list (string * bool))
    (i : nat) (b : Suggestion.t) (x : string * bool) :
  found !! i = Some x -> shows_object library (object_row library found i b) x.
Proof.
  intros Hx. unfold object_row, shows_object. rewrite Hx.
  destruct x as [name isAuto]. simpl.
  destruct (Library.getObjectDescriptions library !! name); repeat split.
Qed.

End TextChangedFacts.

(** C1, as described: text without a space and not empty would always lead
    to [ShowingObjects], with the rows filled from [autocomplete (text)].
    Here "fo" is typed in hvcc mode; the library's only match "foo~" is not
    an hvcc object, so the first row stays blank and the state is
    [Hidden]. *)
Lemma textChanged_without_match_hides :
  JString.contains "fo" " " = false /\
  Library.autocomplete sample_library "fo" = [("foo~", true)] /\
  state_after
    (Popup.textEditorTextChanged ["metro"] 1%positive
       (sample_world sample_library true "fo")) = Some Popup.Hidden /\
  (p ← popup_after
         (Popup.textEditorTextChanged ["metro"] 1%positive
            (sample_world sample_library true "fo"));
   b ← Popup.buttons p !! 0%nat;
   Some (Suggestion.buttonText b)) = Some EmptyString /\
  state_after
    (Popup.textEditorTextChanged ["metro"] 1%positive
       (sample_world sample_library true "fo")) <> Some Popup.ShowingObjects.
Proof.
  repeat split; try (vm_compute; reflexivity). vm_compute. discriminate.
Qed.

(** C1 (amended): for a text-change event delivered while a box is open,
    with the overlay in place: if the editor text contains a space the
    popup enters [ShowingArguments] and its rows present the arguments
    listed for the text up to the first space; if the text contains no
    space and is not empty, the rows present the names returned by
    [autocomplete (text)], only those in [Object::hvccObjects] when hvcc
    mode is on, each with its description when there is one, and the popup
    enters [ShowingObjects] when that list is not empty and [Hidden] when
    it is empty.  Rows past the last entry are blank. *)
Theorem textEditorTextChanged_fills_rows
    (hvccObjects : list string) (e a : addr) (w : Popup.World) (box : Object)
    (ed : TextEditor) :
  Popup.currentBox_target w = Some (a, box) ->
  Popup.editors w !! e = Some ed ->
  List.length (Popup.buttons (Popup.popup w)) = 20%nat ->
  0 <= Popup.currentidx (Popup.popup w) < 20 ->
  is_Some (Popup.autoCompleteComponent (Popup.popup w)) ->
  Z.of_nat (List.length (arguments_found box (getText ed))) <= CInt.INT_MAX ->
  Z.of_nat (List.length (objects_found hvccObjects box (getText ed)))
    <= CInt.INT_MAX ->
  exists w',
    Popup.textEditorTextChanged hvccObjects e w = Ok w' /\
    (JString.contains (getText ed) " " = true ->
     Popup.state (Popup.popup w') = Popup.ShowingArguments /\
     rows_show shows_argument (Popup.buttons (Popup.popup w'))
       (arguments_found box (getText ed))) /\
    (JString.contains (getText ed) " " = false ->
     getText ed <> EmptyString ->
     rows_show (shows_object (objectLibrary box))
       (Popup.buttons (Popup.popup w'))
       (objects_found hvccObjects box (getText ed)) /\
     (objects_found hvccObjects box (getText ed) <> [] ->
      Popup.state (Popup.popup w') = Popup.ShowingObjects) /\
     (objects_found hvccObjects box (getText ed) = [] ->
      Popup.state (Popup.popup w') = Popup.Hidden)).
Proof.
  intros Hbox Hed Hlen Hidx Hac Hfita Hfito.
  destruct (JString.contains (getText ed) " ") eqn:Hsp.
  - destruct (textChanged_arguments_run hvccObjects e a w box ed
                Hbox Hed Hsp Hlen Hfita) as (w' & Hrun & Hst & _ & _ & Hbs).
    exists w'. split; [exact Hrun|]. split; [|discriminate].
    intros _. split; [exact Hst|]. rewrite Hbs.
    apply rows_show_two_loops; [exact Hlen | |].
    + intros i b x Hx. apply argument_row_shows, Hx.
    + intros i b. split; reflexivity.
  - destruct (textChanged_objects_run hvccObjects e a w box ed
                Hbox Hed Hsp Hlen Hidx Hfito (fun _ _ => Hac))
      as (w' & b0 & Hrun & Hb0 & _ & Hbs & Hhid & Hshow).
    exists w'. split; [exact Hrun|]. split; [discriminate|].
    intros _ Htext. split; [|split].
    + rewrite Hbs. apply rows_show_two_loops.
      * rewrite length_insert. exact Hlen.
      * intros i b x Hx. apply object_row_shows, Hx.
      * intros i b. split; reflexivity.
    + intros Hne. apply (Hshow Hne Htext).
    + intros Hnil. apply Hhid. left. exact Hnil.
Qed.

Lemma textEditorTextChanged_fills_rows_witness :
  Popup.currentBox_target (sample_world sample_library false "me")
  = Some (7%positive, mkObject sample_library (JVar.var_bool false) 0) /\
  exists w',
    Popup.textEditorTextChanged [] 1%positive
      (sample_world sample_library false "me") = Ok w' /\
    Popup.state (Popup.popup w') = Popup.ShowingObjects.
Proof.
  split; [reflexivity|].
  destruct (textEditorTextChanged_fills_rows [] 1%positive 7%positive
              (sample_world sample_library false "me")
              (mkObject sample_library (JVar.var_bool false) 0)
              (mkTextEditor "me"))
    as (w' & Hrun & _ & Hobjects).
  - reflexivity.
  - reflexivity.
  - reflexivity.
  - simpl. lia.
  - eexists. reflexivity.
  - vm_compute. discriminate.
  - vm_compute. discriminate.
  - exists w'. split; [exact Hrun|].
    apply Hobjects; [reflexivity | discriminate | vm_compute; discriminate].
Defined.

(** C10, as described: the displayed names would be the whole filtered
    list.  With twenty-one matches, all of them hvcc objects, twenty names
    are displayed, with hvcc mode on and with it off. *)
Lemma displayed_names_stop_at_twenty :
  List.length
    (filter (fun object => object.1 ∈ twenty_one_names)
       (Library.autocomplete crowded_library "x")) = 21%nat /\
  displayed_names
    <$> popup_after
          (Popup.textEditorTextChanged twenty_one_names 1%positive
             (sample_world crowded_library true "x"))
  = Some (take 20 twenty_one_names) /\
  displayed_names
    <$> popup_after
          (Popup.textEditorTextChanged twenty_one_names 1%positive
             (sample_world crowded_library true "x"))
  <> Some (fst <$> filter (fun object => object.1 ∈ twenty_one_names)
                     (Library.autocomplete crowded_library "x")) /\
  displayed_names
    <$> popup_after
          (Popup.textEditorTextChanged twenty_one_names 1%positive
             (sample_world crowded_library false "x"))
  <> Some (fst <$> Library.autocomplete crowded_library "x").
Proof.
  repeat split; try (vm_compute; reflexivity); vm_compute; discriminate.
Qed.

(** C10 (amended): when text without a space has been typed, the names
    displayed are the first twenty entries (all of them when there are
    fewer) of the [autocomplete] results, restricted when hvcc mode is on
    to the entries whose name is in [Object::hvccObjects], in their original
    order. *)
Theorem textEditorTextChanged_displays_hvcc_subsequence
    (hvccObjects : list string) (e a : addr) (w : Popup.World) (box : Object)
    (ed : TextEditor) :
  Popup.currentBox_target w = Some (a, box) ->
  Popup.editors w !! e = Some ed ->
  List.length (Popup.buttons (Popup.popup w)) = 20%nat ->
  0 <= Popup.currentidx (Popup.popup w) < 20 ->
  is_Some (Popup.autoCompleteComponent (Popup.popup w)) ->
  JString.contains (getText ed) " " = false ->
  let results := Library.autocomplete (objectLibrary box) (getText ed) in
  let shown :=
    if JVar.to_bool (hvccMode box)
    then filter (fun object => object.1 ∈ hvccObjects) results
    else results in
  Z.of_nat (List.length shown) <= CInt.INT_MAX ->
  exists w',
    Popup.textEditorTextChanged hvccObjects e w = Ok w' /\
    Popup.numOptions (Popup.popup w') = Z.of_nat (List.length shown) /\
    displayed_names (Popup.popup w') = take 20 (fst <$> shown).
Proof.
  intros Hbox Hed Hlen Hidx Hac Hsp results shown Hfit.
  assert (Hfound : objects_found hvccObjects box (getText ed) = shown).
  { unfold objects_found, shown, results.
    destruct (JVar.to_bool (hvccMode box)); [|reflexivity].
    apply hvccObjectsFound_filter. }
  destruct (textChanged_objects_run hvccObjects e a w box ed
              Hbox Hed Hsp Hlen Hidx) as (w' & b0 & Hrun & Hb0 & Hn & Hbs & _).
  { rewrite Hfound. exact Hfit. }
  { intros _ _. exact Hac. }
  rewrite Hfound in Hn, Hbs. clearbody shown. clear Hfound results.
  exists w'. split; [exact Hrun|]. split; [exact Hn|].
  unfold displayed_names. rewrite Hn, Hbs.
  apply list_eq. intros i. rewrite !lookup_take, !list_lookup_fmap.
  set (bs := <[_ := _]> _).
  assert (Hlenbs : List.length bs = 20%nat)
    by (unfold bs; rewrite length_insert; exact Hlen).
  destruct (decide (i < 20)%nat) as [Hi|Hi].
  - destruct (lookup_lt_is_Some_2 bs i ltac:(lia)) as [b Hb].
    rewrite (two_loops_lookup _ _ _ bs i b Hlenbs Hb). simpl.
    destruct (shown !! i) as [[name isAuto]|] eqn:Ei.
    + pose proof (lookup_lt_Some _ _ _ Ei).
      rewrite !decide_True by lia. unfold object_row. rewrite Ei. simpl.
      destruct (Library.getObjectDescriptions (objectLibrary box) !! name);
        reflexivity.
    + apply lookup_ge_None in Ei. rewrite decide_False by lia. reflexivity.
  - rewrite decide_False by lia. reflexivity.
Qed.

Lemma textEditorTextChanged_displays_hvcc_subsequence_witness :
  JString.contains "me" " " = false /\
  exists w',
    Popup.textEditorTextChanged ["metro~"] 1%positive
      (sample_world sample_library true "me") = Ok w' /\
    displayed_names (Popup.popup w') = ["metro~"].
Proof.
  split; [reflexivity|].
  destruct (textEditorTextChanged_displays_hvcc_subsequence ["metro~"]
              1%positive 7%positive (sample_world sample_library true "me")
              (mkObject sample_library (JVar.var_bool true) 0)
              (mkTextEditor "me"))
    as (w' & Hrun & _ & Hshown).
  - reflexivity.
  - reflexivity.
  - reflexivity.
  - simpl. lia.
  - eexists. reflexivity.
  - reflexivity.
  - vm_compute. discriminate.
  - exists w'. split; [exact Hrun|]. rewrite Hshown. reflexivity.
Defined.

(** ** The unguarded use of the overlay *)

(** The [else] branch on line 517 has no test of its own: in a state with
    a box set and no overlay, which the class never produces, it would call
    [setSuggestion] through the null pointer. *)
Remark line_517_relies_on_the_overlay :
  Popup.currentBox_target (world_without_overlay "me")
  = Some (7%positive, mkObject sample_library (JVar.var_bool false) 0) /\
  Popup.autoCompleteComponent (Popup.popup (world_without_overlay "me"))
  = None /\
  Popup.textEditorTextChanged [] 1%positive (world_without_overlay "me")
  = Crash (NullDereference ptr_autoCompleteComponent).
Proof. repeat split. Qed.

(** ** The wrapped index *)

Lemma ndz_Ok {A : Type} (a : A) : never_divides_by_zero (Ok a).
Proof. discriminate. Qed.

Lemma ndz_null {A : Type} (p : Pointer) :
  never_divides_by_zero (Crash (NullDereference p) : Outcome A).
Proof. discriminate. Qed.

Lemma ndz_deref {A : Type} (p : Pointer) (target : option A) :
  never_divides_by_zero (deref p target).
Proof. destruct target; discriminate. Qed.

Lemma ndz_bind {A B : Type} (m : Outcome A) (k : A -> Outcome B) :
  never_divides_by_zero m ->
  (forall a, m = Ok a -> never_divides_by_zero (k a)) ->
  never_divides_by_zero (m ≫= k).
Proof.
  intros Hm Hk. destruct m as [a|f]; simpl.
  - apply Hk. reflexivity.
  - intros [= ->]. apply Hm. reflexivity.
Qed.

Lemma ndz_at_vector {A : Type} (v : list A) (i : Z) :
  never_divides_by_zero (at_vector v i).
Proof. unfold at_vector. destruct (at_index v i); discriminate. Qed.

Lemma ndz_update_button (i : Z) (f : Suggestion.t -> Suggestion.t)
    (bs : list Suggestion.t) :
  never_divides_by_zero (update_button i f bs).
Proof.
  unfold update_button. apply ndz_bind; [apply ndz_deref|].
  intros b _. apply ndz_Ok.
Qed.

Lemma ndz_for_loop {St : Type} (body : Z -> St -> Outcome St) (n : nat) :
  (forall i s, never_divides_by_zero (body i s)) ->
  forall i s, never_divides_by_zero (for_loop n i body s).
Proof.
  intros Hbody. induction n as [|n IH]; intros i s; simpl.
  - apply ndz_Ok.
  - apply ndz_bind; [apply Hbody|]. intros s' _. apply IH.
Qed.

Lemma ndz_currentBox_updateBounds (w : Popup.World) :
  never_divides_by_zero (Popup.currentBox_updateBounds w).
Proof.
  unfold Popup.currentBox_updateBounds. apply ndz_bind; [apply ndz_deref|].
  intros [a o] _. apply ndz_Ok.
Qed.

Lemma rem_nonzero (a n : Z) : n <> 0 -> is_Some (CInt.rem a n).
Proof.
  intros Hn. unfold CInt.rem.
  replace (n =? 0) with false by (symmetry; apply Z.eqb_neq; exact Hn).
  eexists. reflexivity.
Qed.

Lemma move_never_divides_by_zero (offset setto : Z) (w : Popup.World) :
  never_divides_by_zero (Popup.move offset setto w).
Proof.
  unfold Popup.move.
  destruct (Popup.openedEditor (Popup.popup w)); [|apply ndz_Ok].
  set (p := if setto =? -1 then _ else _).
  destruct (Popup.numOptions p =? 0) eqn:Hzero; [apply ndz_Ok|].
  apply Z.eqb_neq in Hzero.
  destruct (rem_nonzero
              (CInt.add (Popup.currentidx p) (20 `min` Popup.numOptions p))
              (20 `min` Popup.numOptions p) ltac:(lia)) as [r Hr].
  rewrite Hr. simpl.
  apply ndz_bind; [apply ndz_update_button|]. intros bs _. simpl.
  destruct (Popup.autoCompleteComponent p); [|apply ndz_Ok].
  apply ndz_bind; [apply ndz_deref|]. intros but _.
  apply ndz_currentBox_updateBounds.
Qed.

Lemma ndz_for_range {St : Type} (lo hi : Z) (body : Z -> St -> Outcome St)
    (s : St) :
  (forall i s, never_divides_by_zero (body i s)) ->
  never_divides_by_zero (for_range lo hi body s).
Proof. intros H. unfold for_range. apply ndz_for_loop, H. Qed.

Lemma textChanged_never_divides_by_zero (hvccObjects : list string)
    (e : addr) (w : Popup.World) :
  (forall a box ed,
     Popup.currentBox_target w = Some (a, box) ->
     Popup.editors w !! e = Some ed ->
     Z.of_nat (List.length (objects_found hvccObjects box (getText ed)))
       <= CInt.INT_MAX) ->
  never_divides_by_zero (Popup.textEditorTextChanged hvccObjects e w).
Proof.
  intros Hfit. unfold Popup.textEditorTextChanged.
  destruct (Popup.currentBox_target w) as [[a box]|] eqn:Hbox; [|apply ndz_Ok].
  apply ndz_bind; [apply ndz_deref|]. intros ed Hed.
  assert (Hed' : Popup.editors w !! e = Some ed)
    by (destruct (Popup.editors w !! e); [injection Hed as ->; reflexivity
                                         | discriminate]).
  specialize (Hfit a box ed eq_refl Hed').
  destruct (JString.contains (getText ed) " ").
  - apply ndz_bind.
    { apply ndz_for_range. intros i s. apply ndz_bind; [apply ndz_at_vector|].
      intros [[ty de] ini] _. apply ndz_update_button. }
    intros bs _. apply ndz_bind.
    { apply ndz_for_range. intros i s. apply ndz_update_button. }
    intros bs' _. apply ndz_bind; [|intros w' _; apply ndz_Ok].
    destruct (Popup.autoCompleteComponent _);
      [apply ndz_currentBox_updateBounds | apply ndz_Ok].
  - apply ndz_bind; [apply ndz_update_button|]. intros bs0 _.
    change (if JVar.to_bool (hvccMode box)
            then Popup.hvccObjectsFound hvccObjects
                   (Library.autocomplete (objectLibrary box) (getText ed))
            else Library.autocomplete (objectLibrary box) (getText ed))
      with (objects_found hvccObjects box (getText ed)).
    set (found := objects_found hvccObjects box (getText ed)) in *.
    apply ndz_bind.
    { apply ndz_for_range. intros i s. apply ndz_bind; [apply ndz_at_vector|].
      intros [name isAuto] _. apply ndz_update_button. }
    intros bs1 _. apply ndz_bind.
    { apply ndz_for_range. intros i s. apply ndz_update_button. }
    intros bs2 _.
    destruct (bool_decide (found = [])
              || (JString.length (getText ed) =? 0)) eqn:Ehid.
    + apply ndz_bind; [apply ndz_currentBox_updateBounds|].
      intros w' _. apply ndz_Ok.
    + apply orb_false_elim in Ehid as [Hne _].
      apply bool_decide_eq_false in Hne.
      assert (Hpos : (0 < List.length found)%nat)
        by (destruct found; [congruence | simpl; lia]).
      simpl. rewrite (of_size_in_range _ Hfit).
      match goal with
      | |- context [CInt.rem ?x ?n] =>
          destruct (rem_nonzero x n ltac:(lia)) as [r Hr]; rewrite Hr
      end.
      simpl. apply ndz_bind; [apply ndz_at_vector|].
      intros [fullName isAuto] _. apply ndz_bind.
      { destruct (_ && _); (apply ndz_bind; [apply ndz_deref|]);
          intros ac _; apply ndz_Ok. }
      intros ac _. apply ndz_bind; [apply ndz_currentBox_updateBounds|].
      intros w' _. apply ndz_Ok.
Qed.

(** C9: neither modulo divides by zero.  [move] computes it only when
    [numOptions] is not zero, and the handler only when the list of matches
    is not empty; in both places the divisor [numButtons] is then at least
    1, [numOptions] being a count. *)
Theorem wrapped_index_never_divides_by_zero
    (hvccObjects : list string) (offset setto : Z) (e : addr)
    (w : Popup.World) :
  (forall a box ed,
     Popup.currentBox_target w = Some (a, box) ->
     Popup.editors w !! e = Some ed ->
     Z.of_nat (List.length (objects_found hvccObjects box (getText ed)))
       <= CInt.INT_MAX) ->
  Popup.move offset setto w <> Crash DivisionByZero /\
  Popup.textEditorTextChanged hvccObjects e w <> Crash DivisionByZero /\
  (0 <= Popup.numOptions (Popup.popup w) ->
   Popup.numOptions (Popup.popup w) <> 0 ->
   1 <= Z.min 20 (Popup.numOptions (Popup.popup w))) /\
  (forall a box ed,
     Popup.currentBox_target w = Some (a, box) ->
     Popup.editors w !! e = Some ed ->
     objects_found hvccObjects box (getText ed) <> [] ->
     1 <= Z.min 20
            (CInt.of_size
               (List.length (objects_found hvccObjects box (getText ed))))).
Proof.
  intros Hfit. split; [apply move_never_divides_by_zero|].
  split; [apply textChanged_never_divides_by_zero, Hfit|].
  split; [lia|].
  intros a box ed Hbox Hed Hne.
  rewrite (of_size_in_range _ (Hfit a box ed Hbox Hed)).
  destruct (objects_found hvccObjects box (getText ed));
    [congruence | simpl List.length; lia].
Qed.

Lemma wrapped_index_never_divides_by_zero_witness :
  Popup.move 1 (-1) (sample_world sample_library false "me")
  <> Crash DivisionByZero /\
  Popup.textEditorTextChanged [] 1%positive
    (sample_world sample_library false "me") <> Crash DivisionByZero.
Proof.
  destruct (wrapped_index_never_divides_by_zero [] 1 (-1) 1%positive
              (sample_world sample_library false "me"))
    as (Hmove & Htext & _).
  - intros a box ed Hbox Hed.
    injection Hbox as <- <-. injection Hed as <-.
    vm_compute. discriminate.
  - split; assumption.
Defined.

(** ** Twenty buttons *)

Lemma bind_Ok_inv {A B : Type} (m : Outcome A) (k : A -> Outcome B) (b : B) :
  m ≫= k = Ok b -> exists a, m = Ok a /\ k a = Ok b.
Proof. destruct m as [a|f]; simpl; [eauto | discriminate]. Qed.

Lemma update_button_length (i : Z) (f : Suggestion.t -> Suggestion.t)
    (bs bs' : list Suggestion.t) :
  update_button i f bs = Ok bs' -> List.length bs' = List.length bs.
Proof.
  unfold update_button. intros H. apply bind_Ok_inv in H as (b & _ & H).
  injection H as <-. apply length_insert.
Qed.

Lemma for_loop_length (body : Z -> list Suggestion.t -> Outcome (list Suggestion.t))
    (n : nat) :
  (forall i bs bs', body i bs = Ok bs' -> List.length bs' = List.length bs) ->
  forall i bs bs',
    for_loop n i body bs = Ok bs' -> List.length bs' = List.length bs.
Proof.
  intros Hbody. induction n as [|n IH]; intros i bs bs'; simpl.
  - intros [= <-]. reflexivity.
  - intros H. apply bind_Ok_inv in H as (bs1 & H1 & H).
    rewrite (IH _ _ _ H). apply (Hbody _ _ _ H1).
Qed.

Lemma currentBox_updateBounds_popup (w w' : Popup.World) :
  Popup.currentBox_updateBounds w = Ok w' -> Popup.popup w' = Popup.popup w.
Proof.
  unfold Popup.currentBox_updateBounds. intros H.
  apply bind_Ok_inv in H as ([a o] & _ & H). injection H as <-. reflexivity.
Qed.

Lemma destroy_autoCompleteComponent_buttons (w w' : Popup.World) :
  Popup.destroy_autoCompleteComponent w = Ok w' ->
  Popup.buttons (Popup.popup w') = Popup.buttons (Popup.popup w).
Proof.
  unfold Popup.destroy_autoCompleteComponent.
  destruct (Popup.autoCompleteComponent (Popup.popup w)).
  - intros H. apply bind_Ok_inv in H as (ed & _ & H). injection H as <-.
    reflexivity.
  - intros [= <-]. reflexivity.
Qed.

Lemma createCalloutBox_buttons (object editor : addr) (w w' : Popup.World) :
  Popup.createCalloutBox object editor w = Ok w' ->
  Popup.buttons (Popup.popup w') = Popup.buttons (Popup.popup w).
Proof.
  unfold Popup.createCalloutBox. intros H.
  apply bind_Ok_inv in H as (o & _ & H).
  apply bind_Ok_inv in H as (ed & _ & H).
  apply bind_Ok_inv in H as (w1 & H1 & H).
  injection H as <-. simpl.
  rewrite (destroy_autoCompleteComponent_buttons _ _ H1). reflexivity.
Qed.

Lemma removeCalloutBox_buttons (w w' : Popup.World) :
  Popup.removeCalloutBox w = Ok w' ->
  Popup.buttons (Popup.popup w') = Popup.buttons (Popup.popup w).
Proof.
  unfold Popup.removeCalloutBox. intros H.
  apply bind_Ok_inv in H as (w1 & H1 & H).
  apply bind_Ok_inv in H as (e & _ & H).
  apply bind_Ok_inv in H as (ed & _ & H).
  injection H as <-. simpl.
  rewrite (destroy_autoCompleteComponent_buttons _ _ H1). reflexivity.
Qed.

Lemma move_buttons_length (offset setto : Z) (w w' : Popup.World) :
  Popup.move offset setto w = Ok w' ->
  List.length (Popup.buttons (Popup.popup w'))
  = List.length (Popup.buttons (Popup.popup w)).
Proof.
  unfold Popup.move.
  destruct (Popup.openedEditor (Popup.popup w)); [|intros [= <-]; reflexivity].
  set (p := if setto =? -1 then _ else _).
  assert (Hp : Popup.buttons p = Popup.buttons (Popup.popup w))
    by (unfold p; destruct (setto =? -1); reflexivity).
  destruct (Popup.numOptions p =? 0).
  { intros [= <-]. simpl. rewrite Hp. reflexivity. }
  intros H. apply bind_Ok_inv in H as (i & _ & H).
  apply bind_Ok_inv in H as (bs & Hbs & H). simpl in Hbs, H.
  apply update_button_length in Hbs. rewrite Hp in Hbs.
  destruct (Popup.autoCompleteComponent p).
  - apply bind_Ok_inv in H as (but & _ & H).
    apply currentBox_updateBounds_popup in H. rewrite H. simpl. exact Hbs.
  - injection H as <-. simpl. exact Hbs.
Qed.

Lemma for_range_length (lo hi : Z)
    (body : Z -> list Suggestion.t -> Outcome (list Suggestion.t))
    (bs bs' : list Suggestion.t) :
  (forall i bs bs', body i bs = Ok bs' -> List.length bs' = List.length bs) ->
  for_range lo hi body bs = Ok bs' -> List.length bs' = List.length bs.
Proof. intros Hbody. unfold for_range. apply for_loop_length, Hbody. Qed.

Lemma textChanged_buttons_length (hvccObjects : list string) (e : addr)
    (w w' : Popup.World) :
  Popup.textEditorTextChanged hvccObjects e w = Ok w' ->
  List.length (Popup.buttons (Popup.popup w'))
  = List.length (Popup.buttons (Popup.popup w)).
Proof.
  unfold Popup.textEditorTextChanged.
  destruct (Popup.currentBox_target w) as [[a box]|];
    [|intros [= <-]; reflexivity].
  intros H. apply bind_Ok_inv in H as (ed & _ & H).
  destruct (JString.contains (getText ed) " ").
  - apply bind_Ok_inv in H as (bs1 & H1 & H).
    apply bind_Ok_inv in H as (bs2 & H2 & H).
    apply bind_Ok_inv in H as (w1 & Hw1 & H). injection H as <-.
    apply for_range_length in H1.
    2:{ intros i bs bs' Hb. apply bind_Ok_inv in Hb as ([[ty de] ini] & _ & Hb).
        apply (update_button_length _ _ _ _ Hb). }
    apply for_range_length in H2;
      [|intros i bs bs' Hb; apply (update_button_length _ _ _ _ Hb)].
    simpl in *.
    destruct (Popup.autoCompleteComponent (Popup.popup w)).
    + apply currentBox_updateBounds_popup in Hw1. rewrite Hw1. simpl. lia.
    + injection Hw1 as <-. simpl. lia.
  - apply bind_Ok_inv in H as (bs0 & H0 & H).
    apply bind_Ok_inv in H as (bs1 & H1 & H).
    apply bind_Ok_inv in H as (bs2 & H2 & H).
    apply update_button_length in H0.
    apply for_range_length in H1.
    2:{ intros i bs bs' Hb. apply bind_Ok_inv in Hb as ([name isAuto] & _ & Hb).
        apply (update_button_length _ _ _ _ Hb). }
    apply for_range_length in H2;
      [|intros i bs bs' Hb; apply (update_button_length _ _ _ _ Hb)].
    simpl in *.
    destruct (bool_decide _ || _).
    + apply bind_Ok_inv in H as (w1 & Hw1 & H). injection H as <-.
      apply currentBox_updateBounds_popup in Hw1. simpl. rewrite Hw1.
      destruct (Popup.autoCompleteComponent (Popup.popup w)); simpl; lia.
    + apply bind_Ok_inv in H as (i & _ & H).
      apply bind_Ok_inv in H as ([fullName isAuto] & _ & H).
      apply bind_Ok_inv in H as (ac & _ & H).
      apply bind_Ok_inv in H as (w1 & Hw1 & H). injection H as <-.
      apply currentBox_updateBounds_popup in Hw1. simpl. rewrite Hw1.
      simpl. lia.
Qed.

Lemma step_buttons_length (hvccObjects : list string) (ev : Popup.Event)
    (w w' : Popup.World) :
  Popup.step hvccObjects ev w = Ok w' ->
  List.length (Popup.buttons (Popup.popup w'))
  = List.length (Popup.buttons (Popup.popup w)).
Proof.
  destruct ev; simpl; intros H.
  - rewrite (createCalloutBox_buttons _ _ _ _ H). reflexivity.
  - rewrite (removeCalloutBox_buttons _ _ H). reflexivity.
  - apply (move_buttons_length _ _ _ _ H).
  - apply (move_buttons_length _ _ _ _ H).
  - apply (textChanged_buttons_length _ _ _ _ H).
  - injection H as <-. reflexivity.
  - injection H as <-. reflexivity.
  - injection H as <-. reflexivity.
Qed.

(** However the popup is driven, it keeps the twenty buttons its
    constructor made. *)
Lemma run_buttons_length (hvccObjects : list string) (evs : list Popup.Event) :
  forall w w',
    Popup.run hvccObjects evs w = Ok w' ->
    List.length (Popup.buttons (Popup.popup w'))
    = List.length (Popup.buttons (Popup.popup w)).
Proof.
  induction evs as [|ev evs IH]; intros w w'; simpl.
  - intros [= <-]. reflexivity.
  - intros H. apply bind_Ok_inv in H as (w1 & H1 & H).
    rewrite (IH _ _ H). apply (step_buttons_length _ _ _ _ H1).
Qed.

(** ** Keyboard navigation *)

Lemma rem_wrapped_offset (x n : Z) :
  - n <= x <= 40 -> 1 <= n <= 20 ->
  CInt.rem (CInt.add x n) n = Some (x mod n).
Proof.
  intros Hx Hn. unfold CInt.rem, CInt.add.
  replace (n =? 0) with false by (symmetry; apply Z.eqb_neq; lia).
  rewrite (wrap_in_range (x + n))
    by (unfold CInt.INT_MIN, CInt.INT_MAX; lia).
  rewrite Z.rem_mod_nonneg by lia.
  replace ((x + n) mod n) with (x mod n)
    by (rewrite <- (Z.mul_1_l n) at 2; rewrite Z.mod_add by lia; reflexivity).
  pose proof (Z.mod_pos_bound x n ltac:(lia)).
  rewrite wrap_in_range by (unfold CInt.INT_MIN, CInt.INT_MAX; lia).
  reflexivity.
Qed.

Lemma currentBox_target_after_updateBounds (w : Popup.World) (p : Popup.t)
    (a : addr) (box : Object) :
  Popup.currentBox_target w = Some (a, box) ->
  Popup.currentBox p = Popup.currentBox (Popup.popup w) ->
  is_Some
    (Popup.currentBox_target
       (Popup.mkWorld (Popup.editors w)
          (<[a := updateBounds box]> (Popup.objects w)) p)).
Proof.
  unfold Popup.currentBox_target. simpl. intros Htarget ->.
  destruct (Popup.currentBox (Popup.popup w)) as [a'|]; [|discriminate].
  simpl in *. destruct (Popup.objects w !! a') as [o|] eqn:Eo;
    [|discriminate].
  simpl in Htarget. injection Htarget as -> ->.
  rewrite lookup_insert_eq. simpl. eauto.
Qed.

Lemma move_step (offset : Z) (w : Popup.World) :
  offset = 1 \/ offset = -1 ->
  navigable w ->
  exists w',
    Popup.move offset (-1) w = Ok w' /\
    navigable w' /\
    Popup.numOptions (Popup.popup w') = Popup.numOptions (Popup.popup w) /\
    Popup.currentidx (Popup.popup w')
    = (Popup.currentidx (Popup.popup w) + offset)
      mod Z.min 20 (Popup.numOptions (Popup.popup w)).
Proof.
  intros Hoff (Hed & Hn & Hlen & Hidx & Hbox).
  remember (Z.min 20 (Popup.numOptions (Popup.popup w))) as n eqn:En.
  assert (Hn20 : 1 <= n <= 20) by lia.
  remember ((Popup.currentidx (Popup.popup w) + offset) mod n) as i eqn:Ei.
  assert (Hi : 0 <= i < n) by (rewrite Ei; apply Z.mod_pos_bound; lia).
  unfold Popup.move. destruct Hed as [ed Hed]. rewrite Hed. simpl.
  replace (Popup.numOptions (Popup.popup w) =? 0) with false
    by (symmetry; apply Z.eqb_neq; lia).
  assert (Hadd : CInt.add (Popup.currentidx (Popup.popup w)) offset
                 = Popup.currentidx (Popup.popup w) + offset)
    by (apply wrap_in_range; unfold CInt.INT_MIN, CInt.INT_MAX; lia).
  rewrite !Hadd, <- En, rem_wrapped_offset by lia. rewrite <- Ei.
  rewrite bind_Ok.
  destruct (lookup_lt_is_Some_2 (Popup.buttons (Popup.popup w)) (Z.to_nat i)
              ltac:(lia)) as [b Hb].
  rewrite (update_button_Z _ _ _ _ (proj1 Hi) Hb). simpl.
  destruct (Popup.autoCompleteComponent (Popup.popup w)) as [ac|] eqn:Hac.
  - destruct (Hbox ltac:(eauto)) as [[a box] Htarget].
    unfold at_index. replace (0 <=? i) with true
      by (symmetry; apply Z.leb_le; lia).
    rewrite list_lookup_insert_eq by lia. simpl.
    erewrite currentBox_updateBounds_ok; [|exact Htarget|reflexivity].
    eexists. split; [reflexivity|]. simpl.
    split; [|split; reflexivity].
    unfold navigable. cbn [Popup.popup Popup.openedEditor Popup.numOptions
      Popup.buttons Popup.currentidx Popup.autoCompleteComponent
      Popup.set_autoCompleteComponent Popup.set_buttons Popup.set_currentidx].
    rewrite Hed, length_insert.
    split; [eauto|]. split; [lia|]. split; [exact Hlen|]. split; [lia|].
    intros _. apply (currentBox_target_after_updateBounds w _ a box Htarget).
    reflexivity.
  - eexists. split; [reflexivity|]. simpl.
    split; [|split; reflexivity].
    unfold navigable. cbn [Popup.popup Popup.openedEditor Popup.numOptions
      Popup.buttons Popup.currentidx Popup.autoCompleteComponent
      Popup.set_popup Popup.set_buttons Popup.set_currentidx].
    rewrite Hed, Hac, length_insert.
    split; [eauto|]. split; [lia|]. split; [exact Hlen|]. split; [lia|].
    intros [x Hx]. discriminate.
Qed.

Lemma navigation_run (hvccObjects : list string) (offsets : list Z) :
  Forall (fun offset => offset = 1 \/ offset = -1) offsets ->
  forall w,
    navigable w ->
    exists w',
      Popup.run hvccObjects (navigation offsets) w = Ok w' /\
      navigable w' /\
      Popup.numOptions (Popup.popup w') = Popup.numOptions (Popup.popup w) /\
      Popup.currentidx (Popup.popup w')
      = (Popup.currentidx (Popup.popup w) + total_offset offsets)
        mod Z.min 20 (Popup.numOptions (Popup.popup w)).
Proof.
  induction 1 as [|offset offsets Hoff _ IH]; intros w Hnav.
  - exists w. simpl. split; [reflexivity|]. split; [exact Hnav|].
    split; [reflexivity|].
    destruct Hnav as (_ & _ & _ & Hidx & _).
    rewrite Z.add_0_r, Z.mod_small by lia. reflexivity.
  - destruct (move_step offset w Hoff Hnav) as (w1 & Hmove & Hnav1 & Hn1 & Hi1).
    destruct (IH w1 Hnav1) as (w' & Hrun & Hnav' & Hn' & Hi').
    exists w'. simpl. rewrite Hmove. simpl. split; [exact Hrun|].
    split; [exact Hnav'|]. split; [congruence|].
    rewrite Hi', Hn1, Hi1.
    destruct Hnav as (_ & Hn & _).
    rewrite Zplus_mod_idemp_l. f_equal. lia.
Qed.

(** C7: over any run of up and down key presses with at least one
    suggestion on offer, the selected index stays in
    [0, min (20, numOptions)), moving by wrap-around; the popup has twenty
    buttons, however it is driven, and its button holder is never taller
    than twenty rows. *)
Theorem navigation_keeps_selection_in_range
    (hvccObjects : list string) (offsets : list Z) (w : Popup.World) :
  Forall (fun offset => offset = 1 \/ offset = -1) offsets ->
  navigable w ->
  (exists w',
     Popup.run hvccObjects (navigation offsets) w = Ok w' /\
     0 <= Popup.currentidx (Popup.popup w')
       < Z.min 20 (Popup.numOptions (Popup.popup w')) /\
     Popup.currentidx (Popup.popup w')
     = (Popup.currentidx (Popup.popup w) + total_offset offsets)
       mod Z.min 20 (Popup.numOptions (Popup.popup w)) /\
     List.length (Popup.buttons (Popup.popup w')) = 20%nat /\
     Popup.buttonholderHeight (Popup.resized (Popup.popup w')) <= 20 * 25 + 8) /\
  (forall evs w0 w1,
     Popup.popup w0 = Popup.create ->
     Popup.run hvccObjects evs w0 = Ok w1 ->
     List.length (Popup.buttons (Popup.popup w1)) = 20%nat).
Proof.
  intros Hoffsets Hnav. split.
  - destruct (navigation_run hvccObjects offsets Hoffsets w Hnav)
      as (w' & Hrun & (_ & Hn & Hlen & Hidx & _) & _ & Hi).
    exists w'. repeat split; try assumption; try lia.
    unfold Popup.resized. simpl. unfold CInt.add, CInt.mul.
    rewrite (wrap_in_range (_ * 25))
      by (unfold CInt.INT_MIN, CInt.INT_MAX; lia).
    rewrite wrap_in_range by (unfold CInt.INT_MIN, CInt.INT_MAX; lia).
    lia.
  - intros evs w0 w1 Hnew Hrun.
    rewrite (run_buttons_length _ _ _ _ Hrun), Hnew. reflexivity.
Qed.

Lemma navigation_keeps_selection_in_range_witness :
  navigable world_with_two_suggestions /\
  exists w',
    Popup.run [] (navigation [1; 1; 1; -1]) world_with_two_suggestions = Ok w' /\
    Popup.currentidx (Popup.popup w') = 0.
Proof.
  assert (Hnav : navigable world_with_two_suggestions).
  { unfold navigable. simpl.
    split; [eexists; reflexivity|]. split; [lia|]. split; [reflexivity|].
    split; [lia|]. intros _. eexists. reflexivity. }
  split; [exact Hnav|].
  destruct (navigation_keeps_selection_in_range [] [1; 1; 1; -1]
              world_with_two_suggestions) as [(w' & Hrun & _ & Hi & _) _].
  - repeat (constructor; [lia|]). constructor.
  - exact Hnav.
  - exists w'. split; [exact Hrun|]. rewrite Hi. reflexivity.
Defined.

(** ** Plugin mode *)

Section PluginModeFacts.

Variable isStandalone : bool.
Variable JUCE_LINUX : bool.
Variable unrepresentable : Float32.t -> Z.
Variable getValue_float : JVar.var -> Float32.t.
Variable getValue_bool : JVar.var -> bool.

(** C6: the constructor sets the canvas zoom to 1.0, locks it and puts it
    in presentation mode, detaches it from its viewport, makes it a child
    of the content component and places it at minus the canvas origin. *)
Theorem create_embeds_canvas (a : addr) (w : PluginMode.World)
    (c : PluginMode.Canvas) :
  PluginMode.canvases w !! a = Some c ->
  exists v w' c',
    PluginMode.create isStandalone unrepresentable getValue_float
      getValue_bool a w = Ok (v, w') /\
    PluginMode.canvases w' !! a = Some c' /\
    PluginMode.zoomScale c' = JVarFloat.of_float Float32.one /\
    PluginMode.locked c' = JVar.var_bool true /\
    PluginMode.presentationMode c' = JVar.var_bool true /\
    PluginMode.viewedComponent c' = false /\
    PluginMode.parent c' = PluginMode.PluginModeContent /\
    PluginMode.position c' = Point_neg (PluginMode.canvasOrigin c) /\
    PluginMode.canvasOrigin c' = PluginMode.canvasOrigin c.
Proof.
  intros Hc. unfold PluginMode.create. rewrite Hc.
  eexists _, _, _. split; [reflexivity|].
  split; [apply lookup_insert_eq|]. repeat split.
Qed.

(** C2: closing plugin mode right after entering it gives the canvas back
    the zoom scale, position, locked flag and presentation flag the
    constructor saved, and makes it the viewport's viewed component again;
    read back with [getValue], the three values are those at entry. *)
Theorem closePluginMode_restores_canvas (a : addr) (w : PluginMode.World)
    (c : PluginMode.Canvas) :
  PluginMode.canvases w !! a = Some c ->
  (forall b, getValue_bool (JVar.var_bool b) = b) ->
  getValue_float (JVarFloat.of_float (getValue_float (PluginMode.zoomScale c)))
  = getValue_float (PluginMode.zoomScale c) ->
  exists v w1 c2,
    PluginMode.create isStandalone unrepresentable getValue_float
      getValue_bool a w = Ok (v, w1) /\
    PluginMode.originalCanvasScale v
    = getValue_float (PluginMode.zoomScale c) /\
    PluginMode.originalCanvasPos v = PluginMode.position c /\
    PluginMode.originalLockedMode v = getValue_bool (PluginMode.locked c) /\
    PluginMode.originalPresentationMode v
    = getValue_bool (PluginMode.presentationMode c) /\
    PluginMode.canvases (PluginMode.closePluginMode v w1) !! a = Some c2 /\
    PluginMode.zoomScale c2
    = JVarFloat.of_float (PluginMode.originalCanvasScale v) /\
    PluginMode.position c2 = PluginMode.originalCanvasPos v /\
    PluginMode.locked c2 = JVar.var_bool (PluginMode.originalLockedMode v) /\
    PluginMode.presentationMode c2
    = JVar.var_bool (PluginMode.originalPresentationMode v) /\
    PluginMode.viewedComponent c2 = true /\
    PluginMode.parent c2 = PluginMode.ViewportHolder /\
    getValue_float (PluginMode.zoomScale c2)
    = getValue_float (PluginMode.zoomScale c) /\
    PluginMode.position c2 = PluginMode.position c /\
    getValue_bool (PluginMode.locked c2) = getValue_bool (PluginMode.locked c) /\
    getValue_bool (PluginMode.presentationMode c2)
    = getValue_bool (PluginMode.presentationMode c).
Proof.
  intros Hc Hbool Hfloat. unfold PluginMode.create. rewrite Hc.
  eexists _, _, _. split; [reflexivity|].
  unfold PluginMode.closePluginMode. cbn [PluginMode.canvases PluginMode.cnv].
  rewrite lookup_insert_eq. cbn [PluginMode.canvases].
  do 4 (split; [reflexivity|]).
  split; [apply lookup_insert_eq|].
  cbn. rewrite !Hbool. repeat split. exact Hfloat.
Qed.

(** C3: every [resized] gives the constrainer the aspect ratio
    [width / (height + controlsHeight / scale)], with
    [scale = getWidth () / width] and [controlsHeight] 0 in a fullscreen
    window and [titlebarHeight + nativeTitleBarHeight] otherwise; [width]
    and [height] are the patch's size plus one, fixed by the constructor
    and left alone by [resized]. *)
Theorem resized_sets_fixed_aspect_ratio (w : PluginMode.World)
    (v : PluginMode.t) :
  let controlsHeight :=
    Float32.of_int
      (if PluginMode.isWindowFullscreen JUCE_LINUX v w then 0
       else CInt.add PluginMode.titlebarHeight
              (PluginMode.nativeTitleBarHeight v)) in
  let scale :=
    Float32.div (Float32.of_int (PluginMode.getWidth v)) (PluginMode.width v) in
  let v' := PluginMode.resized isStandalone JUCE_LINUX unrepresentable w v in
  PluginMode.fixedAspectRatio v'
  = Float32.div (PluginMode.width v)
      (Float32.add (PluginMode.height v) (Float32.div controlsHeight scale)) /\
  PluginMode.width v' = PluginMode.width v /\
  PluginMode.height v' = PluginMode.height v /\
  forall a w0 c,
    PluginMode.canvases w0 !! a = Some c ->
    exists v0 w1,
      PluginMode.create isStandalone unrepresentable getValue_float
        getValue_bool a w0 = Ok (v0, w1) /\
      PluginMode.width v0
      = Float32.add (JVarFloat.to_float (PluginMode.patchWidth c)) Float32.one /\
      PluginMode.height v0
      = Float32.add (JVarFloat.to_float (PluginMode.patchHeight c)) Float32.one.
Proof.
  intros controlsHeight scale v'. subst v'. unfold PluginMode.resized.
  split; [|split; [|split]].
  - destruct (isStandalone && _); [reflexivity|].
    destruct isStandalone; reflexivity.
  - destruct (isStandalone && _); [reflexivity|].
    destruct isStandalone; reflexivity.
  - destruct (isStandalone && _); [reflexivity|].
    destruct isStandalone; reflexivity.
  - intros a w0 c Hc. unfold PluginMode.create. rewrite Hc.
    eexists _, _. repeat split.
Qed.

End PluginModeFacts.

Lemma isWindowFullscreen_set_fixedAspectRatio (JUCE_LINUX : bool)
    (r : Float32.t) (v : PluginMode.t) (w : PluginMode.World) :
  PluginMode.isWindowFullscreen JUCE_LINUX
    (PluginMode.set_fixedAspectRatio r v) w
  = PluginMode.isWindowFullscreen JUCE_LINUX v w.
Proof. reflexivity. Qed.

(** C4: in the standalone build with a fullscreen window, [resized] scales
    the content by the smaller of [getWidth () / width] and
    [getHeight () / height], puts its top-left corner at
    [(getWidth () - int (width * scale)) / 2 / scale] and the same for the
    height, each handed to [setTopLeftPosition] as an [int], and gives the
    title bar empty bounds. *)
Theorem resized_fullscreen_layout (JUCE_LINUX : bool)
    (unrepresentable : Float32.t -> Z) (w : PluginMode.World)
    (v : PluginMode.t) :
  PluginMode.isWindowFullscreen JUCE_LINUX v w = true ->
  let to_int := Float32.to_int unrepresentable in
  let scale :=
    Float32.jmin
      (Float32.div (Float32.of_int (PluginMode.getWidth v)) (PluginMode.width v))
      (Float32.div (Float32.of_int (PluginMode.getHeight v))
         (PluginMode.height v)) in
  let scaledWidth := to_int (Float32.mul (PluginMode.width v) scale) in
  let scaledHeight := to_int (Float32.mul (PluginMode.height v) scale) in
  let x := Z.quot (CInt.sub (PluginMode.getWidth v) scaledWidth) 2 in
  let y := Z.quot (CInt.sub (PluginMode.getHeight v) scaledHeight) 2 in
  let v' := PluginMode.resized true JUCE_LINUX unrepresentable w v in
  PluginMode.contentTransform v' = scale /\
  getPosition (PluginMode.content v')
  = mkPoint (to_int (Float32.div (Float32.of_int x) scale))
      (to_int (Float32.div (Float32.of_int y) scale)) /\
  PluginMode.titleBar v' = mkRectangle 0 0 0 0.
Proof.
  intros Hfull to_int scale scaledWidth scaledHeight x y v'. subst v'.
  unfold PluginMode.resized.
  rewrite isWindowFullscreen_set_fixedAspectRatio, Hfull.
  repeat split.
Qed.

Lemma resized_fullscreen_layout_witness :
  PluginMode.isWindowFullscreen true fullscreen_view
    (sample_plugin_world false) = true /\
  getPosition
    (PluginMode.content
       (PluginMode.resized true true x86_unrepresentable
          (sample_plugin_world false) fullscreen_view))
  = mkPoint 66 0.
Proof.
  split; [reflexivity|].
  destruct (resized_fullscreen_layout true x86_unrepresentable
              (sample_plugin_world false) fullscreen_view eq_refl)
    as (_ & Hpos & _).
  rewrite Hpos. vm_compute. reflexivity.
Defined.

Lemma create_embeds_canvas_witness :
  PluginMode.canvases (sample_plugin_world false) !! 3%positive
  = Some sample_canvas /\
  exists v w' c',
    PluginMode.create true x86_unrepresentable JVarFloat.to_float JVar.to_bool
      3%positive (sample_plugin_world false) = Ok (v, w') /\
    PluginMode.canvases w' !! 3%positive = Some c' /\
    PluginMode.position c' = mkPoint (-5000) (-4000).
Proof.
  split; [reflexivity|].
  destruct (create_embeds_canvas true x86_unrepresentable JVarFloat.to_float
              JVar.to_bool 3%positive (sample_plugin_world false)
              sample_canvas eq_refl)
    as (v & w' & c' & Hrun & Hc' & _ & _ & _ & _ & _ & Hpos & _).
  exists v, w', c'. split; [exact Hrun|]. split; [exact Hc'|].
  rewrite Hpos. reflexivity.
Defined.

Lemma closePluginMode_restores_canvas_witness :
  PluginMode.canvases (sample_plugin_world false) !! 3%positive
  = Some sample_canvas /\
  exists v w1 c2,
    PluginMode.create true x86_unrepresentable JVarFloat.to_float JVar.to_bool
      3%positive (sample_plugin_world false) = Ok (v, w1) /\
    PluginMode.canvases (PluginMode.closePluginMode v w1) !! 3%positive
    = Some c2 /\
    PluginMode.zoomScale c2 = PluginMode.zoomScale sample_canvas /\
    PluginMode.position c2 = mkPoint (-120) (-80).
Proof.
  split; [reflexivity|].
  destruct (closePluginMode_restores_canvas true x86_unrepresentable
              JVarFloat.to_float JVar.to_bool 3%positive
              (sample_plugin_world false) sample_canvas eq_refl)
    as (v & w1 & c2 & Hrun & Hscale & _ & _ & _ & Hc2 & Hzoom & _ & _ & _ & _
        & _ & _ & Hpos & _).
  - intros b. reflexivity.
  - vm_compute. reflexivity.
  - exists v, w1, c2. split; [exact Hrun|]. split; [exact Hc2|].
    split; [|exact Hpos]. rewrite Hzoom, Hscale. vm_compute. reflexivity.
Defined.

Lemma resized_sets_fixed_aspect_ratio_witness :
  PluginMode.canvases (sample_plugin_world false) !! 3%positive
  = Some sample_canvas /\
  exists v0 w1,
    PluginMode.create true x86_unrepresentable JVarFloat.to_float JVar.to_bool
      3%positive (sample_plugin_world false) = Ok (v0, w1) /\
    PluginMode.width v0 = Float32.of_int 400 /\
    PluginMode.height v0 = Float32.of_int 300.
Proof.
  split; [reflexivity|].
  destruct (resized_sets_fixed_aspect_ratio true true x86_unrepresentable
              JVarFloat.to_float JVar.to_bool (sample_plugin_world false)
              fullscreen_view)
    as (_ & _ & _ & Hcreate).
  destruct (Hcreate 3%positive (sample_plugin_world false) sample_canvas
              eq_refl) as (v0 & w1 & Hrun & Hw & Hh).
  exists v0, w1. split; [exact Hrun|].
  rewrite Hw, Hh. split; vm_compute; reflexivity.
Defined.

(** * Further properties of the code *)

(** ** The overlay on its own *)

Lemma string_app_empty_r (s : string) : (s ++ "")%string = s.
Proof.
  induction s as [|c s IH]; [reflexivity|].
  change (String c (s ++ "")%string = String c s). f_equal. exact IH.
Qed.

Lemma string_app_assoc (a b c : string) :
  ((a ++ b) ++ c)%string = (a ++ (b ++ c))%string.
Proof.
  induction a as [|x a IH]; [reflexivity|].
  change (String x ((a ++ b) ++ c)%string = String x (a ++ (b ++ c))%string).
  f_equal. exact IH.
Qed.

Lemma fromFirstOccurrenceOf_empty (sub : string) (ic : bool) :
  JString.fromFirstOccurrenceOf "" sub false ic = EmptyString.
Proof.
  unfold JString.fromFirstOccurrenceOf. simpl.
  destruct (JString.startsWith ic sub ""); [|reflexivity].
  destruct (0 + String.length sub)%nat; reflexivity.
Qed.

(** Once the editor has been deleted the overlay is inert: there is nothing
    to suggest, and neither a new suggestion nor accepting one changes
    anything. *)
Theorem overlay_without_editor_is_inert
    (editors : gmap addr TextEditor) (ac : AutoComplete.t)
    (suggestionText : string) :
  editors !! AutoComplete.editor ac = None ->
  AutoComplete.getSuggestion editors ac = EmptyString /\
  AutoComplete.setSuggestion editors suggestionText ac = ac /\
  AutoComplete.autocomplete editors ac = editors /\
  AutoComplete.getSuggestion editors
    (AutoComplete.setSuggestion editors suggestionText ac) = EmptyString.
Proof.
  intros Hed.
  unfold AutoComplete.getSuggestion, AutoComplete.setSuggestion,
    AutoComplete.autocomplete.
  rewrite Hed. repeat split. rewrite Hed. reflexivity.
Qed.

Lemma overlay_without_editor_is_inert_witness :
  editors_typed_me !! AutoComplete.editor (AutoComplete.create 2%positive)
  = None /\
  AutoComplete.setSuggestion editors_typed_me "metro"
    (AutoComplete.create 2%positive) = AutoComplete.create 2%positive.
Proof.
  split; [reflexivity|].
  apply (overlay_without_editor_is_inert editors_typed_me
           (AutoComplete.create 2%positive) "metro" eq_refl).
Defined.

(** Setting the empty suggestion clears the overlay whatever was typed: it
    is hidden, nothing remains to complete, and accepting would leave the
    editor's text as it is. *)
Theorem setSuggestion_empty_clears
    (editors : gmap addr TextEditor) (ac : AutoComplete.t) (ed : TextEditor) :
  editors !! AutoComplete.editor ac = Some ed ->
  let ac' := AutoComplete.setSuggestion editors "" ac in
  AutoComplete.isVisible ac' = false /\
  AutoComplete.suggestion ac' = EmptyString /\
  AutoComplete.editor ac' = AutoComplete.editor ac /\
  AutoComplete.getSuggestion editors ac' = getText ed /\
  AutoComplete.autocomplete editors ac' = editors.
Proof.
  intros Hed ac'.
  assert (Hac' : ac' = AutoComplete.mk "" (AutoComplete.editor ac) false).
  { unfold ac', AutoComplete.setSuggestion. rewrite Hed.
    rewrite fromFirstOccurrenceOf_empty. reflexivity. }
  clearbody ac'. subst ac'. simpl. repeat split.
  - unfold AutoComplete.getSuggestion. simpl. rewrite Hed.
    apply string_app_empty_r.
  - unfold AutoComplete.autocomplete. simpl. rewrite Hed.
    rewrite string_app_empty_r. apply insert_id. rewrite Hed.
    destruct ed. reflexivity.
Qed.

Lemma setSuggestion_empty_clears_witness :
  editors_typed_me !! AutoComplete.editor (AutoComplete.create 1%positive)
  = Some (mkTextEditor "me") /\
  AutoComplete.isVisible
    (AutoComplete.setSuggestion editors_typed_me ""
       (AutoComplete.create 1%positive)) = false.
Proof.
  split; [reflexivity|].
  apply (setSuggestion_empty_clears editors_typed_me
           (AutoComplete.create 1%positive) (mkTextEditor "me") eq_refl).
Defined.

Lemma upToFirstOccurrenceOf_without (s sub : string) :
  JString.contains s sub = false ->
  JString.upToFirstOccurrenceOf s sub false false = s.
Proof.
  unfold JString.upToFirstOccurrenceOf, JString.contains. intros H.
  destruct (JString.indexOf false sub s); [|reflexivity].
  rewrite bool_decide_eq_false in H. exfalso. apply H. eauto.
Qed.

Lemma indexOf_at_start (ic : bool) (sub s : string) :
  JString.startsWith ic sub s = true -> JString.indexOf ic sub s = Some 0%nat.
Proof. intros H. destruct s; simpl in *; rewrite H; reflexivity. Qed.

(** Accepting the completion of a name that begins with what was typed
    (letter case aside) keeps the typed characters and appends the rest of
    the name; when the typed text is literally the beginning of the name,
    the editor ends up holding the name. *)
Theorem autocomplete_completes_typed_prefix
    (editors : gmap addr TextEditor) (ac : AutoComplete.t) (ed : TextEditor)
    (suggestionText : string) :
  editors !! AutoComplete.editor ac = Some ed ->
  JString.contains (getText ed) " " = false ->
  JString.startsWith true (getText ed) suggestionText = true ->
  let ac' := AutoComplete.setSuggestion editors suggestionText ac in
  let completed :=
    (getText ed ++ JString.dropChars (String.length (getText ed)) suggestionText)%string in
  AutoComplete.getSuggestion editors ac' = completed /\
  AutoComplete.autocomplete editors ac'
  = <[AutoComplete.editor ac := mkTextEditor completed]> editors /\
  (JString.startsWith false (getText ed) suggestionText = true ->
   completed = suggestionText).
Proof.
  intros Hed Hsp Hpre ac' completed.
  assert (Hac' : AutoComplete.suggestion ac'
                 = JString.dropChars (String.length (getText ed)) suggestionText
                 /\ AutoComplete.editor ac' = AutoComplete.editor ac).
  { unfold ac', AutoComplete.setSuggestion. rewrite Hed. simpl.
    rewrite (upToFirstOccurrenceOf_without _ _ Hsp).
    unfold JString.fromFirstOccurrenceOf.
    rewrite (indexOf_at_start _ _ _ Hpre). split; reflexivity. }
  destruct Hac' as [Hs He]. clearbody ac'.
  split; [|split].
  - unfold AutoComplete.getSuggestion. rewrite He, Hed, Hs. reflexivity.
  - unfold AutoComplete.autocomplete. rewrite He, Hed, Hs. reflexivity.
  - intros Hexact. apply startsWith_exact_app, Hexact.
Qed.

Lemma autocomplete_completes_typed_prefix_witness :
  editors_typed_me !! AutoComplete.editor (AutoComplete.create 1%positive)
  = Some (mkTextEditor "me") /\
  AutoComplete.autocomplete editors_typed_me
    (AutoComplete.setSuggestion editors_typed_me "Metro"
       (AutoComplete.create 1%positive))
  = <[1%positive := mkTextEditor "metro"]> editors_typed_me.
Proof.
  split; [reflexivity|].
  destruct (autocomplete_completes_typed_prefix editors_typed_me
              (AutoComplete.create 1%positive) (mkTextEditor "me") "Metro"
              eq_refl eq_refl eq_refl) as (_ & H & _).
  exact H.
Defined.

(** [autocomplete] keeps the stored remainder: called again before a new
    suggestion is set, it appends the remainder a second time. *)
Theorem autocomplete_twice_appends_twice
    (editors : gmap addr TextEditor) (ac : AutoComplete.t) (ed : TextEditor) :
  editors !! AutoComplete.editor ac = Some ed ->
  AutoComplete.autocomplete (AutoComplete.autocomplete editors ac) ac
  = <[AutoComplete.editor ac :=
        mkTextEditor
          (getText ed ++ AutoComplete.suggestion ac
             ++ AutoComplete.suggestion ac)%string]> editors.
Proof.
  intros Hed. unfold AutoComplete.autocomplete at 2. rewrite Hed.
  unfold AutoComplete.autocomplete. rewrite lookup_insert_eq. simpl.
  rewrite insert_insert_eq, string_app_assoc. reflexivity.
Qed.

Lemma autocomplete_twice_appends_twice_witness :
  editors_typed_me !! AutoComplete.editor (AutoComplete.mk "tro" 1%positive true)
  = Some (mkTextEditor "me") /\
  AutoComplete.autocomplete
    (AutoComplete.autocomplete editors_typed_me
       (AutoComplete.mk "tro" 1%positive true))
    (AutoComplete.mk "tro" 1%positive true)
  = <[1%positive := mkTextEditor "metrotro"]> editors_typed_me.
Proof.
  split; [reflexivity|].
  apply (autocomplete_twice_appends_twice editors_typed_me
           (AutoComplete.mk "tro" 1%positive true) (mkTextEditor "me") eq_refl).
Defined.

(** ** Opening and closing the callout box *)

Lemma deref_Some {A : Type} (p : Pointer) (a : A) : deref p (Some a) = Ok a.
Proof. reflexivity. Qed.

Lemma destroy_autoCompleteComponent_ok (w : Popup.World) :
  (forall ac, Popup.autoCompleteComponent (Popup.popup w) = Some ac ->
     is_Some (Popup.editors w !! AutoComplete.editor ac)) ->
  Popup.destroy_autoCompleteComponent w
  = Ok (Popup.set_popup
          (Popup.set_autoCompleteComponent None (Popup.popup w)) w).
Proof.
  intros Hlive. unfold Popup.destroy_autoCompleteComponent.
  destruct (Popup.autoCompleteComponent (Popup.popup w)) as [ac|] eqn:Hac.
  - destruct (Hlive ac eq_refl) as [ed Hed]. rewrite Hed. reflexivity.
  - destruct w as [eds objs p]. destruct p. simpl in *. subst. reflexivity.
Qed.

(** On a popup that has no overlay, or whose overlay still has its editor,
    opening the callout box for a live object and editor and removing it
    again leaves the popup closed (no box, no editor, no overlay, hidden,
    off the desktop) with its rows, [numOptions], [currentidx] and [state]
    as they were; in between, the box, the editor and a fresh overlay are
    in place.  (An overlay whose editor is gone makes [createCalloutBox]
    fault instead, in the old overlay's destructor.) *)
Theorem createCalloutBox_then_removeCalloutBox
    (object editor : addr) (w : Popup.World) (o : Object) (ed : TextEditor) :
  Popup.objects w !! object = Some o ->
  Popup.editors w !! editor = Some ed ->
  (forall ac, Popup.autoCompleteComponent (Popup.popup w) = Some ac ->
     is_Some (Popup.editors w !! AutoComplete.editor ac)) ->
  exists w1 w2,
    Popup.createCalloutBox object editor w = Ok w1 /\
    Popup.currentBox (Popup.popup w1) = Some object /\
    Popup.openedEditor (Popup.popup w1) = Some editor /\
    Popup.autoCompleteComponent (Popup.popup w1)
    = Some (AutoComplete.create editor) /\
    Popup.isVisible (Popup.popup w1) = false /\
    Popup.removeCalloutBox w1 = Ok w2 /\
    Popup.popup w2
    = Popup.mk (Popup.numOptions (Popup.popup w))
        (Popup.currentidx (Popup.popup w)) None
        (Popup.buttons (Popup.popup w)) (Popup.state (Popup.popup w))
        None None false false (Popup.buttonholderHeight (Popup.popup w)) /\
    Popup.editors w2 = Popup.editors w /\
    Popup.objects w2 = Popup.objects w.
Proof.
  intros Ho Hed Hlive. unfold Popup.createCalloutBox.
  rewrite Ho, Hed. rewrite !deref_Some, !bind_Ok.
  rewrite destroy_autoCompleteComponent_ok by exact Hlive.
  rewrite bind_Ok. eexists _, _. split; [reflexivity|].
  do 4 (split; [reflexivity|]).
  unfold Popup.removeCalloutBox.
  rewrite destroy_autoCompleteComponent_ok.
  2:{ cbn. intros ac [= <-]. cbn. rewrite Hed. eauto. }
  cbn. rewrite Hed. cbn. repeat split.
Qed.

Lemma createCalloutBox_then_removeCalloutBox_witness :
  Popup.objects (sample_world sample_library false "me") !! 7%positive
  = Some (mkObject sample_library (JVar.var_bool false) 0) /\
  exists w1 w2,
    Popup.createCalloutBox 7%positive 1%positive
      (sample_world sample_library false "me") = Ok w1 /\
    Popup.removeCalloutBox w1 = Ok w2 /\
    Popup.currentBox (Popup.popup w2) = None.
Proof.
  split; [reflexivity|].
  destruct (createCalloutBox_then_removeCalloutBox 7%positive 1%positive
              (sample_world sample_library false "me")
              (mkObject sample_library (JVar.var_bool false) 0)
              (mkTextEditor "me") eq_refl eq_refl)
    as (w1 & w2 & H1 & _ & _ & _ & _ & H2 & Hp & _).
  - intros ac [= <-]. eexists. reflexivity.
  - exists w1, w2. split; [exact H1|]. split; [exact H2|].
    rewrite Hp. reflexivity.
Defined.

(** [removeCalloutBox] needs an opened editor: on a popup without one, a
    new popup or one whose box has just been removed, it calls
    [removeListener] through the null [openedEditor]. *)
Theorem removeCalloutBox_without_editor_faults (w : Popup.World) :
  Popup.openedEditor (Popup.popup w) = None ->
  (forall ac, Popup.autoCompleteComponent (Popup.popup w) = Some ac ->
     is_Some (Popup.editors w !! AutoComplete.editor ac)) ->
  Popup.removeCalloutBox w = Crash (NullDereference ptr_openedEditor) /\
  forall w0 w1,
    Popup.removeCalloutBox w0 = Ok w1 ->
    Popup.removeCalloutBox w1 = Crash (NullDereference ptr_openedEditor).
Proof.
  intros Hnone Hlive. split.
  - unfold Popup.removeCalloutBox.
    rewrite destroy_autoCompleteComponent_ok.
    2:{ cbn. exact Hlive. }
    rewrite bind_Ok. cbn. rewrite Hnone. reflexivity.
  - intros w0 w1 H0. unfold Popup.removeCalloutBox in H0.
    apply bind_Ok_inv in H0 as (wa & Ha & H0).
    apply bind_Ok_inv in H0 as (e & _ & H0).
    apply bind_Ok_inv in H0 as (ed & _ & H0). injection H0 as <-.
    assert (Hover : Popup.autoCompleteComponent (Popup.popup wa) = None).
    { unfold Popup.destroy_autoCompleteComponent in Ha. cbn in Ha.
      destruct (Popup.autoCompleteComponent (Popup.popup w0)) eqn:Hac.
      - apply bind_Ok_inv in Ha as (x & _ & Ha). injection Ha as <-.
        reflexivity.
      - injection Ha as <-. cbn. exact Hac. }
    unfold Popup.removeCalloutBox, Popup.destroy_autoCompleteComponent.
    cbn. rewrite Hover. reflexivity.
Qed.

Lemma removeCalloutBox_without_editor_faults_witness :
  Popup.openedEditor
    (Popup.popup (Popup.mkWorld editors_typed_me ∅ Popup.create)) = None /\
  Popup.removeCalloutBox (Popup.mkWorld editors_typed_me ∅ Popup.create)
  = Crash (NullDereference ptr_openedEditor).
Proof.
  split; [reflexivity|].
  apply (removeCalloutBox_without_editor_faults
           (Popup.mkWorld editors_typed_me ∅ Popup.create) eq_refl).
  intros ac H. discriminate H.
Defined.

(** The overlay's destructor uses its editor without testing the pointer:
    if the editor was deleted while the box was open, removing the box, or
    opening another one, faults there. *)
Theorem overlay_destructor_needs_its_editor
    (w : Popup.World) (ac : AutoComplete.t) (object editor : addr)
    (o : Object) (ed : TextEditor) :
  Popup.autoCompleteComponent (Popup.popup w) = Some ac ->
  Popup.editors w !! AutoComplete.editor ac = None ->
  Popup.removeCalloutBox w = Crash (NullDereference ptr_editor) /\
  (Popup.objects w !! object = Some o ->
   Popup.editors w !! editor = Some ed ->
   Popup.createCalloutBox object editor w
   = Crash (NullDereference ptr_editor)).
Proof.
  intros Hac Hgone. split.
  - unfold Popup.removeCalloutBox, Popup.destroy_autoCompleteComponent.
    cbn. rewrite Hac, Hgone. reflexivity.
  - intros Ho Hed.
    unfold Popup.createCalloutBox, Popup.destroy_autoCompleteComponent.
    rewrite Ho, Hed. cbn. rewrite Hac, Hgone. reflexivity.
Qed.

Lemma overlay_destructor_needs_its_editor_witness :
  Popup.autoCompleteComponent
    (Popup.popup
       (Popup.set_editors ∅ (sample_world sample_library false "me")))
  = Some (AutoComplete.create 1%positive) /\
  Popup.removeCalloutBox
    (Popup.set_editors ∅ (sample_world sample_library false "me"))
  = Crash (NullDereference ptr_editor).
Proof.
  split; [reflexivity|].
  apply (overlay_destructor_needs_its_editor
           (Popup.set_editors ∅ (sample_world sample_library false "me"))
           (AutoComplete.create 1%positive) 7%positive 1%positive
           (mkObject sample_library (JVar.var_bool false) 0)
           (mkTextEditor "me") eq_refl (lookup_empty _)).
Defined.
(** ** Selecting a row *)

Lemma rem_wrapped_turn (x n : Z) :
  - n <= x <= CInt.INT_MAX - 20 -> 1 <= n <= 20 ->
  CInt.rem (CInt.add x n) n = Some (x mod n).
Proof.
  intros Hx Hn. unfold CInt.rem, CInt.add.
  replace (n =? 0) with false by (symmetry; apply Z.eqb_neq; lia).
  rewrite (wrap_in_range (x + n))
    by (unfold CInt.INT_MIN, CInt.INT_MAX in *; lia).
  rewrite Z.rem_mod_nonneg by lia.
  replace ((x + n) mod n) with (x mod n)
    by (rewrite <- (Z.mul_1_l n) at 2; rewrite Z.mod_add by lia; reflexivity).
  pose proof (Z.mod_pos_bound x n ltac:(lia)).
  rewrite wrap_in_range by (unfold CInt.INT_MIN, CInt.INT_MAX; lia).
  reflexivity.
Qed.

(** What [move] does once the new index [x] has been stored, when there is
    at least one option and [x] is not more than one turn below zero. *)
Lemma move_selects (offset setto x : Z) (w : Popup.World) :
  x = (if setto =? -1
       then CInt.add (Popup.currentidx (Popup.popup w)) offset
       else setto) ->
  is_Some (Popup.openedEditor (Popup.popup w)) ->
  1 <= Popup.numOptions (Popup.popup w) ->
  List.length (Popup.buttons (Popup.popup w)) = 20%nat ->
  - Z.min 20 (Popup.numOptions (Popup.popup w)) <= x <= CInt.INT_MAX - 20 ->
  (is_Some (Popup.autoCompleteComponent (Popup.popup w)) ->
   is_Some (Popup.currentBox_target w)) ->
  exists w' b,
    Popup.move offset setto w = Ok w' /\
    Popup.buttons (Popup.popup w)
      !! Z.to_nat (x mod Z.min 20 (Popup.numOptions (Popup.popup w))) = Some b /\
    Popup.currentidx (Popup.popup w')
    = x mod Z.min 20 (Popup.numOptions (Popup.popup w)) /\
    Popup.numOptions (Popup.popup w') = Popup.numOptions (Popup.popup w) /\
    Popup.state (Popup.popup w') = Popup.state (Popup.popup w) /\
    Popup.buttons (Popup.popup w')
    = <[Z.to_nat (x mod Z.min 20 (Popup.numOptions (Popup.popup w)))
        := Suggestion.setToggleState true b]> (Popup.buttons (Popup.popup w)) /\
    Popup.editors w' = Popup.editors w /\
    Popup.openedEditor (Popup.popup w') = Popup.openedEditor (Popup.popup w) /\
    Popup.currentBox (Popup.popup w') = Popup.currentBox (Popup.popup w) /\
    Popup.autoCompleteComponent (Popup.popup w')
    = AutoComplete.setSuggestion (Popup.editors w) (Suggestion.buttonText b)
        <$> Popup.autoCompleteComponent (Popup.popup w) /\
    Popup.objects w'
    = match Popup.autoCompleteComponent (Popup.popup w),
            Popup.currentBox_target w with
      | Some _, Some (a, box) => <[a := updateBounds box]> (Popup.objects w)
      | _, _ => Popup.objects w
      end.
Proof.
  intros Hx [ed Hed] Hn Hlen Hturn Hbox.
  remember (Z.min 20 (Popup.numOptions (Popup.popup w))) as n eqn:En.
  assert (Hn20 : 1 <= n <= 20) by lia.
  remember (x mod n) as i eqn:Ei.
  assert (Hi : 0 <= i < n) by (rewrite Ei; apply Z.mod_pos_bound; lia).
  unfold Popup.move. rewrite Hed.
  set (p := if setto =? -1 then _ else _).
  assert (Hp : p = Popup.set_currentidx x (Popup.popup w))
    by (unfold p; rewrite Hx; destruct (setto =? -1); reflexivity).
  clearbody p. subst p.
  cbn [Popup.numOptions Popup.set_currentidx Popup.currentidx Popup.buttons
       Popup.autoCompleteComponent].
  replace (Popup.numOptions (Popup.popup w) =? 0) with false
    by (symmetry; apply Z.eqb_neq; lia).
  rewrite <- En, rem_wrapped_turn by lia. rewrite <- Ei, bind_Ok.
  destruct (lookup_lt_is_Some_2 (Popup.buttons (Popup.popup w)) (Z.to_nat i)
              ltac:(lia)) as [b Hb].
  cbn [Popup.numOptions Popup.set_currentidx Popup.currentidx Popup.buttons
       Popup.autoCompleteComponent].
  rewrite (update_button_Z _ _ _ _ (proj1 Hi) Hb), bind_Ok.
  cbn [Popup.numOptions Popup.set_currentidx Popup.currentidx Popup.buttons
       Popup.autoCompleteComponent Popup.set_buttons].
  destruct (Popup.autoCompleteComponent (Popup.popup w)) as [ac|] eqn:Hac.
  - destruct (Hbox ltac:(eauto)) as [[a box] Htarget]. rewrite Htarget.
    unfold at_index. replace (0 <=? i) with true
      by (symmetry; apply Z.leb_le; lia).
    rewrite list_lookup_insert_eq by lia. rewrite deref_Some, bind_Ok.
    erewrite currentBox_updateBounds_ok; [|exact Htarget|reflexivity].
    eexists _, b. split; [reflexivity|]. split; [exact Hb|].
    cbn. repeat split; first [reflexivity | exact Hed | exact Hac].
  - eexists _, b. split; [reflexivity|]. split; [exact Hb|].
    cbn. repeat split; first [reflexivity | exact Hed | exact Hac].
Qed.

(** [move (0, i)], the call a click on row [i] makes: whatever row was
    selected before, the selection becomes row [i], taken modulo the number
    of rows in use; that row is switched on and the overlay is given its
    text. *)
Theorem move_to_row_selects_it (i : Z) (w : Popup.World) :
  0 <= i < 20 ->
  is_Some (Popup.openedEditor (Popup.popup w)) ->
  1 <= Popup.numOptions (Popup.popup w) ->
  List.length (Popup.buttons (Popup.popup w)) = 20%nat ->
  (is_Some (Popup.autoCompleteComponent (Popup.popup w)) ->
   is_Some (Popup.currentBox_target w)) ->
  exists w' b b',
    Popup.move 0 i w = Ok w' /\
    Popup.currentidx (Popup.popup w')
    = i mod Z.min 20 (Popup.numOptions (Popup.popup w)) /\
    (i < Popup.numOptions (Popup.popup w) ->
     Popup.currentidx (Popup.popup w') = i) /\
    Popup.numOptions (Popup.popup w') = Popup.numOptions (Popup.popup w) /\
    Popup.buttons (Popup.popup w)
      !! Z.to_nat (Popup.currentidx (Popup.popup w')) = Some b /\
    Popup.buttons (Popup.popup w')
      !! Z.to_nat (Popup.currentidx (Popup.popup w')) = Some b' /\
    Suggestion.toggleState b' = true /\
    Suggestion.buttonText b' = Suggestion.buttonText b /\
    Popup.autoCompleteComponent (Popup.popup w')
    = AutoComplete.setSuggestion (Popup.editors w) (Suggestion.buttonText b)
        <$> Popup.autoCompleteComponent (Popup.popup w).
Proof.
  intros Hi Hed Hn Hlen Hbox.
  assert (Hx : i = (if i =? -1
                    then CInt.add (Popup.currentidx (Popup.popup w)) 0
                    else i)).
  { replace (i =? -1) with false by (symmetry; apply Z.eqb_neq; lia).
    reflexivity. }
  destruct (move_selects 0 i i w Hx Hed Hn Hlen) as
    (w' & b & Hrun & Hb & Hidx & Hnum & _ & Hbs & _ & _ & _ & Hac & _).
  { unfold CInt.INT_MAX. lia. }
  { exact Hbox. }
  pose proof (Z.mod_pos_bound i (Z.min 20 (Popup.numOptions (Popup.popup w)))
                ltac:(lia)) as Hmod.
  exists w', b, (Suggestion.setToggleState true b).
  split; [exact Hrun|]. split; [exact Hidx|].
  split; [intros Hlt; rewrite Hidx; apply Z.mod_small; lia|].
  split; [exact Hnum|]. rewrite Hidx. split; [exact Hb|].
  split; [rewrite Hbs; apply list_lookup_insert_eq; lia|].
  split; [reflexivity|]. split; [reflexivity|]. exact Hac.
Qed.

Lemma move_to_row_selects_it_witness :
  exists w',
    Popup.move 0 5 world_with_two_suggestions = Ok w' /\
    Popup.currentidx (Popup.popup w') = 1.
Proof.
  destruct (move_to_row_selects_it 5 world_with_two_suggestions)
    as (w' & b & b' & Hrun & Hidx & _).
  - lia.
  - eexists. reflexivity.
  - simpl. lia.
  - reflexivity.
  - intros _. eexists. reflexivity.
  - exists w'. split; [exact Hrun|]. rewrite Hidx. reflexivity.
Defined.

(** The wrap-around [(currentidx + numButtons) % numButtons] covers one
    turn below zero only.  An offset that takes the index further down, to
    a value that is not a multiple of [numButtons], leaves a negative
    remainder, and [buttons[currentidx]] is then null when
    [setToggleState] is called through it. *)
Theorem move_below_one_turn_faults (offset : Z) (w : Popup.World) :
  is_Some (Popup.openedEditor (Popup.popup w)) ->
  1 <= Popup.numOptions (Popup.popup w) ->
  CInt.INT_MIN <= Popup.currentidx (Popup.popup w) + offset ->
  Popup.currentidx (Popup.popup w) + offset
  < - Z.min 20 (Popup.numOptions (Popup.popup w)) ->
  (Popup.currentidx (Popup.popup w) + offset)
    mod Z.min 20 (Popup.numOptions (Popup.popup w)) <> 0 ->
  Popup.move offset (-1) w = Crash (NullDereference ptr_button).
Proof.
  intros [ed Hed] Hn Hmin Hlow Hmod.
  remember (Z.min 20 (Popup.numOptions (Popup.popup w))) as n eqn:En.
  remember (Popup.currentidx (Popup.popup w) + offset) as x eqn:Ex.
  assert (Hn20 : 1 <= n <= 20) by lia.
  assert (Hadd : CInt.add (Popup.currentidx (Popup.popup w)) offset = x).
  { unfold CInt.add. rewrite <- Ex. apply wrap_in_range.
    unfold CInt.INT_MIN, CInt.INT_MAX in *. lia. }
  assert (Hrem : exists r, CInt.rem (CInt.add x n) n = Some r /\ r < 0).
  { unfold CInt.rem, CInt.add.
    replace (n =? 0) with false by (symmetry; apply Z.eqb_neq; lia).
    rewrite (wrap_in_range (x + n))
      by (unfold CInt.INT_MIN, CInt.INT_MAX in *; lia).
    pose proof (Z.rem_bound_pos_neg (x + n) n ltac:(lia) ltac:(lia)) as Hb.
    assert (Z.rem (x + n) n <> 0).
    { intros H0. apply Z.rem_divide in H0; [|lia].
      apply Hmod. apply Z.mod_divide; [lia|].
      destruct H0 as [k Hk]. exists (k - 1).
      replace x with (x + n - n) by lia. rewrite Hk. ring. }
    rewrite wrap_in_range by (unfold CInt.INT_MIN, CInt.INT_MAX; lia).
    eexists. split; [reflexivity|]. lia. }
  destruct Hrem as (r & Hrem & Hneg).
  unfold Popup.move. rewrite Hed.
  cbn [Z.eqb Pos.eqb]. rewrite !Hadd.
  cbn [Popup.numOptions Popup.set_currentidx Popup.currentidx Popup.buttons
       Popup.autoCompleteComponent].
  replace (Popup.numOptions (Popup.popup w) =? 0) with false
    by (symmetry; apply Z.eqb_neq; lia).
  rewrite <- En, Hrem, bind_Ok.
  cbn [Popup.numOptions Popup.set_currentidx Popup.currentidx Popup.buttons].
  rewrite update_button_negative by exact Hneg. reflexivity.
Qed.

Lemma move_below_one_turn_faults_witness :
  Popup.move (-5) (-1) world_with_two_suggestions
  = Crash (NullDereference ptr_button).
Proof.
  apply move_below_one_turn_faults.
  - eexists. reflexivity.
  - simpl. lia.
  - vm_compute. discriminate.
  - simpl. lia.
  - vm_compute. discriminate.
Defined.

Lemma update_button_out_of_range (i : Z) (f : Suggestion.t -> Suggestion.t)
    (bs : list Suggestion.t) :
  ~ 0 <= i < Z.of_nat (List.length bs) ->
  update_button i f bs = Crash (NullDereference ptr_button).
Proof.
  intros Hi. destruct (Z.ltb_spec i 0) as [Hneg|Hpos].
  - apply update_button_negative, Hneg.
  - unfold update_button, at_index.
    replace (0 <=? i) with true by (symmetry; apply Z.leb_le; lia).
    rewrite (proj2 (lookup_ge_None bs (Z.to_nat i))) by lia. reflexivity.
Qed.

Lemma textChanged_outside_rows (hvccObjects : list string)
    (e a : addr) (w : Popup.World) (box : Object) (ed : TextEditor) :
  Popup.currentBox_target w = Some (a, box) ->
  Popup.editors w !! e = Some ed ->
  JString.contains (getText ed) " " = false ->
  ~ 0 <= Popup.currentidx (Popup.popup w)
       < Z.of_nat (List.length (Popup.buttons (Popup.popup w))) ->
  Popup.textEditorTextChanged hvccObjects e w
  = Crash (NullDereference ptr_button).
Proof.
  intros Hbox Hed Hsp Hidx. unfold Popup.textEditorTextChanged.
  rewrite Hbox, Hed, deref_Some, bind_Ok, Hsp.
  match goal with
  | |- ?m ≫= _ = _ =>
      replace m with (Crash (NullDereference ptr_button)
                      : Outcome (list Suggestion.t))
  end.
  - reflexivity.
  - symmetry. apply update_button_out_of_range. exact Hidx.
Qed.

(** Without a space in the text, the handler starts with
    [buttons[currentidx]->setToggleState (true)]: it relies on the selected
    index being one of the rows, and the call goes through a null pointer
    when it is not. *)
Theorem textChanged_needs_selected_row (hvccObjects : list string)
    (e a : addr) (w : Popup.World) (box : Object) (ed : TextEditor) :
  Popup.currentBox_target w = Some (a, box) ->
  Popup.editors w !! e = Some ed ->
  JString.contains (getText ed) " " = false ->
  ~ 0 <= Popup.currentidx (Popup.popup w)
       < Z.of_nat (List.length (Popup.buttons (Popup.popup w))) ->
  Popup.textEditorTextChanged hvccObjects e w
  = Crash (NullDereference ptr_button).
Proof. apply textChanged_outside_rows. Qed.

Lemma textChanged_needs_selected_row_witness :
  Popup.textEditorTextChanged [] 1%positive
    (Popup.set_popup (Popup.set_currentidx 20 opened_popup)
       (sample_world sample_library false "me"))
  = Crash (NullDereference ptr_button).
Proof.
  apply (textChanged_needs_selected_row [] 1%positive 7%positive _
           (mkObject sample_library (JVar.var_bool false) 0)
           (mkTextEditor "me")).
  - reflexivity.
  - reflexivity.
  - reflexivity.
  - simpl. lia.
Defined.

(** [move] returns before the wrap-around when there are no options, so
    the index it stored is kept as it is.  With an editor opened and no
    options (as right after [createCalloutBox]), a call that takes the
    index out of the rows makes the next text change without a space fault
    on [buttons[currentidx]]. *)
Theorem move_without_options_skips_wrap (hvccObjects : list string)
    (offset : Z) (e a : addr) (w : Popup.World) (box : Object)
    (ed : TextEditor) :
  is_Some (Popup.openedEditor (Popup.popup w)) ->
  Popup.numOptions (Popup.popup w) = 0 ->
  List.length (Popup.buttons (Popup.popup w)) = 20%nat ->
  Popup.currentBox_target w = Some (a, box) ->
  Popup.editors w !! e = Some ed ->
  JString.contains (getText ed) " " = false ->
  CInt.INT_MIN <= Popup.currentidx (Popup.popup w) + offset <= CInt.INT_MAX ->
  ~ 0 <= Popup.currentidx (Popup.popup w) + offset < 20 ->
  exists w',
    Popup.move offset (-1) w = Ok w' /\
    Popup.currentidx (Popup.popup w')
    = Popup.currentidx (Popup.popup w) + offset /\
    Popup.buttons (Popup.popup w') = Popup.buttons (Popup.popup w) /\
    Popup.textEditorTextChanged hvccObjects e w'
    = Crash (NullDereference ptr_button).
Proof.
  intros [oe Hoe] Hzero Hlen Hbox Hed Hsp Hfit Hout.
  unfold Popup.move. rewrite Hoe.
  cbn [Z.eqb Pos.eqb Popup.numOptions Popup.set_currentidx]. rewrite Hzero.
  cbn [Z.eqb]. eexists. split; [reflexivity|].
  cbn [Popup.popup Popup.set_popup Popup.currentidx Popup.set_currentidx
       Popup.buttons].
  unfold CInt.add. rewrite wrap_in_range by exact Hfit.
  split; [reflexivity|]. split; [reflexivity|].
  apply (textChanged_outside_rows hvccObjects e a _ box ed).
  - exact Hbox.
  - exact Hed.
  - exact Hsp.
  - cbn [Popup.popup Popup.set_popup Popup.currentidx Popup.set_currentidx
         Popup.buttons]. rewrite Hlen. lia.
Qed.

Lemma move_without_options_skips_wrap_witness :
  exists w',
    Popup.move (-1) (-1) (sample_world sample_library false "me") = Ok w' /\
    Popup.currentidx (Popup.popup w') = -1 /\
    Popup.textEditorTextChanged [] 1%positive w'
    = Crash (NullDereference ptr_button).
Proof.
  destruct (move_without_options_skips_wrap [] (-1) 1%positive 7%positive
              (sample_world sample_library false "me")
              (mkObject sample_library (JVar.var_bool false) 0)
              (mkTextEditor "me"))
    as (w' & Hrun & Hidx & _ & Hcrash).
  - eexists. reflexivity.
  - reflexivity.
  - reflexivity.
  - reflexivity.
  - reflexivity.
  - reflexivity.
  - vm_compute. split; discriminate.
  - simpl. lia.
  - exists w'. split; [exact Hrun|]. split; [|exact Hcrash].
    rewrite Hidx. reflexivity.
Defined.

(** ** What the popup keeps true while the interface drives it *)

Lemma currentBox_target_lookup (w : Popup.World) (a : addr) (box : Object) :
  Popup.currentBox_target w = Some (a, box) ->
  Popup.currentBox (Popup.popup w) = Some a /\ Popup.objects w !! a = Some box.
Proof.
  unfold Popup.currentBox_target.
  destruct (Popup.currentBox (Popup.popup w)) as [a'|]; [|discriminate].
  simpl. destruct (Popup.objects w !! a') as [o|] eqn:Eo; [|discriminate].
  simpl. intros [= -> ->]. split; [reflexivity | exact Eo].
Qed.

Lemma currentBox_updateBounds_inv (w w' : Popup.World) :
  Popup.currentBox_updateBounds w = Ok w' ->
  exists a box,
    Popup.currentBox_target w = Some (a, box) /\
    w' = Popup.set_objects (<[a := updateBounds box]> (Popup.objects w)) w.
Proof.
  unfold Popup.currentBox_updateBounds. intros H.
  apply bind_Ok_inv in H as ([a box] & Htarget & H). injection H as <-.
  exists a, box. split; [|reflexivity].
  destruct (Popup.currentBox_target w) as [[a' box']|]; [|discriminate].
  injection Htarget as -> ->. reflexivity.
Qed.


Lemma libraries_fit_updateBounds (objects : gmap addr Object) (a : addr)
    (box : Object) :
  libraries_fit objects -> objects !! a = Some box ->
  libraries_fit (<[a := updateBounds box]> objects).
Proof.
  intros Hfit Hbox b o Ho. destruct (decide (b = a)) as [->|Hne].
  - rewrite lookup_insert_eq in Ho. injection Ho as <-.
    apply (Hfit a box Hbox).
  - rewrite lookup_insert_ne in Ho by congruence. apply (Hfit b o Ho).
Qed.




(** What the text-change handler leaves alone. *)
Lemma textChanged_frame (hvccObjects : list string) (e : addr)
    (w w' : Popup.World) :
  Popup.textEditorTextChanged hvccObjects e w = Ok w' ->
  Popup.editors w' = Popup.editors w /\
  Popup.openedEditor (Popup.popup w') = Popup.openedEditor (Popup.popup w) /\
  Popup.currentBox (Popup.popup w') = Popup.currentBox (Popup.popup w) /\
  Popup.isOnDesktop (Popup.popup w') = Popup.isOnDesktop (Popup.popup w) /\
  (is_Some (Popup.autoCompleteComponent (Popup.popup w)) ->
   is_Some (Popup.autoCompleteComponent (Popup.popup w'))) /\
  (Popup.state (Popup.popup w') = Popup.Hidden ->
   Popup.currentidx (Popup.popup w') = Popup.currentidx (Popup.popup w)) /\
  (Popup.objects w' = Popup.objects w \/
   exists a box,
     Popup.objects w !! a = Some box /\
     Popup.objects w' = <[a := updateBounds box]> (Popup.objects w)).
Proof.
  unfold Popup.textEditorTextChanged.
  destruct (Popup.currentBox_target w) as [[a box]|] eqn:Hbox.
  2:{ intros [= <-]. repeat split; auto. }
  apply currentBox_target_lookup in Hbox as [_ Hlook].
  intros H. apply bind_Ok_inv in H as (ed & _ & H).
  destruct (JString.contains (getText ed) " ").
  - apply bind_Ok_inv in H as (bs1 & _ & H).
    apply bind_Ok_inv in H as (bs2 & _ & H).
    apply bind_Ok_inv in H as (w1 & Hw1 & H). injection H as <-.
    simpl in Hw1.
    destruct (Popup.autoCompleteComponent (Popup.popup w)) as [ac|].
    + apply currentBox_updateBounds_inv in Hw1 as (a' & box' & Ht & ->).
      apply currentBox_target_lookup in Ht as [_ Hl]. simpl in Hl.
      simpl; repeat split; eauto;
        first [discriminate | intros [? ?]; discriminate].
    + injection Hw1 as <-. simpl; repeat split; eauto;
        first [discriminate | intros [? ?]; discriminate].
  - apply bind_Ok_inv in H as (bs0 & _ & H).
    apply bind_Ok_inv in H as (bs1 & _ & H).
    apply bind_Ok_inv in H as (bs2 & _ & H).
    simpl in H.
    destruct (bool_decide _ || _).
    + apply bind_Ok_inv in H as (w1 & Hw1 & H). injection H as <-.
      apply currentBox_updateBounds_inv in Hw1 as (a' & box' & Ht & ->).
      apply currentBox_target_lookup in Ht as [_ Hl]. simpl in Hl.
      destruct (Popup.autoCompleteComponent (Popup.popup w)) as [ac|];
        simpl; repeat split; eauto;
        first [discriminate | intros [? ?]; discriminate].
    + apply bind_Ok_inv in H as (i & _ & H).
      apply bind_Ok_inv in H as ([fullName isAuto] & _ & H).
      apply bind_Ok_inv in H as (ac & _ & H).
      apply bind_Ok_inv in H as (w1 & Hw1 & H). injection H as <-.
      apply currentBox_updateBounds_inv in Hw1 as (a' & box' & Ht & ->).
      apply currentBox_target_lookup in Ht as [_ Hl]. simpl in Hl.
      simpl; repeat split; eauto;
        first [discriminate | intros [? ?]; discriminate].
Qed.

Lemma hvccObjectsFound_length (hvccObjects : list string)
    (found : list (string * bool)) :
  (List.length (Popup.hvccObjectsFound hvccObjects found)
   <= List.length found)%nat.
Proof. rewrite hvccObjectsFound_filter. apply length_filter. Qed.

Lemma objects_found_fits (hvccObjects : list string) (box : Object)
    (text : string) :
  library_fits (objectLibrary box) ->
  Z.of_nat (List.length (objects_found hvccObjects box text))
  <= CInt.INT_MAX.
Proof.
  intros [Hauto _]. specialize (Hauto text). unfold objects_found.
  destruct (JVar.to_bool (hvccMode box)); [|exact Hauto].
  pose proof (hvccObjectsFound_length hvccObjects
                (Library.autocomplete (objectLibrary box) text)). lia.
Qed.

Lemma arguments_found_fits (box : Object) (text : string) :
  library_fits (objectLibrary box) ->
  Z.of_nat (List.length (arguments_found box text)) <= CInt.INT_MAX.
Proof.
  intros [_ Hargs]. unfold arguments_found.
  destruct (Library.getArguments (objectLibrary box) !! _) as [args|] eqn:E.
  - apply (Hargs _ _ E).
  - simpl. unfold CInt.INT_MAX. lia.
Qed.

(** Under the invariant the handler runs to its end whenever the editor
    it is told about is alive. *)
Lemma textChanged_runs (hvccObjects : list string) (e a : addr)
    (w : Popup.World) (box : Object) (ed : TextEditor) :
  ui_invariant w ->
  Popup.currentBox_target w = Some (a, box) ->
  Popup.editors w !! e = Some ed ->
  exists w',
    Popup.textEditorTextChanged hvccObjects e w = Ok w' /\
    ui_invariant w' /\
    Popup.state (Popup.popup w')
    = (if JString.contains (getText ed) " " then Popup.ShowingArguments
       else if bool_decide (objects_found hvccObjects box (getText ed) = [])
               || bool_decide (getText ed = EmptyString)
            then Popup.Hidden else Popup.ShowingObjects) /\
    Popup.numOptions (Popup.popup w')
    = (if JString.contains (getText ed) " "
       then Z.of_nat (List.length (arguments_found box (getText ed)))
       else Z.of_nat
              (List.length (objects_found hvccObjects box (getText ed)))).
Proof.
  intros (Hlen & Hidx & Hnum & Hstate & Hover & Hfit) Hbox Hed.
  pose proof (currentBox_target_lookup _ _ _ Hbox) as [Hcb Hlook].
  pose proof (Hfit a box Hlook) as Hlib.
  assert (Hac : is_Some (Popup.autoCompleteComponent (Popup.popup w)))
    by (apply Hover; eauto).
  destruct (JString.contains (getText ed) " ") eqn:Hsp.
  - destruct (textChanged_arguments_run hvccObjects e a w box ed
                Hbox Hed Hsp Hlen (arguments_found_fits box _ Hlib))
      as (w' & Hrun & Hst & Hn & Hi & _).
    exists w'. split; [exact Hrun|].
    destruct (textChanged_frame _ _ _ _ Hrun)
      as (_ & _ & Hcb' & _ & Hac' & _ & Hobj').
    split; [|split; [exact Hst | exact Hn]].
    split; [rewrite (textChanged_buttons_length _ _ _ _ Hrun); exact Hlen|].
    rewrite Hi, Hn, Hst. split; [lia|]. split; [lia|].
    split; [discriminate|]. split; [intros _; apply Hac', Hac|].
    destruct Hobj' as [->|(a' & box' & Hl & ->)]; [exact Hfit|].
    apply libraries_fit_updateBounds; assumption.
  - destruct (textChanged_objects_run hvccObjects e a w box ed
                Hbox Hed Hsp Hlen Hidx (objects_found_fits _ box _ Hlib)
                (fun _ _ => Hac))
      as (w' & b0 & Hrun & _ & Hn & _ & Hhid & Hshow).
    exists w'. split; [exact Hrun|].
    destruct (textChanged_frame _ _ _ _ Hrun)
      as (_ & _ & Hcb' & _ & Hac' & Hkeep & Hobj').
    assert (Hfit' : libraries_fit (Popup.objects w')).
    { destruct Hobj' as [->|(a' & box' & Hl & ->)]; [exact Hfit|].
      apply libraries_fit_updateBounds; assumption. }
    pose proof (textChanged_buttons_length _ _ _ _ Hrun) as Hlen'.
    destruct (bool_decide (objects_found hvccObjects box (getText ed) = []))
      eqn:Hnil; [|destruct (bool_decide (getText ed = EmptyString)) eqn:Hemp].
    + apply bool_decide_eq_true in Hnil.
      destruct (Hhid (or_introl Hnil)) as [Hst _].
      split; [|split; [exact Hst | exact Hn]].
      split; [lia|]. rewrite (Hkeep Hst), Hn, Hst.
      split; [exact Hidx|]. split; [lia|]. split; [discriminate|].
      split; [intros _; apply Hac', Hac | exact Hfit'].
    + apply bool_decide_eq_true in Hemp.
      destruct (Hhid (or_intror Hemp)) as [Hst _].
      split; [|split; [exact Hst | exact Hn]].
      split; [lia|]. rewrite (Hkeep Hst), Hn, Hst.
      split; [exact Hidx|]. split; [lia|]. split; [discriminate|].
      split; [intros _; apply Hac', Hac | exact Hfit'].
    + apply bool_decide_eq_false in Hnil, Hemp.
      destruct (Hshow Hnil Hemp) as (Hst & _ & Hi).
      assert (Hpos : (0 < List.length
                            (objects_found hvccObjects box (getText ed)))%nat)
        by (destruct (objects_found hvccObjects box (getText ed));
            [congruence | simpl; lia]).
      pose proof (Z.mod_pos_bound (Popup.currentidx (Popup.popup w))
                    (Z.min 20 (Z.of_nat (List.length
                       (objects_found hvccObjects box (getText ed)))))
                    ltac:(lia)) as Hmod.
      split; [|split; [exact Hst | exact Hn]].
      split; [lia|]. rewrite Hi, Hn.
      split; [lia|]. split; [lia|]. split; [intros _; lia|].
      split; [intros _; apply Hac', Hac | exact Hfit'].
Qed.


Lemma destroy_autoCompleteComponent_inv (w w' : Popup.World) :
  Popup.destroy_autoCompleteComponent w = Ok w' ->
  w' = Popup.set_popup
         (Popup.set_autoCompleteComponent None (Popup.popup w)) w.
Proof.
  unfold Popup.destroy_autoCompleteComponent.
  destruct (Popup.autoCompleteComponent (Popup.popup w)) as [ac|] eqn:Hac.
  - intros H. apply bind_Ok_inv in H as (ed & _ & H). injection H as <-.
    reflexivity.
  - intros [= <-]. destruct w as [eds objs p]. destruct p. simpl in *.
    subst. reflexivity.
Qed.









Lemma sample_library_fits : library_fits sample_library.
Proof.
  split.
  - intros text. unfold sample_library. cbn [Library.autocomplete].
    destruct (String.eqb text "me"); [vm_compute; discriminate|].
    destruct (String.eqb text "fo"); vm_compute; discriminate.
  - intros name args Hargs. unfold sample_library in Hargs.
    cbn [Library.getArguments] in Hargs.
    apply lookup_singleton_Some in Hargs as [_ <-].
    vm_compute. discriminate.
Qed.




(** ** Text changes and keys *)

(** The overlay after a text change that shows objects. *)
Lemma textChanged_shows (hvccObjects : list string) (e a : addr)
    (w : Popup.World) (box : Object) (ed : TextEditor) (ac : AutoComplete.t) :
  Popup.currentBox_target w = Some (a, box) ->
  Popup.editors w !! e = Some ed ->
  JString.contains (getText ed) " " = false ->
  List.length (Popup.buttons (Popup.popup w)) = 20%nat ->
  0 <= Popup.currentidx (Popup.popup w) < 20 ->
  let found := objects_found hvccObjects box (getText ed) in
  Z.of_nat (List.length found) <= CInt.INT_MAX ->
  found <> [] -> getText ed <> EmptyString ->
  Popup.autoCompleteComponent (Popup.popup w) = Some ac ->
  exists w' fullName isAuto,
    Popup.textEditorTextChanged hvccObjects e w = Ok w' /\
    found !! Z.to_nat (Popup.currentidx (Popup.popup w)
                       mod Z.min 20 (Z.of_nat (List.length found)))
    = Some (fullName, isAuto) /\
    Popup.autoCompleteComponent (Popup.popup w')
    = Some (AutoComplete.setSuggestion (Popup.editors w)
              (if JString.length (getText ed) <? JString.length fullName
               then fullName else EmptyString) ac).
Proof.
  intros Hbox Hed Hsp Hlen Hidx found Hfit Hne Htext Hac.
  destruct (lookup_lt_is_Some_2 (Popup.buttons (Popup.popup w))
              (Z.to_nat (Popup.currentidx (Popup.popup w))) ltac:(lia))
    as [b0 Hb0].
  unfold Popup.textEditorTextChanged. rewrite Hbox. simpl. rewrite Hed. simpl.
  rewrite Hsp.
  rewrite (update_button_Z _ _ _ _ (proj1 Hidx) Hb0). simpl.
  match goal with
  | |- context [CInt.of_size (List.length ?f)] => change f with found
  end.
  clearbody found.
  rewrite (of_size_in_range _ Hfit). unfold Popup.buttons_size. simpl.
  rewrite length_insert, Hlen.
  erewrite (for_range_buttons (object_row (objectLibrary box) found));
    [simpl| lia | rewrite length_insert; lia |].
  2:{ intros k bs' Hk. unfold object_row.
      destruct (found !! k) as [[name isAuto]|] eqn:Ek.
      - rewrite (at_vector_at _ _ _ Ek). reflexivity.
      - apply lookup_ge_None in Ek. lia. }
  rewrite apply_from_length, length_insert, Hlen.
  erewrite (for_range_buttons blank_row);
    [simpl| lia | rewrite apply_from_length, length_insert; lia | reflexivity].
  assert (Ehid : bool_decide (found = [])
                 || (JString.length (getText ed) =? 0) = false).
  { apply orb_false_intro.
    - apply bool_decide_eq_false. exact Hne.
    - apply Z.eqb_neq. unfold JString.length.
      destruct (getText ed); [congruence | simpl; lia]. }
  rewrite Ehid.
  assert (Hpos : (0 < List.length found)%nat)
    by (destruct found; [congruence | simpl; lia]).
  rewrite rem_wrapped_index by lia. simpl.
  pose proof (Z.mod_pos_bound (Popup.currentidx (Popup.popup w))
                (20 `min` Z.of_nat (List.length found)) ltac:(lia)) as Hmod.
  destruct (lookup_lt_is_Some_2 found
              (Z.to_nat (Popup.currentidx (Popup.popup w)
                         mod 20 `min` Z.of_nat (List.length found)))
              ltac:(lia)) as [[fullName isAuto] Hfull].
  rewrite (at_vector_Z _ _ _ (proj1 Hmod) Hfull). simpl.
  rewrite Hac. simpl.
  rewrite andb_true_r.
  destruct (JString.length (getText ed) <? JString.length fullName) eqn:Hlt;
    rewrite bind_Ok;
    (erewrite currentBox_updateBounds_ok; [|exact Hbox|reflexivity]);
    rewrite bind_Ok; eexists _, fullName, isAuto;
    (split; [reflexivity|split; [exact Hfull|rewrite Hlt; reflexivity]]).
Qed.

Lemma textChanged_visibility (hvccObjects : list string) (e : addr)
    (w w' : Popup.World) :
  is_Some (Popup.currentBox_target w) ->
  Popup.textEditorTextChanged hvccObjects e w = Ok w' ->
  Popup.isVisible (Popup.popup w')
  = match Popup.state (Popup.popup w') with
    | Popup.Hidden => false
    | Popup.ShowingObjects => true
    | Popup.ShowingArguments => negb (Popup.numOptions (Popup.popup w') =? 0)
    end.
Proof.
  unfold Popup.textEditorTextChanged. intros [[a box] Hbox]. rewrite Hbox.
  intros H. apply bind_Ok_inv in H as (ed & _ & H).
  destruct (JString.contains (getText ed) " ").
  - apply bind_Ok_inv in H as (bs1 & _ & H).
    apply bind_Ok_inv in H as (bs2 & _ & H).
    apply bind_Ok_inv in H as (w1 & Hw1 & H). injection H as <-.
    simpl in Hw1.
    destruct (Popup.autoCompleteComponent (Popup.popup w)) as [ac|].
    + apply currentBox_updateBounds_inv in Hw1 as (a' & box' & _ & ->).
      reflexivity.
    + injection Hw1 as <-. reflexivity.
  - apply bind_Ok_inv in H as (bs0 & _ & H).
    apply bind_Ok_inv in H as (bs1 & _ & H).
    apply bind_Ok_inv in H as (bs2 & _ & H).
    simpl in H.
    destruct (bool_decide _ || _).
    + apply bind_Ok_inv in H as (w1 & Hw1 & H). injection H as <-.
      apply currentBox_updateBounds_inv in Hw1 as (a' & box' & _ & ->).
      destruct (Popup.autoCompleteComponent (Popup.popup w)); reflexivity.
    + apply bind_Ok_inv in H as (i & _ & H).
      apply bind_Ok_inv in H as ([fullName isAuto] & _ & H).
      apply bind_Ok_inv in H as (ac & _ & H).
      apply bind_Ok_inv in H as (w1 & Hw1 & H). injection H as <-.
      apply currentBox_updateBounds_inv in Hw1 as (a' & box' & _ & ->).
      reflexivity.
Qed.

Lemma textChanged_box_stays (hvccObjects : list string) (e : addr)
    (w w' : Popup.World) :
  Popup.textEditorTextChanged hvccObjects e w = Ok w' ->
  is_Some (Popup.currentBox_target w) ->
  is_Some (Popup.currentBox_target w').
Proof.
  intros Hrun [[a box] Hbox].
  destruct (textChanged_frame _ _ _ _ Hrun)
    as (_ & _ & Hcb & _ & _ & _ & Hobj).
  apply currentBox_target_lookup in Hbox as [Ha Hlook].
  unfold Popup.currentBox_target. rewrite Hcb, Ha. simpl.
  destruct Hobj as [->|(a' & box' & Hl & ->)].
  - rewrite Hlook. simpl. eauto.
  - destruct (decide (a = a')) as [<-|Hne].
    + rewrite lookup_insert_eq. simpl. eauto.
    + rewrite lookup_insert_ne by congruence. rewrite Hlook. simpl. eauto.
Qed.

(** In a state the interface can reach, with the box and the editor alive,
    a text change always runs to its end, and the text alone decides what
    the popup shows: the argument panel when there is a space (visible only
    when arguments are listed for the object), nothing when the text is
    empty or nothing matches, and the matching objects otherwise. *)
Theorem textChanged_settles_state_and_visibility
    (hvccObjects : list string) (e a : addr) (w : Popup.World) (box : Object)
    (ed : TextEditor) :
  ui_invariant w ->
  Popup.currentBox_target w = Some (a, box) ->
  Popup.editors w !! e = Some ed ->
  exists w',
    Popup.textEditorTextChanged hvccObjects e w = Ok w' /\
    ui_invariant w' /\
    Popup.editors w' = Popup.editors w /\
    (JString.contains (getText ed) " " = true ->
     Popup.state (Popup.popup w') = Popup.ShowingArguments /\
     Popup.numOptions (Popup.popup w')
     = Z.of_nat (List.length (arguments_found box (getText ed))) /\
     Popup.currentidx (Popup.popup w') = 0 /\
     (Popup.isVisible (Popup.popup w') = true <->
      arguments_found box (getText ed) <> [])) /\
    (JString.contains (getText ed) " " = false ->
     Popup.numOptions (Popup.popup w')
     = Z.of_nat (List.length (objects_found hvccObjects box (getText ed))) /\
     (objects_found hvccObjects box (getText ed) = []
      \/ getText ed = EmptyString ->
      Popup.state (Popup.popup w') = Popup.Hidden /\
      Popup.isVisible (Popup.popup w') = false /\
      Popup.currentidx (Popup.popup w') = Popup.currentidx (Popup.popup w)) /\
     (objects_found hvccObjects box (getText ed) <> [] ->
      getText ed <> EmptyString ->
      Popup.state (Popup.popup w') = Popup.ShowingObjects /\
      Popup.isVisible (Popup.popup w') = true /\
      Popup.currentidx (Popup.popup w')
      = Popup.currentidx (Popup.popup w)
        mod Z.min 20
              (Z.of_nat
                 (List.length (objects_found hvccObjects box (getText ed)))))).
Proof.
  intros Hinv Hbox Hed.
  destruct (textChanged_runs hvccObjects e a w box ed Hinv Hbox Hed)
    as (w' & Hrun & Hinv' & Hst & Hn).
  pose proof (textChanged_visibility hvccObjects e w w' ltac:(eauto) Hrun)
    as Hvis.
  destruct (textChanged_frame _ _ _ _ Hrun)
    as (Heds & _ & _ & _ & _ & Hkeep & _).
  destruct Hinv as (Hlen & Hidx & _ & _ & Hover & Hfit).
  pose proof (currentBox_target_lookup _ _ _ Hbox) as [Hcb Hlook].
  exists w'. split; [exact Hrun|]. split; [exact Hinv'|].
  split; [exact Heds|].
  destruct (JString.contains (getText ed) " ") eqn:Hsp.
  - split; [intros _|discriminate].
    split; [exact Hst|]. split; [exact Hn|].
    destruct (textChanged_arguments_run hvccObjects e a w box ed
                Hbox Hed Hsp Hlen
                (arguments_found_fits box _ (Hfit a box Hlook)))
      as (w2 & Hrun2 & _ & _ & Hi & _).
    rewrite Hrun in Hrun2. injection Hrun2 as <-.
    split; [exact Hi|]. rewrite Hvis, Hst, Hn.
    destruct (arguments_found box (getText ed)); simpl; split;
      congruence.
  - split; [discriminate|intros _]. split; [exact Hn|].
    destruct (textChanged_objects_run hvccObjects e a w box ed
                Hbox Hed Hsp Hlen Hidx
                (objects_found_fits _ box _ (Hfit a box Hlook))
                (fun _ _ => Hover ltac:(eauto)))
      as (w2 & b0 & Hrun2 & _ & _ & _ & Hhid & Hshow).
    rewrite Hrun in Hrun2. injection Hrun2 as <-.
    split.
    + intros Hcase. destruct (Hhid Hcase) as [Hs Hv].
      split; [exact Hs|]. split; [exact Hv|]. apply Hkeep, Hs.
    + intros Hne Htext. apply (Hshow Hne Htext).
Qed.

Lemma textChanged_settles_state_and_visibility_witness :
  exists w',
    Popup.textEditorTextChanged [] 1%positive
      (sample_world sample_library false "metro 5") = Ok w' /\
    Popup.state (Popup.popup w') = Popup.ShowingArguments /\
    Popup.numOptions (Popup.popup w') = 1.
Proof.
  destruct (textChanged_settles_state_and_visibility [] 1%positive 7%positive
              (sample_world sample_library false "metro 5")
              (mkObject sample_library (JVar.var_bool false) 0)
              (mkTextEditor "metro 5"))
    as (w' & Hrun & _ & _ & Hargs & _).
  - unfold ui_invariant. simpl.
    split; [reflexivity|]. split; [lia|]. split; [lia|].
    split; [discriminate|]. split; [eauto|].
    intros a o Ho. apply lookup_singleton_Some in Ho as [_ <-].
    apply sample_library_fits.
  - reflexivity.
  - reflexivity.
  - exists w'. split; [exact Hrun|].
    destruct (Hargs eq_refl) as (Hst & Hn & _).
    split; [exact Hst|]. rewrite Hn. reflexivity.
Defined.

Lemma keyPressed_arrow (key : PopupUi.KeyPress)
    (highlightedRegion : PopupUi.Range) (w : Popup.World) :
  is_Some (Popup.currentBox_target w) ->
  key = PopupUi.upKey \/ key = PopupUi.downKey ->
  PopupUi.keyPressed key highlightedRegion w
  = match Popup.state (Popup.popup w) with
    | Popup.ShowingObjects =>
        w' ← Popup.move (if PopupUi.KeyPress_eqb key PopupUi.downKey
                         then 1 else -1) (-1) w;
        Ok (PopupUi.mkKeyResult true w' None)
    | _ => Ok (PopupUi.mkKeyResult false w None)
    end.
Proof.
  intros [t Ht] Hkey. unfold PopupUi.keyPressed. rewrite Ht.
  destruct Hkey as [-> | ->];
    destruct (Popup.state (Popup.popup w)); reflexivity.
Qed.

Lemma keyPressed_tab (highlightedRegion : PopupUi.Range) (w : Popup.World)
    (ac : AutoComplete.t) :
  is_Some (Popup.currentBox_target w) ->
  Popup.autoCompleteComponent (Popup.popup w) = Some ac ->
  PopupUi.keyPressed PopupUi.tabKey highlightedRegion w
  = Ok (PopupUi.mkKeyResult true
          (Popup.set_editors
             (AutoComplete.autocomplete (Popup.editors w) ac) w) None).
Proof.
  intros [t Ht] Hac. unfold PopupUi.keyPressed. rewrite Ht, Hac.
  reflexivity.
Qed.

Lemma move_box_stays (offset setto : Z) (w w' : Popup.World) (a : addr)
    (box : Object) :
  Popup.currentBox_target w = Some (a, box) ->
  Popup.currentBox (Popup.popup w') = Popup.currentBox (Popup.popup w) ->
  Popup.objects w'
  = match Popup.autoCompleteComponent (Popup.popup w),
          Popup.currentBox_target w with
    | Some _, Some (a, box) => <[a := updateBounds box]> (Popup.objects w)
    | _, _ => Popup.objects w
    end ->
  is_Some (Popup.currentBox_target w').
Proof.
  intros Hbox Hcb Hobj. rewrite Hbox in Hobj.
  apply currentBox_target_lookup in Hbox as [Ha Hlook].
  unfold Popup.currentBox_target. rewrite Hcb, Ha, Hobj. simpl.
  destruct (Popup.autoCompleteComponent (Popup.popup w)).
  - rewrite lookup_insert_eq. simpl. eauto.
  - rewrite Hlook. simpl. eauto.
Qed.

(** The up and down keys are acted on only while objects are shown.  Then
    each is consumed and moves the selection by one row, wrapping around
    within the rows in use, without touching the editor; a down key followed
    by an up key leaves the selection where it was. *)
Theorem arrow_keys_step_through_options
    (region region' : PopupUi.Range) (w : Popup.World) :
  ui_invariant w ->
  is_Some (Popup.currentBox_target w) ->
  is_Some (Popup.openedEditor (Popup.popup w)) ->
  (Popup.state (Popup.popup w) <> Popup.ShowingObjects ->
   PopupUi.keyPressed PopupUi.downKey region w
   = Ok (PopupUi.mkKeyResult false w None) /\
   PopupUi.keyPressed PopupUi.upKey region w
   = Ok (PopupUi.mkKeyResult false w None)) /\
  (Popup.state (Popup.popup w) = Popup.ShowingObjects ->
   exists r1 r2,
     PopupUi.keyPressed PopupUi.downKey region w = Ok r1 /\
     PopupUi.consumed r1 = true /\
     PopupUi.caretPosition r1 = None /\
     Popup.editors (PopupUi.world r1) = Popup.editors w /\
     Popup.currentidx (Popup.popup (PopupUi.world r1))
     = (Popup.currentidx (Popup.popup w) + 1)
       mod Z.min 20 (Popup.numOptions (Popup.popup w)) /\
     PopupUi.keyPressed PopupUi.upKey region' (PopupUi.world r1) = Ok r2 /\
     PopupUi.consumed r2 = true /\
     Popup.currentidx (Popup.popup (PopupUi.world r2))
     = Popup.currentidx (Popup.popup w) /\
     Popup.numOptions (Popup.popup (PopupUi.world r2))
     = Popup.numOptions (Popup.popup w)).
Proof.
  intros (Hlen & Hidx & Hnum & Hstate & Hover & Hfit) Hbox Hed. split.
  - intros Hst.
    rewrite !keyPressed_arrow by (eauto || exact Hbox).
    destruct (Popup.state (Popup.popup w)); try (split; reflexivity).
    contradiction.
  - intros Hst. specialize (Hstate Hst).
    pose proof Hbox as [[a box] Htarget].
    remember (Z.min 20 (Popup.numOptions (Popup.popup w))) as n eqn:En.
    assert (Hn : 1 <= n <= 20) by lia.
    assert (Hadd : forall i off, -1 <= off <= 1 -> 0 <= i < 20 ->
              CInt.add i off = i + off).
    { intros i off Hoff Hi. apply wrap_in_range.
      unfold CInt.INT_MIN, CInt.INT_MAX. lia. }
    destruct (move_selects 1 (-1) (Popup.currentidx (Popup.popup w) + 1) w)
      as (w1 & b1 & Hrun1 & _ & Hi1 & Hn1 & Hs1 & Hbs1 & He1 & Hoe1 & Hcb1
          & _ & Hobj1).
    { cbn [Z.eqb Pos.eqb]. rewrite Hadd by lia. reflexivity. }
    { exact Hed. }
    { lia. }
    { exact Hlen. }
    { unfold CInt.INT_MAX. lia. }
    { intros _. exact Hbox. }
    rewrite <- En in Hi1.
    pose proof (Z.mod_pos_bound (Popup.currentidx (Popup.popup w) + 1) n
                  ltac:(lia)) as Hmod1.
    pose proof (move_box_stays 1 (-1) w w1 a box Htarget Hcb1 Hobj1) as Hbox1.
    destruct (move_selects (-1) (-1)
                (Popup.currentidx (Popup.popup w1) + -1) w1)
      as (w2 & b2 & Hrun2 & _ & Hi2 & Hn2 & _).
    { cbn [Z.eqb Pos.eqb]. rewrite Hadd by lia. reflexivity. }
    { rewrite Hoe1. exact Hed. }
    { lia. }
    { rewrite Hbs1, length_insert. exact Hlen. }
    { unfold CInt.INT_MAX. lia. }
    { intros _. exact Hbox1. }
    exists (PopupUi.mkKeyResult true w1 None),
           (PopupUi.mkKeyResult true w2 None).
    cbn [PopupUi.world PopupUi.consumed PopupUi.caretPosition].
    rewrite (keyPressed_arrow PopupUi.downKey region w Hbox) by eauto.
    rewrite (keyPressed_arrow PopupUi.upKey region' w1 Hbox1) by eauto.
    rewrite Hs1, Hst. cbn [PopupUi.KeyPress_eqb].
    rewrite Hrun1, Hrun2.
    cbn [mbind Outcome_bind PopupUi.consumed PopupUi.world
         PopupUi.caretPosition].
    split; [reflexivity|]. split; [reflexivity|]. split; [reflexivity|].
    split; [exact He1|]. split; [exact Hi1|]. split; [reflexivity|].
    split; [reflexivity|]. split; [|congruence].
    rewrite Hi2, Hn1, <- En, Hi1.
    rewrite Zplus_mod_idemp_l.
    replace (Popup.currentidx (Popup.popup w) + 1 + -1)
      with (Popup.currentidx (Popup.popup w)) by lia.
    apply Z.mod_small. lia.
Qed.

Lemma arrow_keys_step_through_options_witness :
  exists r1 r2,
    PopupUi.keyPressed PopupUi.downKey (PopupUi.mkRange 0 0)
      (Popup.set_popup
         (Popup.set_state Popup.ShowingObjects
            (Popup.set_currentidx 1 (Popup.set_numOptions 2 opened_popup)))
         (sample_world sample_library false "me")) = Ok r1 /\
    Popup.currentidx (Popup.popup (PopupUi.world r1)) = 0 /\
    PopupUi.keyPressed PopupUi.upKey (PopupUi.mkRange 0 0) (PopupUi.world r1)
    = Ok r2 /\
    Popup.currentidx (Popup.popup (PopupUi.world r2)) = 1.
Proof.
  destruct (arrow_keys_step_through_options (PopupUi.mkRange 0 0)
              (PopupUi.mkRange 0 0)
              (Popup.set_popup
                 (Popup.set_state Popup.ShowingObjects
                    (Popup.set_currentidx 1
                       (Popup.set_numOptions 2 opened_popup)))
                 (sample_world sample_library false "me")))
    as [_ Hshow].
  - unfold ui_invariant. simpl.
    split; [reflexivity|]. split; [lia|]. split; [lia|].
    split; [lia|]. split; [eauto|].
    intros a o Ho. apply lookup_singleton_Some in Ho as [_ <-].
    apply sample_library_fits.
  - eexists. reflexivity.
  - eexists. reflexivity.
  - destruct (Hshow eq_refl)
      as (r1 & r2 & H1 & _ & _ & _ & Hi1 & H2 & _ & Hi2 & _).
    exists r1, r2. split; [exact H1|]. split; [rewrite Hi1; reflexivity|].
    split; [exact H2|]. rewrite Hi2. reflexivity.
Defined.

Lemma accept_exact_prefix (editors : gmap addr TextEditor)
    (ac : AutoComplete.t) (ed : TextEditor) (name : string) :
  editors !! AutoComplete.editor ac = Some ed ->
  JString.contains (getText ed) " " = false ->
  JString.startsWith false (getText ed) name = true ->
  AutoComplete.autocomplete editors
    (AutoComplete.setSuggestion editors name ac)
  = <[AutoComplete.editor ac := mkTextEditor name]> editors.
Proof.
  intros Hed Hsp Hpre.
  unfold AutoComplete.autocomplete, AutoComplete.setSuggestion.
  rewrite Hed. cbn [AutoComplete.editor AutoComplete.suggestion].
  rewrite Hed, (upToFirstOccurrenceOf_without _ _ Hsp).
  unfold JString.fromFirstOccurrenceOf.
  rewrite (indexOf_at_start _ _ _ (startsWith_exact_ignoreCase _ _ Hpre)).
  cbn [Nat.add]. unfold setText.
  rewrite (startsWith_exact_app _ _ Hpre). reflexivity.
Qed.

(** From the text change to the accepted completion: when the text typed
    so far has no space and is the beginning of the match the selection
    falls on, the handler hands that match to the overlay, [getText ()]
    then returns the match, and the tab key makes the editor hold it. *)
Theorem tab_completes_shown_suggestion
    (hvccObjects : list string) (region : PopupUi.Range) (e a : addr)
    (w : Popup.World) (box : Object) (ed : TextEditor) (ac : AutoComplete.t)
    (fullName : string) (isAuto : bool) :
  ui_invariant w ->
  Popup.currentBox_target w = Some (a, box) ->
  Popup.autoCompleteComponent (Popup.popup w) = Some ac ->
  AutoComplete.editor ac = e ->
  Popup.editors w !! e = Some ed ->
  JString.contains (getText ed) " " = false ->
  getText ed <> EmptyString ->
  objects_found hvccObjects box (getText ed)
    !! Z.to_nat (Popup.currentidx (Popup.popup w)
                 mod Z.min 20
                       (Z.of_nat
                          (List.length
                             (objects_found hvccObjects box (getText ed)))))
  = Some (fullName, isAuto) ->
  JString.startsWith false (getText ed) fullName = true ->
  (String.length (getText ed) < String.length fullName)%nat ->
  exists w1 r,
    Popup.textEditorTextChanged hvccObjects e w = Ok w1 /\
    PopupUi.getText w1 = fullName /\
    PopupUi.keyPressed PopupUi.tabKey region w1 = Ok r /\
    PopupUi.consumed r = true /\
    Popup.editors (PopupUi.world r)
    = <[e := mkTextEditor fullName]> (Popup.editors w).
Proof.
  intros (Hlen & Hidx & Hnum & Hstate & Hover & Hfit) Hbox Hac He Hed Hsp
    Htext Hfull Hpre Hlonger.
  pose proof (currentBox_target_lookup _ _ _ Hbox) as [Hcb Hlook].
  destruct (textChanged_shows hvccObjects e a w box ed ac Hbox Hed Hsp Hlen
              Hidx (objects_found_fits _ box _ (Hfit a box Hlook)))
    as (w1 & fullName' & isAuto' & Hrun & Hfull' & Hac1).
  { intros Hnil. rewrite Hnil in Hfull. discriminate. }
  { exact Htext. }
  { exact Hac. }
  rewrite Hfull in Hfull'. injection Hfull' as <- <-.
  replace (JString.length (getText ed) <? JString.length fullName)
    with true in Hac1
    by (symmetry; apply Z.ltb_lt; unfold JString.length; lia).
  destruct (textChanged_frame _ _ _ _ Hrun) as (Heds & _).
  pose proof (textChanged_box_stays _ _ _ _ Hrun ltac:(eauto)) as Hbox1.
  subst e.
  exists w1, (PopupUi.mkKeyResult true
                (Popup.set_editors
                   (AutoComplete.autocomplete (Popup.editors w1)
                      (AutoComplete.setSuggestion (Popup.editors w)
                         fullName ac)) w1) None).
  split; [exact Hrun|]. split; [|split; [|split; [reflexivity|]]].
  - unfold PopupUi.getText. rewrite Hac1, Heds.
    apply (setSuggestion_completes_prefix _ _ ed); assumption.
  - apply keyPressed_tab; assumption.
  - cbn [PopupUi.world Popup.editors Popup.set_editors]. rewrite Heds.
    apply (accept_exact_prefix _ _ ed); assumption.
Qed.

Lemma tab_completes_shown_suggestion_witness :
  exists w1 r,
    Popup.textEditorTextChanged [] 1%positive
      (sample_world sample_library false "me") = Ok w1 /\
    PopupUi.getText w1 = "metro"%string /\
    PopupUi.keyPressed PopupUi.tabKey (PopupUi.mkRange 2 2) w1 = Ok r /\
    Popup.editors (PopupUi.world r)
    = <[1%positive := mkTextEditor "metro"]>
        (Popup.editors (sample_world sample_library false "me")).
Proof.
  destruct (tab_completes_shown_suggestion [] (PopupUi.mkRange 2 2)
              1%positive 7%positive (sample_world sample_library false "me")
              (mkObject sample_library (JVar.var_bool false) 0)
              (mkTextEditor "me") (AutoComplete.create 1%positive)
              "metro" true)
    as (w1 & r & Hrun & Htext & Hkey & _ & Heds).
  - unfold ui_invariant. simpl.
    split; [reflexivity|]. split; [lia|]. split; [lia|].
    split; [discriminate|]. split; [eauto|].
    intros a o Ho. apply lookup_singleton_Some in Ho as [_ <-].
    apply sample_library_fits.
  - reflexivity.
  - reflexivity.
  - reflexivity.
  - reflexivity.
  - reflexivity.
  - discriminate.
  - reflexivity.
  - reflexivity.
  - simpl. lia.
  - exists w1, r. repeat split; assumption.
Defined.

(** ** The closed popup, the horizontal keys and the rows *)

Lemma removeCalloutBox_closes (w w' : Popup.World) :
  Popup.removeCalloutBox w = Ok w' ->
  Popup.openedEditor (Popup.popup w') = None /\
  Popup.currentBox (Popup.popup w') = None /\
  Popup.autoCompleteComponent (Popup.popup w') = None.
Proof.
  unfold Popup.removeCalloutBox. intros H.
  apply bind_Ok_inv in H as (w1 & H1 & H).
  apply destroy_autoCompleteComponent_inv in H1. subst w1.
  apply bind_Ok_inv in H as (e & _ & H).
  apply bind_Ok_inv in H as (ed & _ & H).
  injection H as <-. repeat split.
Qed.

(** Once [removeCalloutBox] has run, the popup ignores what still reaches
    it until a box is opened again: [move], a text change and a key press
    change nothing, no key is consumed, and [getText] is empty. *)
Theorem closed_popup_ignores_input (hvccObjects : list string)
    (offset setto : Z) (e : addr) (key : PopupUi.KeyPress)
    (region : PopupUi.Range) (w w' : Popup.World) :
  Popup.removeCalloutBox w = Ok w' ->
  Popup.move offset setto w' = Ok w' /\
  Popup.textEditorTextChanged hvccObjects e w' = Ok w' /\
  PopupUi.keyPressed key region w' = Ok (PopupUi.mkKeyResult false w' None) /\
  PopupUi.getText w' = EmptyString.
Proof.
  intros H. apply removeCalloutBox_closes in H as (Hed & Hbox & Hac).
  assert (Htarget : Popup.currentBox_target w' = None)
    by (unfold Popup.currentBox_target; rewrite Hbox; reflexivity).
  unfold Popup.move, Popup.textEditorTextChanged, PopupUi.keyPressed,
    PopupUi.getText.
  rewrite Hed, Htarget, Hac. repeat split.
Qed.

Lemma closed_popup_ignores_input_witness :
  exists w',
    Popup.removeCalloutBox (sample_world sample_library false "me") = Ok w' /\
    Popup.move 1 (-1) w' = Ok w' /\
    PopupUi.keyPressed PopupUi.tabKey (PopupUi.mkRange 0 0) w'
    = Ok (PopupUi.mkKeyResult false w' None).
Proof.
  eexists. split; [reflexivity|].
  destruct (closed_popup_ignores_input [] 1 (-1) 1%positive PopupUi.tabKey
              (PopupUi.mkRange 0 0) (sample_world sample_library false "me")
              _ eq_refl) as (Hmove & _ & Hkey & _).
  split; [exact Hmove | exact Hkey].
Defined.

(** A highlighted region in the editor takes precedence over the
    completion: the right key then only moves the caret to the end of the
    region and the left key to its start.  Without a highlighted region the
    right key accepts the completion, as the tab key always does, and the
    left key is left to the editor.  The region is read through
    [openedEditor], so the right and left keys fault when that editor has
    been deleted, while the tab key does not look at it. *)
Theorem horizontal_keys_prefer_highlighted_region
    (region : PopupUi.Range) (w : Popup.World) (oe : addr)
    (ac : AutoComplete.t) :
  is_Some (Popup.currentBox_target w) ->
  Popup.openedEditor (Popup.popup w) = Some oe ->
  Popup.autoCompleteComponent (Popup.popup w) = Some ac ->
  let accepted :=
    PopupUi.mkKeyResult true
      (Popup.set_editors (AutoComplete.autocomplete (Popup.editors w) ac) w)
      None in
  PopupUi.keyPressed PopupUi.tabKey region w = Ok accepted /\
  (is_Some (Popup.editors w !! oe) ->
   PopupUi.getStart region <> PopupUi.getEnd region ->
   PopupUi.keyPressed PopupUi.rightKey region w
   = Ok (PopupUi.mkKeyResult true w (Some (PopupUi.getEnd region))) /\
   PopupUi.keyPressed PopupUi.leftKey region w
   = Ok (PopupUi.mkKeyResult true w (Some (PopupUi.getStart region)))) /\
  (is_Some (Popup.editors w !! oe) ->
   PopupUi.getStart region = PopupUi.getEnd region ->
   PopupUi.keyPressed PopupUi.rightKey region w = Ok accepted /\
   (Popup.state (Popup.popup w) <> Popup.ShowingObjects ->
    PopupUi.keyPressed PopupUi.leftKey region w
    = Ok (PopupUi.mkKeyResult false w None))) /\
  (Popup.editors w !! oe = None ->
   PopupUi.keyPressed PopupUi.rightKey region w
   = Crash (NullDereference ptr_openedEditor) /\
   PopupUi.keyPressed PopupUi.leftKey region w
   = Crash (NullDereference ptr_openedEditor)).
Proof.
  intros [t Ht] Hoe Hac accepted. subst accepted.
  unfold PopupUi.keyPressed, PopupUi.key_with_highlight,
    PopupUi.openedEditor_getHighlightedRegion, PopupUi.Range_isEmpty.
  rewrite Ht, Hoe, Hac. cbn [PopupUi.KeyPress_eqb mbind option_bind].
  split; [reflexivity|]. split; [|split].
  - intros [ed Hed] Hne. rewrite Hed.
    cbn [deref mbind Outcome_bind].
    replace (PopupUi.getStart region =? PopupUi.getEnd region) with false
      by (symmetry; apply Z.eqb_neq; exact Hne).
    split; reflexivity.
  - intros [ed Hed] Heq. rewrite Hed.
    cbn [deref mbind Outcome_bind].
    replace (PopupUi.getStart region =? PopupUi.getEnd region) with true
      by (symmetry; apply Z.eqb_eq; exact Heq).
    split; [reflexivity|]. intros Hst.
    destruct (Popup.state (Popup.popup w)); first [reflexivity|contradiction].
  - intros Hgone. rewrite Hgone. split; reflexivity.
Qed.

Lemma horizontal_keys_prefer_highlighted_region_witness :
  PopupUi.keyPressed PopupUi.rightKey (PopupUi.mkRange 2 5)
    (sample_world sample_library false "metro")
  = Ok (PopupUi.mkKeyResult true (sample_world sample_library false "metro")
          (Some 5)).
Proof.
  destruct (horizontal_keys_prefer_highlighted_region (PopupUi.mkRange 2 5)
              (sample_world sample_library false "metro") 1%positive
              (AutoComplete.create 1%positive))
    as (_ & Hsel & _).
  - eexists. reflexivity.
  - reflexivity.
  - reflexivity.
  - destruct Hsel as [Hright _].
    + eexists. reflexivity.
    + simpl. lia.
    + exact Hright.
Defined.

(** [resized] lays the rows out 25 apart and 24 high, so they never
    overlap; the holder is given 25 for each row in use plus 8, which is
    the height [Popup.resized] records.  Every row in use lies inside the
    holder, and every other row starts no higher than 4 above its lower
    edge; the holder is never taller than twenty rows. *)
Theorem rows_fit_the_button_holder (getWidth : Z) (p : Popup.t) (i j : Z) :
  0 <= Popup.numOptions p ->
  0 <= i < 20 -> 0 <= j < 20 ->
  let holder := PopupUi.buttonholder_bounds getWidth p in
  let row := PopupUi.button_bounds getWidth in
  rectHeight holder = Popup.buttonholderHeight (Popup.resized p) /\
  rectHeight holder = 25 * Z.min (Popup.numOptions p) 20 + 8 /\
  rectHeight holder <= 508 /\
  (i < j -> rectY (row i) + rectHeight (row i) < rectY (row j)) /\
  (i < Z.min (Popup.numOptions p) 20 ->
   0 < rectY (row i) /\ rectY (row i) + rectHeight (row i) < rectHeight holder) /\
  (Z.min (Popup.numOptions p) 20 <= i ->
   rectHeight holder - 4 <= rectY (row i)).
Proof.
  intros Hn Hi Hj holder row. subst holder row.
  unfold PopupUi.buttonholder_bounds, PopupUi.button_bounds, Popup.resized.
  cbn [rectHeight rectY Popup.buttonholderHeight Popup.set_buttonholderHeight].
  unfold CInt.add, CInt.mul.
  rewrite (wrap_in_range (_ * 25))
    by (unfold CInt.INT_MIN, CInt.INT_MAX; lia).
  rewrite (wrap_in_range (i * 25))
    by (unfold CInt.INT_MIN, CInt.INT_MAX; lia).
  rewrite (wrap_in_range (j * 25))
    by (unfold CInt.INT_MIN, CInt.INT_MAX; lia).
  rewrite !wrap_in_range by (unfold CInt.INT_MIN, CInt.INT_MAX; lia).
  repeat split; lia.
Qed.

Lemma rows_fit_the_button_holder_witness :
  rectY (PopupUi.button_bounds 300 1) = 29 /\
  rectHeight
    (PopupUi.buttonholder_bounds 300 (Popup.set_numOptions 2 Popup.create))
  = 58.
Proof.
  destruct (rows_fit_the_button_holder 300
              (Popup.set_numOptions 2 Popup.create) 1 2)
    as (_ & Hh & _).
  - simpl. lia.
  - lia.
  - lia.
  - split; [reflexivity|]. rewrite Hh. reflexivity.
Defined.

(** ** Plugin mode: what closing posts, and the windowed layout *)

Section PluginModeMore.

Variable isStandalone : bool.
Variable JUCE_LINUX : bool.
Variable unrepresentable : Float32.t -> Z.
Variable getValue_float : JVar.var -> Float32.t.
Variable getValue_bool : JVar.var -> bool.

(** Closing does not restore the editor itself: it posts the restore.
    When [closePluginMode] returns, the editor still has the plugin-mode
    constrainer and the size the constructor gave it; the posted callback
    carries the constrainer the editor had at entry and the bounds it had
    then, placed at the position of its top-level component. *)
Theorem closePluginMode_posts_the_restore
    (a : addr) (w : PluginMode.World) (c : PluginMode.Canvas) :
  PluginMode.canvases w !! a = Some c ->
  exists v w1,
    PluginMode.create isStandalone unrepresentable getValue_float
      getValue_bool a w = Ok (v, w1) /\
    PluginMode.constrainer (PluginMode.editor w1)
    = PluginMode.pluginModeConstrainer /\
    PluginMode.constrainer
      (PluginMode.editor (PluginMode.closePluginMode v w1))
    = PluginMode.pluginModeConstrainer /\
    PluginMode.editorBounds
      (PluginMode.editor (PluginMode.closePluginMode v w1))
    = PluginMode.editorBounds (PluginMode.editor w1) /\
    PluginMode.postedRestore
      (PluginMode.editor (PluginMode.closePluginMode v w1))
    = Some (PluginMode.constrainer (PluginMode.editor w),
            withPosition (PluginMode.topLevelPosition (PluginMode.editor w))
              (PluginMode.editorBounds (PluginMode.editor w))) /\
    PluginMode.desktopWindow (PluginMode.closePluginMode v w1)
    = PluginMode.desktopWindow w.
Proof.
  intros Hc. unfold PluginMode.create. rewrite Hc.
  eexists _, _. split; [reflexivity|]. repeat split.
Qed.

(** Entering and closing plugin mode touch no canvas but their own.  If
    the canvas is deleted while the view is up, closing changes no canvas
    at all and still posts the restore. *)
Theorem plugin_mode_touches_only_its_canvas
    (a : addr) (w : PluginMode.World) (c : PluginMode.Canvas) :
  PluginMode.canvases w !! a = Some c ->
  exists v w1,
    PluginMode.create isStandalone unrepresentable getValue_float
      getValue_bool a w = Ok (v, w1) /\
    (forall b, b <> a ->
       PluginMode.canvases w1 !! b = PluginMode.canvases w !! b /\
       PluginMode.canvases (PluginMode.closePluginMode v w1) !! b
       = PluginMode.canvases w !! b) /\
    let deleted :=
      PluginMode.mkWorld (delete a (PluginMode.canvases w1))
        (PluginMode.editor w1) (PluginMode.desktopWindow w1) in
    PluginMode.canvases (PluginMode.closePluginMode v deleted)
    = delete a (PluginMode.canvases w) /\
    PluginMode.postedRestore
      (PluginMode.editor (PluginMode.closePluginMode v deleted))
    = Some (PluginMode.oldEditorConstrainer v, PluginMode.windowBounds v).
Proof.
  intros Hc. unfold PluginMode.create. rewrite Hc.
  eexists _, _. split; [reflexivity|].
  cbn [PluginMode.canvases PluginMode.editor PluginMode.desktopWindow].
  split.
  - intros b Hb. unfold PluginMode.closePluginMode.
    cbn [PluginMode.canvases PluginMode.cnv].
    rewrite lookup_insert_eq. cbn [PluginMode.canvases].
    rewrite !lookup_insert_ne by congruence. split; reflexivity.
  - unfold PluginMode.closePluginMode.
    cbn [PluginMode.canvases PluginMode.cnv PluginMode.editor
         PluginMode.postedRestore PluginMode.oldEditorConstrainer
         PluginMode.windowBounds].
    rewrite lookup_delete_eq. cbn [PluginMode.canvases].
    split; [apply delete_insert_eq | reflexivity].
Qed.

Lemma resized_keeps_window_state (w : PluginMode.World) (v : PluginMode.t) :
  PluginMode.isWindowFullscreen JUCE_LINUX
    (PluginMode.resized isStandalone JUCE_LINUX unrepresentable w v) w
  = PluginMode.isWindowFullscreen JUCE_LINUX v w.
Proof.
  unfold PluginMode.resized.
  destruct (isStandalone && _); [reflexivity|].
  destruct isStandalone; reflexivity.
Qed.

Lemma resized_keeps_size (w : PluginMode.World) (v : PluginMode.t) :
  PluginMode.bounds
    (PluginMode.resized isStandalone JUCE_LINUX unrepresentable w v)
  = PluginMode.bounds v /\
  PluginMode.width
    (PluginMode.resized isStandalone JUCE_LINUX unrepresentable w v)
  = PluginMode.width v /\
  PluginMode.height
    (PluginMode.resized isStandalone JUCE_LINUX unrepresentable w v)
  = PluginMode.height v /\
  PluginMode.nativeTitleBarHeight
    (PluginMode.resized isStandalone JUCE_LINUX unrepresentable w v)
  = PluginMode.nativeTitleBarHeight v.
Proof.
  unfold PluginMode.resized.
  destruct (isStandalone && _); [repeat split|].
  destruct isStandalone; repeat split.
Qed.

(** [resized] is a function of the view's bounds, the patch size and the
    window state only, and changes none of them: running it again changes
    nothing, so the scale set on the content does not accumulate. *)
Theorem resized_is_idempotent (w : PluginMode.World) (v : PluginMode.t) :
  PluginMode.resized isStandalone JUCE_LINUX unrepresentable w
    (PluginMode.resized isStandalone JUCE_LINUX unrepresentable w v)
  = PluginMode.resized isStandalone JUCE_LINUX unrepresentable w v.
Proof.
  pose proof (resized_keeps_window_state w v) as Hfs.
  pose proof (resized_keeps_size w v) as (Hb & Hw & Hh & Hn).
  unfold PluginMode.resized at 1.
  rewrite isWindowFullscreen_set_fixedAspectRatio, Hfs.
  unfold PluginMode.getWidth, PluginMode.getHeight.
  cbn [PluginMode.set_fixedAspectRatio PluginMode.bounds PluginMode.width
       PluginMode.height PluginMode.nativeTitleBarHeight].
  rewrite Hb, Hw, Hh, Hn.
  unfold PluginMode.resized.
  rewrite isWindowFullscreen_set_fixedAspectRatio.
  unfold PluginMode.getWidth, PluginMode.getHeight.
  destruct (isStandalone && PluginMode.isWindowFullscreen JUCE_LINUX v w);
    [|destruct isStandalone];
    destruct v;
    cbn [PluginMode.cnv PluginMode.windowBounds PluginMode.originalCanvasScale
         PluginMode.originalCanvasPos PluginMode.originalLockedMode
         PluginMode.originalPresentationMode PluginMode.nativeTitleBarHeight
         PluginMode.titleBar PluginMode.editorButton
         PluginMode.fullscreenButton PluginMode.content
         PluginMode.contentTransform PluginMode.resizer PluginMode.sizeLimits
         PluginMode.fixedAspectRatio PluginMode.oldEditorConstrainer
         PluginMode.isFullscreenKioskMode PluginMode.bounds PluginMode.width
         PluginMode.height PluginMode.content_setTopLeftPosition
         PluginMode.set_editorButton PluginMode.set_titleBar
         PluginMode.set_contentTransform PluginMode.set_content
         PluginMode.set_resizer PluginMode.set_fixedAspectRatio
         withPosition rectWidth rectHeight getX getY getLocalBounds];
    reflexivity.
Qed.

(** Outside the standalone fullscreen case, [resized] spans the title bar
    over the width of the view, puts the editor button in the 40 by 40
    square at its right end, moves the content below the title bar
    ([titlebarHeight / scale], as an [int]) and scales it by
    [getWidth () / width]; the resizer covers the whole view in the
    standalone build and is the 18 by 18 square in the lower right corner in
    the plugin build. *)
Theorem resized_windowed_layout (w : PluginMode.World) (v : PluginMode.t) :
  isStandalone && PluginMode.isWindowFullscreen JUCE_LINUX v w = false ->
  40 <= PluginMode.getWidth v <= CInt.INT_MAX ->
  18 <= PluginMode.getHeight v <= CInt.INT_MAX ->
  let v' := PluginMode.resized isStandalone JUCE_LINUX unrepresentable w v in
  let scale :=
    Float32.div (Float32.of_int (PluginMode.getWidth v)) (PluginMode.width v) in
  PluginMode.titleBar v' = mkRectangle 0 0 (PluginMode.getWidth v) 40 /\
  PluginMode.editorButton v'
  = mkRectangle (PluginMode.getWidth v - 40) 0 40 40 /\
  rectX (PluginMode.editorButton v') + rectWidth (PluginMode.editorButton v')
  = rectWidth (PluginMode.titleBar v') /\
  PluginMode.contentTransform v' = scale /\
  getPosition (PluginMode.content v')
  = mkPoint 0
      (Float32.to_int unrepresentable
         (Float32.div (Float32.of_int 40) scale)) /\
  PluginMode.resizer v'
  = (if isStandalone
     then mkRectangle 0 0 (PluginMode.getWidth v) (PluginMode.getHeight v)
     else mkRectangle (PluginMode.getWidth v - 18)
            (PluginMode.getHeight v - 18) 18 18) /\
  PluginMode.bounds v' = PluginMode.bounds v.
Proof.
  intros Hwin Hw Hh v' scale. subst v' scale. unfold PluginMode.resized.
  rewrite isWindowFullscreen_set_fixedAspectRatio, Hwin.
  assert (Hsub : forall x k, 0 <= k <= x -> x <= CInt.INT_MAX ->
            CInt.sub x k = x - k).
  { intros x k Hk Hx. apply wrap_in_range.
    unfold CInt.INT_MIN, CInt.INT_MAX in *. lia. }
  unfold PluginMode.titlebarHeight, PluginMode.getWidth,
    PluginMode.getHeight in *.
  destruct isStandalone; destruct v;
    cbn [PluginMode.cnv PluginMode.windowBounds PluginMode.originalCanvasScale
         PluginMode.originalCanvasPos PluginMode.originalLockedMode
         PluginMode.originalPresentationMode PluginMode.nativeTitleBarHeight
         PluginMode.titleBar PluginMode.editorButton
         PluginMode.fullscreenButton PluginMode.content
         PluginMode.contentTransform PluginMode.resizer PluginMode.sizeLimits
         PluginMode.fixedAspectRatio PluginMode.oldEditorConstrainer
         PluginMode.isFullscreenKioskMode PluginMode.bounds PluginMode.width
         PluginMode.height PluginMode.content_setTopLeftPosition
         PluginMode.set_editorButton PluginMode.set_titleBar
         PluginMode.set_contentTransform PluginMode.set_content
         PluginMode.set_resizer PluginMode.set_fixedAspectRatio
         withPosition getPosition rectX rectY rectWidth rectHeight getX getY
         getLocalBounds] in *;
    rewrite ?Hsub by lia; repeat split; lia.
Qed.

End PluginModeMore.

Lemma closePluginMode_posts_the_restore_witness :
  exists v w1,
    PluginMode.create true x86_unrepresentable JVarFloat.to_float JVar.to_bool
      3%positive (sample_plugin_world false) = Ok (v, w1) /\
    PluginMode.postedRestore
      (PluginMode.editor (PluginMode.closePluginMode v w1))
    = Some (PluginMode.editorOwnConstrainer 9%positive,
            mkRectangle 50 60 1000 800).
Proof.
  destruct (closePluginMode_posts_the_restore true x86_unrepresentable
              JVarFloat.to_float JVar.to_bool 3%positive
              (sample_plugin_world false) sample_canvas eq_refl)
    as (v & w1 & Hrun & _ & _ & _ & Hposted & _).
  exists v, w1. split; [exact Hrun|]. rewrite Hposted. reflexivity.
Defined.

Lemma plugin_mode_touches_only_its_canvas_witness :
  exists v w1,
    PluginMode.create true x86_unrepresentable JVarFloat.to_float JVar.to_bool
      3%positive (sample_plugin_world false) = Ok (v, w1) /\
    PluginMode.canvases (PluginMode.closePluginMode v w1) !! 4%positive
    = None.
Proof.
  destruct (plugin_mode_touches_only_its_canvas true x86_unrepresentable
              JVarFloat.to_float JVar.to_bool 3%positive
              (sample_plugin_world false) sample_canvas eq_refl)
    as (v & w1 & Hrun & Hframe & _).
  exists v, w1. split; [exact Hrun|].
  destruct (Hframe 4%positive ltac:(discriminate)) as [_ Hclose].
  etransitivity; [exact Hclose | reflexivity].
Defined.

Lemma resized_windowed_layout_witness :
  PluginMode.editorButton
    (PluginMode.resized true false x86_unrepresentable
       (sample_plugin_world false) fullscreen_view)
  = mkRectangle 1880 0 40 40.
Proof.
  destruct (resized_windowed_layout true false x86_unrepresentable
              (sample_plugin_world false) fullscreen_view)
    as (_ & Hbutton & _).
  - reflexivity.
  - vm_compute. split; discriminate.
  - vm_compute. split; discriminate.
  - rewrite Hbutton. reflexivity.
Defined.

(** ** The overlay pointer *)

Lemma avoids_Ok {A : Type} (f : Fault) (a : A) : avoids f (Ok a).
Proof. discriminate. Qed.

Lemma avoids_bind {A B : Type} (f : Fault) (m : Outcome A)
    (k : A -> Outcome B) :
  avoids f m ->
  (forall a, m = Ok a -> avoids f (k a)) ->
  avoids f (m ≫= k).
Proof.
  intros Hm Hk. destruct m as [a|g]; simpl.
  - apply Hk. reflexivity.
  - intros [= ->]. apply Hm. reflexivity.
Qed.

Lemma avoids_deref {A : Type} (f : Fault) (p : Pointer) (target : option A) :
  f <> NullDereference p -> avoids f (deref p target).
Proof.
  intros Hf. unfold avoids. destruct target; simpl; [discriminate|].
  intros [= <-]. apply Hf. reflexivity.
Qed.

Lemma avoids_at_vector {A : Type} (f : Fault) (v : list A) (i : Z) :
  f <> OutOfBounds -> avoids f (at_vector v i).
Proof.
  intros Hf. unfold avoids, at_vector. destruct (at_index v i);
    [discriminate|].
  intros [= <-]. apply Hf. reflexivity.
Qed.

Lemma avoids_update_button (f : Fault) (i : Z)
    (g : Suggestion.t -> Suggestion.t) (bs : list Suggestion.t) :
  f <> NullDereference ptr_button -> avoids f (update_button i g bs).
Proof.
  intros Hf. unfold update_button. apply avoids_bind;
    [apply avoids_deref, Hf|].
  intros b _. apply avoids_Ok.
Qed.

Lemma avoids_for_range {St : Type} (f : Fault) (lo hi : Z)
    (body : Z -> St -> Outcome St) (s : St) :
  (forall i s, avoids f (body i s)) ->
  avoids f (for_range lo hi body s).
Proof.
  intros Hbody. unfold for_range.
  generalize (Z.to_nat (hi - lo)) as n. intros n. revert lo s.
  induction n as [|n IH]; intros lo s; simpl.
  - apply avoids_Ok.
  - apply avoids_bind; [apply Hbody|]. intros s' _. apply IH.
Qed.

Lemma avoids_currentBox_updateBounds (f : Fault) (w : Popup.World) :
  f <> NullDereference ptr_currentBox ->
  avoids f (Popup.currentBox_updateBounds w).
Proof.
  intros Hf. unfold Popup.currentBox_updateBounds.
  apply avoids_bind; [apply avoids_deref, Hf|].
  intros [a o] _. apply avoids_Ok.
Qed.

Lemma avoids_destroy_autoCompleteComponent (f : Fault) (w : Popup.World) :
  f <> NullDereference ptr_editor ->
  avoids f (Popup.destroy_autoCompleteComponent w).
Proof.
  intros Hf. unfold Popup.destroy_autoCompleteComponent.
  destruct (Popup.autoCompleteComponent (Popup.popup w)); [|apply avoids_Ok].
  apply avoids_bind; [apply avoids_deref, Hf|]. intros ed _. apply avoids_Ok.
Qed.

Lemma createCalloutBox_never_null_overlay (object editor : addr)
    (w : Popup.World) :
  avoids (NullDereference ptr_autoCompleteComponent)
    (Popup.createCalloutBox object editor w).
Proof.
  unfold Popup.createCalloutBox.
  apply avoids_bind; [apply avoids_deref; discriminate|]. intros o _.
  apply avoids_bind; [apply avoids_deref; discriminate|]. intros ed _.
  apply avoids_bind;
    [apply avoids_destroy_autoCompleteComponent; discriminate|].
  intros w1 _. apply avoids_Ok.
Qed.

Lemma removeCalloutBox_never_null_overlay (w : Popup.World) :
  avoids (NullDereference ptr_autoCompleteComponent)
    (Popup.removeCalloutBox w).
Proof.
  unfold Popup.removeCalloutBox.
  apply avoids_bind;
    [apply avoids_destroy_autoCompleteComponent; discriminate|].
  intros w1 _.
  apply avoids_bind; [apply avoids_deref; discriminate|]. intros e _.
  apply avoids_bind; [apply avoids_deref; discriminate|]. intros ed _.
  apply avoids_Ok.
Qed.

Lemma move_never_null_overlay (offset setto : Z) (w : Popup.World) :
  avoids (NullDereference ptr_autoCompleteComponent)
    (Popup.move offset setto w).
Proof.
  unfold Popup.move.
  destruct (Popup.openedEditor (Popup.popup w)); [|apply avoids_Ok].
  set (p := if setto =? -1 then _ else _).
  destruct (Popup.numOptions p =? 0); [apply avoids_Ok|].
  apply avoids_bind.
  { destruct (CInt.rem _ _); discriminate. }
  intros i _.
  apply avoids_bind; [apply avoids_update_button; discriminate|].
  intros bs _. simpl.
  destruct (Popup.autoCompleteComponent p); [|apply avoids_Ok].
  apply avoids_bind; [apply avoids_deref; discriminate|]. intros but _.
  apply avoids_currentBox_updateBounds. discriminate.
Qed.

(** With the overlay in place whenever a box is set, no use of
    [autoCompleteComponent] in the handler goes through a null pointer:
    the handler returns at once without a box, and with a box the pointer
    is set when line 517 is reached. *)
Lemma textChanged_never_null_overlay (hvccObjects : list string) (e : addr)
    (w : Popup.World) :
  overlay_with_box w ->
  avoids (NullDereference ptr_autoCompleteComponent)
    (Popup.textEditorTextChanged hvccObjects e w).
Proof.
  intros Hover. unfold Popup.textEditorTextChanged.
  destruct (Popup.currentBox_target w) as [[a box]|] eqn:Hbox;
    [|apply avoids_Ok].
  assert (Hac : is_Some (Popup.autoCompleteComponent (Popup.popup w))).
  { apply Hover. unfold Popup.currentBox_target in Hbox.
    destruct (Popup.currentBox (Popup.popup w)); [eauto | discriminate]. }
  destruct Hac as [ac Hac].
  apply avoids_bind; [apply avoids_deref; discriminate|]. intros ed _.
  destruct (JString.contains (getText ed) " ").
  - apply avoids_bind.
    { apply avoids_for_range. intros i s.
      apply avoids_bind; [apply avoids_at_vector; discriminate|].
      intros [[ty de] ini] _. apply avoids_update_button. discriminate. }
    intros bs _. apply avoids_bind.
    { apply avoids_for_range. intros i s.
      apply avoids_update_button. discriminate. }
    intros bs' _. apply avoids_bind; [|intros w' _; apply avoids_Ok].
    destruct (Popup.autoCompleteComponent _);
      [apply avoids_currentBox_updateBounds; discriminate | apply avoids_Ok].
  - apply avoids_bind; [apply avoids_update_button; discriminate|].
    intros bs0 _. apply avoids_bind.
    { apply avoids_for_range. intros i s.
      apply avoids_bind; [apply avoids_at_vector; discriminate|].
      intros [name isAuto] _. apply avoids_update_button. discriminate. }
    intros bs1 _. apply avoids_bind.
    { apply avoids_for_range. intros i s.
      apply avoids_update_button. discriminate. }
    intros bs2 _.
    destruct (bool_decide _ || _).
    + apply avoids_bind;
        [apply avoids_currentBox_updateBounds; discriminate|].
      intros w' _. apply avoids_Ok.
    + apply avoids_bind.
      { destruct (CInt.rem _ _); discriminate. }
      intros i _.
      apply avoids_bind; [apply avoids_at_vector; discriminate|].
      intros [fullName isAuto] _. apply avoids_bind.
      { cbn [Popup.autoCompleteComponent Popup.set_state Popup.set_currentidx
             Popup.resized Popup.set_buttonholderHeight Popup.set_buttons
             Popup.set_numOptions].
        rewrite Hac. destruct (_ && _); discriminate. }
      intros ac' _. apply avoids_bind;
        [apply avoids_currentBox_updateBounds; discriminate|].
      intros w' _. apply avoids_Ok.
Qed.

Lemma move_frame (offset setto : Z) (w w' : Popup.World) :
  Popup.move offset setto w = Ok w' ->
  Popup.currentBox (Popup.popup w') = Popup.currentBox (Popup.popup w) /\
  (is_Some (Popup.autoCompleteComponent (Popup.popup w)) ->
   is_Some (Popup.autoCompleteComponent (Popup.popup w'))).
Proof.
  unfold Popup.move.
  destruct (Popup.openedEditor (Popup.popup w));
    [|intros [= <-]; split; auto].
  set (p := if setto =? -1 then _ else _).
  assert (Hp : Popup.currentBox p = Popup.currentBox (Popup.popup w) /\
               Popup.autoCompleteComponent p
               = Popup.autoCompleteComponent (Popup.popup w))
    by (unfold p; destruct (setto =? -1); split; reflexivity).
  destruct Hp as [Hcb Hac].
  destruct (Popup.numOptions p =? 0).
  { intros [= <-]. simpl. rewrite Hcb, Hac. split; auto. }
  intros H. apply bind_Ok_inv in H as (i & _ & H).
  apply bind_Ok_inv in H as (bs & _ & H). simpl in H.
  rewrite Hac in H.
  destruct (Popup.autoCompleteComponent (Popup.popup w)) as [ac|].
  - apply bind_Ok_inv in H as (but & _ & H).
    apply currentBox_updateBounds_popup in H. rewrite H. simpl.
    split; [exact Hcb | eauto].
  - injection H as <-. simpl. split; [exact Hcb|].
    intros [? ?]. discriminate.
Qed.

Lemma createCalloutBox_overlay (object editor : addr) (w w' : Popup.World) :
  Popup.createCalloutBox object editor w = Ok w' -> overlay_with_box w'.
Proof.
  unfold Popup.createCalloutBox. intros H.
  apply bind_Ok_inv in H as (o & _ & H).
  apply bind_Ok_inv in H as (ed & _ & H).
  apply bind_Ok_inv in H as (w1 & _ & H).
  injection H as <-. intros _. simpl. eauto.
Qed.

Lemma step_overlay (hvccObjects : list string) (ev : Popup.Event)
    (w : Popup.World) :
  overlay_with_box w ->
  avoids (NullDereference ptr_autoCompleteComponent)
    (Popup.step hvccObjects ev w) /\
  forall w', Popup.step hvccObjects ev w = Ok w' -> overlay_with_box w'.
Proof.
  intros Hover.
  destruct ev as [object editor| |offset setto|i|e|e text|e|a];
    cbn [Popup.step].
  - split; [apply createCalloutBox_never_null_overlay|].
    intros w'. apply createCalloutBox_overlay.
  - split; [apply removeCalloutBox_never_null_overlay|].
    intros w' H. apply removeCalloutBox_closes in H as (_ & Hcb & _).
    intros [? Hx]. rewrite Hcb in Hx. discriminate.
  - split; [apply move_never_null_overlay|].
    intros w' H. apply move_frame in H as [Hcb Hac].
    intros Hx. apply Hac, Hover. rewrite <- Hcb. exact Hx.
  - split; [apply move_never_null_overlay|].
    intros w' H. apply move_frame in H as [Hcb Hac].
    intros Hx. apply Hac, Hover. rewrite <- Hcb. exact Hx.
  - split; [apply textChanged_never_null_overlay, Hover|].
    intros w' H.
    destruct (textChanged_frame _ _ _ _ H) as (_ & _ & Hcb & _ & Hac & _).
    intros Hx. apply Hac, Hover. rewrite <- Hcb. exact Hx.
  - split; [apply avoids_Ok|]. intros w' [= <-]. exact Hover.
  - split; [apply avoids_Ok|]. intros w' [= <-]. exact Hover.
  - split; [apply avoids_Ok|]. intros w' [= <-]. exact Hover.
Qed.

Lemma run_overlay (hvccObjects : list string) (evs : list Popup.Event) :
  forall w,
    overlay_with_box w ->
    avoids (NullDereference ptr_autoCompleteComponent)
      (Popup.run hvccObjects evs w) /\
    forall w', Popup.run hvccObjects evs w = Ok w' -> overlay_with_box w'.
Proof.
  induction evs as [|ev evs IH]; intros w Hover; cbn [Popup.run].
  - split; [apply avoids_Ok|]. intros w' [= <-]. exact Hover.
  - destruct (step_overlay hvccObjects ev w Hover) as [Hav Hstep].
    destruct (Popup.step hvccObjects ev w) as [w1|f];
      cbn [mbind Outcome_bind].
    + apply IH, Hstep. reflexivity.
    + split; [exact Hav | discriminate].
Qed.

(** C8: the popup is made by its constructor and then driven through its
    methods ([createCalloutBox], [removeCalloutBox], [move], the row
    clicks and the text-change handler), while text is typed and editors
    and objects are deleted around it.  In every state that can be reached
    this way the overlay exists whenever a box is set, so every use of
    [autoCompleteComponent] in [textEditorTextChanged], the one on line 517
    included, finds it non-null. *)
Theorem textChanged_overlay_is_never_null
    (hvccObjects : list string) (evs : list Popup.Event) (e : addr)
    (w0 w : Popup.World) :
  Popup.popup w0 = Popup.create ->
  Popup.run hvccObjects evs w0 = Ok w ->
  (is_Some (Popup.currentBox (Popup.popup w)) ->
   is_Some (Popup.autoCompleteComponent (Popup.popup w))) /\
  Popup.textEditorTextChanged hvccObjects e w
  <> Crash (NullDereference ptr_autoCompleteComponent) /\
  forall evs',
    Popup.run hvccObjects evs' w
    <> Crash (NullDereference ptr_autoCompleteComponent).
Proof.
  intros Hnew Hrun.
  assert (H0 : overlay_with_box w0).
  { unfold overlay_with_box. rewrite Hnew. intros [? ?]. discriminate. }
  destruct (run_overlay hvccObjects evs w0 H0) as [_ Hreach].
  specialize (Hreach w Hrun).
  split; [exact Hreach|].
  split; [apply textChanged_never_null_overlay, Hreach|].
  intros evs'. apply run_overlay, Hreach.
Qed.

Lemma textChanged_overlay_is_never_null_witness :
  Popup.popup exact_match_world = Popup.create /\
  exists w,
    Popup.run [] [Popup.EvCreateCalloutBox 7%positive 1%positive]
      exact_match_world = Ok w /\
    Popup.textEditorTextChanged [] 1%positive w
    <> Crash (NullDereference ptr_autoCompleteComponent) /\
    state_after (Popup.textEditorTextChanged [] 1%positive w)
    = Some Popup.ShowingObjects /\
    (p ← popup_after (Popup.textEditorTextChanged [] 1%positive w);
     ac ← Popup.autoCompleteComponent p;
     Some (AutoComplete.suggestion ac)) = Some EmptyString.
Proof.
  split; [reflexivity|]. eexists. split; [reflexivity|]. split.
  - exact (proj1 (proj2 (textChanged_overlay_is_never_null []
                           [Popup.EvCreateCalloutBox 7%positive 1%positive]
                           1%positive exact_match_world _ eq_refl eq_refl))).
  - split; vm_compute; reflexivity.
Defined.
